(** * NSWallet: the wallet ledger engine

    A shallow embedding of the wallet service of the NSWallet backend
    (NestJS + Prisma + PostgreSQL) and of the storage primitives it calls:

    - [WalletsService]   : create, fund, withdraw, delete, transfer and the
                           private retry wrapper [executeWithRetry];
    - [TransactionsService.create], [AuditService.log];
    - the Prisma client calls used by them, in the two variants of
      [PrismaService] the repository carries (with and without the
      soft-delete middleware);
    - the class-validator rules of the wallet DTOs;
    - the read side: [WalletsService.findByUserId], the queries of
      [TransactionsService] (findByReference, findByWalletId, getSummary);
    - the handlers of [WalletsController] and [UsersWalletsController] with
      their ownership checks, and the status [AllExceptionsFilter] answers
      a thrown error with;
    - [AuditService.generateDiff].

    Money is a [Z] counting ten-thousandths, the scale of the DECIMAL(19,4)
    columns; [Decimal.plus], [minus] and [lessThan] are then [+], [-] and
    [<?].  Promises are run to completion in program order: an [await]ed
    call is a call, a rejected promise is a thrown exception.

    The service is a function of its state and of an environment [Env] that
    fixes what it does not decide.  Concurrency enters through the
    environment: between the read of an attempt and its guarded write the
    other connections may have committed anything ([concurrent]).

    Left out: the users table (the foreign keys into it are taken to hold),
    the ranges of the INTEGER and DECIMAL(19,4) columns,
    [fundWithPessimisticLock] (its raw SQL names a column the migration does
    not create), the parsing of query strings and of the request headers,
    and the messages (not the status) of the exception filter.  The order
    the database gives to rows of equal [createdAt] and what Prisma answers
    to a negative [take] or [skip] are not fixed: a [QueryEngine] supplies
    them. *)

From Stdlib Require Import ZArith String Ascii List Bool Lia Sorted Permutation.
From stdpp Require Import base gmap strings pretty.

Local Open Scope string_scope.
Local Open Scope Z_scope.

(** ** Data model (the migration's tables) *)

Inductive TransactionType := CREDIT | DEBIT.

Inductive AuditAction := CREATE | UPDATE | DELETE | LOGIN | LOGOUT | LOGIN_FAILED.

(** A JSON object with string leaves, as the service builds them. *)
Definition Json := list (string * string).

Record Wallet := mkWallet {
  w_id : string;
  w_name : string;
  w_currency : string;
  w_balance : Z;
  w_version : Z;
  w_userId : string;
  w_createdAt : Z;
  w_updatedAt : Z;
  w_deletedAt : option Z
}.

Record Transaction := mkTransaction {
  t_id : string;
  t_walletId : string;
  t_type : TransactionType;
  t_amount : Z;
  t_balanceBefore : Z;
  t_balanceAfter : Z;
  t_reference : string;
  t_description : option string;
  t_metadata : option Json;
  t_performedByUserId : string;
  t_createdAt : Z
}.

Record AuditLog := mkAuditLog {
  a_id : string;
  a_actorUserId : option string;
  a_entity : string;
  a_entityId : string;
  a_action : AuditAction;
  a_changes : option Json;
  a_ip : option string;
  a_userAgent : option string;
  a_createdAt : Z
}.

(** The rows a database transaction can touch. *)
Record Tables := mkTables {
  wallets : gmap string Wallet;
  transactions : list Transaction
}.

Inductive LogLevel := LDebug | LWarn | LError.

(** The state of the running service.  [main] is what is committed; [txv] is
    the view of the interactive transaction in progress (meaningless outside
    of one).  [auditLogs] is written through the main client only.  [timers]
    lists the delays handed to [setTimeout]; [begun] counts the calls of
    [$transaction]; [tick] numbers the consultations of the environment. *)
Record World := mkWorld {
  main : Tables;
  txv : Tables;
  auditLogs : list AuditLog;
  logger : list (LogLevel * string);
  timers : list Z;
  begun : nat;
  tick : nat
}.

(** What the service does not decide: the clock, generated identifiers, the
    commits of other connections, failures of the audit table, and which
    [PrismaService] is wired in. *)
Record Env := mkEnv {
  softDeleteMiddleware : bool;
  now : nat -> Z;
  uuid : nat -> string;
  timestamp36 : nat -> string;
  randomHex : nat -> string;
  concurrent : nat -> Tables -> Tables;
  auditFailure : nat -> option string
}.

(** ** Exceptions and the service monad *)

Inductive Exception :=
| NotFoundException (message : string)
| BadRequestException (message : string)
| ConflictException (message : string)
| PrismaClientKnownRequestError (code : string)
| DriverError (message : string).

Inductive Result (A : Type) :=
| Ok (a : A)
| Throw (e : Exception).
Arguments Ok {A} a.
Arguments Throw {A} e.

Definition M (A : Type) : Type := World -> Result A * World.

Definition ret {A} (a : A) : M A := fun s => (Ok a, s).

Definition throw {A} (e : Exception) : M A := fun s => (Throw e, s).

Definition bind {A B} (c : M A) (k : A -> M B) : M B :=
  fun s => match c s with
           | (Ok a, s') => k a s'
           | (Throw e, s') => (Throw e, s')
           end.

Definition try_catch {A} (c : M A) (handler : Exception -> M A) : M A :=
  fun s => match c s with
           | (Ok a, s') => (Ok a, s')
           | (Throw e, s') => handler e s'
           end.

Notation "'let*' x := c 'in' k" := (bind c (fun x => k))
  (at level 10, x name, c at level 100, k at level 200).

(** ** Strings *)

(** [String.prototype.includes]. *)
Fixpoint includes (needle hay : string) : bool :=
  String.prefix needle hay ||
  match hay with
  | EmptyString => false
  | String _ rest => includes needle rest
  end.

(** JavaScript truthiness of an optional string: [undefined] and the empty
    string are falsy. *)
Definition truthy (o : option string) : option string :=
  match o with
  | Some EmptyString => None
  | Some s => Some s
  | None => None
  end.

(** [Decimal.prototype.toString] on a scale-4 value. *)
Definition fraction_digits (f : Z) : string :=
  let d1 := pretty (f / 1000) in
  let d2 := pretty (f / 100 mod 10) in
  let d3 := pretty (f / 10 mod 10) in
  let d4 := pretty (f mod 10) in
  if negb (f mod 10 =? 0) then d1 +:+ d2 +:+ d3 +:+ d4
  else if negb (f / 10 mod 10 =? 0) then d1 +:+ d2 +:+ d3
  else if negb (f / 100 mod 10 =? 0) then d1 +:+ d2
  else d1.

Definition Decimal_toString (d : Z) : string :=
  let a := Z.abs d in
  (if d <? 0 then "-" else "") +:+
  pretty (a / 10000) +:+
  (if a mod 10000 =? 0 then "" else "." +:+ fraction_digits (a mod 10000)).

(** [String.prototype.toUpperCase], on the ASCII range. *)
Definition upper_ascii (c : ascii) : ascii :=
  let n := nat_of_ascii c in
  if (97 <=? n)%nat && (n <=? 122)%nat then ascii_of_nat (n - 32) else c.

Fixpoint toUpperCase (s : string) : string :=
  match s with
  | EmptyString => EmptyString
  | String c rest => String (upper_ascii c) (toUpperCase rest)
  end.

Definition is_upper_letter (c : ascii) : bool :=
  let n := nat_of_ascii c in (65 <=? n)%nat && (n <=? 90)%nat.

(** The regular expression [/^[A-Z]{3}$/]. *)
Definition matches_AZ3 (s : string) : bool :=
  match s with
  | String a (String b (String c EmptyString)) =>
      is_upper_letter a && is_upper_letter b && is_upper_letter c
  | _ => false
  end.

(** [[x, y].sort()] on two strings. *)
Definition sort2 (x y : string) : list string :=
  if String.ltb y x then [y; x] else [x; y].

Definition show_action (a : AuditAction) : string :=
  match a with
  | CREATE => "CREATE" | UPDATE => "UPDATE" | DELETE => "DELETE"
  | LOGIN => "LOGIN" | LOGOUT => "LOGOUT" | LOGIN_FAILED => "LOGIN_FAILED"
  end.

(** A nullable string inside a template literal. *)
Definition show_nullable (o : option string) : string :=
  match o with Some s => s | None => "null" end.

(** ** State updates *)

Definition set_main (t : Tables) (s : World) : World :=
  mkWorld t (txv s) (auditLogs s) (logger s) (timers s) (begun s) (tick s).

Definition set_txv (t : Tables) (s : World) : World :=
  mkWorld (main s) t (auditLogs s) (logger s) (timers s) (begun s) (tick s).

Definition next_tick (s : World) : World :=
  mkWorld (main s) (txv s) (auditLogs s) (logger s) (timers s) (begun s) (S (tick s)).

Definition put_wallet (id : string) (w : Wallet) (t : Tables) : Tables :=
  mkTables (<[id := w]> (wallets t)) (transactions t).

Definition append_transaction (r : Transaction) (t : Tables) : Tables :=
  mkTables (wallets t) (transactions t ++ [r]).

Definition reference_taken (reference : string) (t : Tables) : bool :=
  existsb (fun r => String.eqb (t_reference r) reference) (transactions t).

Definition logger_log (lvl : LogLevel) (msg : string) : M unit :=
  fun s => (Ok tt, mkWorld (main s) (txv s) (auditLogs s) (logger s ++ [(lvl, msg)])
                           (timers s) (begun s) (tick s)).

(** [await new Promise((resolve) => setTimeout(resolve, ms))]. *)
Definition setTimeout (ms : Z) : M unit :=
  fun s => (Ok tt, mkWorld (main s) (txv s) (auditLogs s) (logger s)
                           (timers s ++ [ms]) (begun s) (tick s)).

(** ** DTOs and their class-validator rules *)

Definition SUPPORTED_CURRENCIES : list string :=
  ["NGN"; "USD"; "EUR"; "GBP"; "KES"; "GHS"; "AUD"; "CAD"; "ZAR"].

Record CreateWalletDto := mkCreateWalletDto {
  c_name : string;
  c_currency : string
}.

(** [name]: IsString, IsNotEmpty, Length(1, 100);
    [currency]: IsString, Length(3, 3), Matches(/^[A-Z]{3}$/). *)
Definition validate_CreateWalletDto (dto : CreateWalletDto) : bool :=
  negb (String.eqb (c_name dto) "")
  && (1 <=? String.length (c_name dto))%nat
  && (String.length (c_name dto) <=? 100)%nat
  && (String.length (c_currency dto) =? 3)%nat
  && matches_AZ3 (c_currency dto).

Record FundWalletDto := mkFundWalletDto {
  f_amount : Z;
  f_reference : option string;
  f_description : option string;
  f_metadata : option Json
}.

Record WithdrawWalletDto := mkWithdrawWalletDto {
  wd_amount : Z;
  wd_reference : option string;
  wd_description : option string;
  wd_metadata : option Json
}.

Definition max_length (n : nat) (o : option string) : bool :=
  match o with
  | Some s => (String.length s <=? n)%nat
  | None => true
  end.

(** [amount]: IsNumber({ maxDecimalPlaces: 4 }) holds of every scale-4 value,
    IsPositive; [reference]: IsOptional, MaxLength(100); [description]:
    IsOptional, MaxLength(500); [metadata]: IsOptional, IsObject. *)
Definition validate_FundWalletDto (dto : FundWalletDto) : bool :=
  (0 <? f_amount dto) && max_length 100 (f_reference dto)
  && max_length 500 (f_description dto).

Definition validate_WithdrawWalletDto (dto : WithdrawWalletDto) : bool :=
  (0 <? wd_amount dto) && max_length 100 (wd_reference dto)
  && max_length 500 (wd_description dto).

Record CreateTransactionDto := mkCreateTransactionDto {
  ct_walletId : string;
  ct_type : TransactionType;
  ct_amount : Z;
  ct_balanceBefore : Z;
  ct_balanceAfter : Z;
  ct_reference : string;
  ct_description : option string;
  ct_metadata : option Json;
  ct_performedByUserId : string
}.

Record CreateAuditLogDto := mkCreateAuditLogDto {
  al_actorUserId : option string;
  al_entity : string;
  al_entityId : string;
  al_action : AuditAction;
  al_changes : option Json;
  al_ip : option string;
  al_userAgent : option string
}.

Section Service.

Variable E : Env.

(** ** The Prisma client *)

(** [new Date()]. *)
Definition new_Date : M Z :=
  fun s => (Ok (now E (tick s)), next_tick s).

(** [generateTransactionReference()]: [TXN-${timestamp}-${random}]. *)
Definition generateTransactionReference : M string :=
  fun s => (Ok ("TXN-" +:+ timestamp36 E (tick s) +:+ "-" +:+ randomHex E (tick s)),
            next_tick s).

(** The first middleware of [addSoftDeleteMiddleware] turns a [findUnique] on
    a wallet into a [findFirst] with [deletedAt: null]; the [PrismaService]
    without middleware returns the row whatever its marker. *)
Definition soft_delete_filter (o : option Wallet) : option Wallet :=
  match o with
  | Some w =>
      if softDeleteMiddleware E
      then match w_deletedAt w with None => Some w | Some _ => None end
      else Some w
  | None => None
  end.

(** [this.prisma.wallet.findUnique({ where: { id } })]. *)
Definition prisma_wallet_findUnique (id : string) : M (option Wallet) :=
  fun s => (Ok (soft_delete_filter (wallets (main s) !! id)), s).

(** [tx.wallet.findUnique({ where: { id } })]. *)
Definition tx_wallet_findUnique (id : string) : M (option Wallet) :=
  fun s => (Ok (soft_delete_filter (wallets (txv s) !! id)), s).

(** What other connections committed since this transaction last looked.  A
    guarded write waits for the writers that reached the row first and then
    evaluates its WHERE clause on the committed row, so this is where their
    commits become visible to the transaction. *)
Definition absorb_concurrent : M unit :=
  fun s => let f := concurrent E (tick s) in
           (Ok tt, next_tick (set_txv (f (txv s)) (set_main (f (main s)) s))).

(** [tx.wallet.updateMany({ where: { id, version }, data: { balance,
    version: { increment: 1 }, updatedAt } })]; the result is [count]. *)
Definition tx_wallet_updateMany (id : string) (version : Z) (balance updatedAt : Z)
  : M nat :=
  let* _ := absorb_concurrent in
  fun s =>
    match wallets (txv s) !! id with
    | Some w =>
        if w_version w =? version
        then (Ok 1%nat,
              set_txv (put_wallet id
                         (mkWallet (w_id w) (w_name w) (w_currency w) balance
                                   (w_version w + 1) (w_userId w) (w_createdAt w)
                                   updatedAt (w_deletedAt w))
                         (txv s)) s)
        else (Ok 0%nat, s)
    | None => (Ok 0%nat, s)
    end.

(** [tx.wallet.update({ where: { id }, data: { balance: { increment: delta },
    version: { increment: 1 } } })] ([decrement] is a negative [delta]); the
    [updatedAt] column is maintained by Prisma.  P2025: no such row. *)
Definition tx_wallet_update (id : string) (delta : Z) : M Wallet :=
  fun s =>
    match wallets (txv s) !! id with
    | Some w =>
        let w' := mkWallet (w_id w) (w_name w) (w_currency w) (w_balance w + delta)
                           (w_version w + 1) (w_userId w) (w_createdAt w)
                           (now E (tick s)) (w_deletedAt w) in
        (Ok w', next_tick (set_txv (put_wallet id w' (txv s)) s))
    | None => (Throw (PrismaClientKnownRequestError "P2025"), s)
    end.

Definition triple_taken (userId name currency : string) (t : Tables) : bool :=
  bool_decide (map_Exists (fun _ w => w_userId w = userId /\ w_name w = name
                                      /\ w_currency w = currency) (wallets t)).

(** [this.prisma.wallet.create({ data: { name, currency, userId, balance,
    version } })].  P2000: the currency does not fit its VARCHAR(3) column;
    P2002: the primary key or the unique index on (userId, name, currency)
    is violated. *)
Definition prisma_wallet_create (name currency userId : string) (balance version : Z)
  : M Wallet :=
  fun s =>
    let id := uuid E (tick s) in
    let w := mkWallet id name currency balance version userId
                      (now E (tick s)) (now E (tick s)) None in
    if negb (String.length currency <=? 3)%nat
    then (Throw (PrismaClientKnownRequestError "P2000"), next_tick s)
    else
      match wallets (main s) !! id with
      | Some _ => (Throw (PrismaClientKnownRequestError "P2002"), next_tick s)
      | None =>
          if triple_taken userId name currency (main s)
          then (Throw (PrismaClientKnownRequestError "P2002"), next_tick s)
          else (Ok w, next_tick (set_main (put_wallet id w (main s)) s))
      end.

(** [this.prisma.wallet.delete({ where: { id } })].  With the second
    middleware of [addSoftDeleteMiddleware] the action becomes an [update]
    with [data: { deletedAt: new Date() }]; without it the row is deleted,
    and the foreign key of the ledger (ON DELETE CASCADE) deletes its
    transactions.  P2025: no such row. *)
Definition prisma_wallet_delete (id : string) : M Wallet :=
  fun s =>
    match wallets (main s) !! id with
    | Some w =>
        if softDeleteMiddleware E
        then
          let w' := mkWallet (w_id w) (w_name w) (w_currency w) (w_balance w)
                             (w_version w) (w_userId w) (w_createdAt w)
                             (now E (tick s)) (Some (now E (tick s))) in
          (Ok w', next_tick (set_main (put_wallet id w' (main s)) s))
        else
          (Ok w, set_main
                   (mkTables (delete id (wallets (main s)))
                             (List.filter
                                (fun r => negb (String.eqb (t_walletId r) id))
                                (transactions (main s))))
                   s)
    | None => (Throw (PrismaClientKnownRequestError "P2025"), s)
    end.

(** [tx.transaction.create({ data })].  P2002: the unique index on
    [reference] is violated. *)
Definition tx_transaction_create (dto : CreateTransactionDto) : M Transaction :=
  fun s =>
    if reference_taken (ct_reference dto) (txv s)
    then (Throw (PrismaClientKnownRequestError "P2002"), s)
    else
      let r := mkTransaction (uuid E (tick s)) (ct_walletId dto) (ct_type dto)
                             (ct_amount dto) (ct_balanceBefore dto)
                             (ct_balanceAfter dto) (ct_reference dto)
                             (ct_description dto) (ct_metadata dto)
                             (ct_performedByUserId dto) (now E (tick s)) in
      (Ok r, next_tick (set_txv (append_transaction r (txv s)) s)).

(** [this.prisma.auditLog.create({ data })], through the main client: the
    row is committed on its own, whatever the fate of a transaction that is
    open around the call. *)
Definition prisma_auditLog_create (dto : CreateAuditLogDto) : M AuditLog :=
  fun s =>
    match auditFailure E (tick s) with
    | Some msg => (Throw (DriverError msg), next_tick s)
    | None =>
        let r := mkAuditLog (uuid E (tick s)) (al_actorUserId dto) (al_entity dto)
                            (al_entityId dto) (al_action dto) (al_changes dto)
                            (al_ip dto) (al_userAgent dto) (now E (tick s)) in
        (Ok r, next_tick (mkWorld (main s) (txv s) (auditLogs s ++ [r]) (logger s)
                                  (timers s) (begun s) (tick s)))
    end.

(** [this.prisma.$transaction(async (tx) => ...)]: the callback works on its
    own view; returning commits the view, throwing rolls it back and leaves
    only what other connections committed. *)
Definition prisma_transaction {A} (callback : M A) : M A :=
  fun s =>
    let s0 := mkWorld (main s) (main s) (auditLogs s) (logger s) (timers s)
                      (S (begun s)) (tick s) in
    match callback s0 with
    | (Ok a, s') => (Ok a, set_main (txv s') s')
    | (Throw e, s') => (Throw e, s')
    end.

(** [SELECT id FROM wallets WHERE id IN (...) FOR UPDATE]: the rows stay
    locked until the transaction ends, no other connection writes them. *)
Definition tx_queryRaw_for_update (walletIds : list string) : M unit :=
  ret tt.

(** ** TransactionsService and AuditService *)

Definition TransactionsService_create (dto : CreateTransactionDto) : M Transaction :=
  tx_transaction_create dto.

Definition AuditService_log (dto : CreateAuditLogDto) : M AuditLog :=
  try_catch
    (let* auditLog := prisma_auditLog_create dto in
     let* _ := logger_log LDebug
                 ("Audit: " +:+ show_action (al_action dto) +:+ " on " +:+ al_entity dto
                  +:+ ":" +:+ al_entityId dto +:+ " by user:"
                  +:+ show_nullable (al_actorUserId dto)) in
     ret auditLog)
    (fun error =>
       let* _ := logger_log LError "Failed to create audit log" in
       throw error).

(** ** WalletsService *)

Definition MAX_RETRIES : nat := 3.

Definition create (userId : string) (dto : CreateWalletDto) (ip userAgent : option string)
  : M Wallet :=
  let* wallet := prisma_wallet_create (c_name dto) (toUpperCase (c_currency dto))
                                      userId 0 0 in
  let* _ := AuditService_log
              (mkCreateAuditLogDto (Some userId) "Wallet" (w_id wallet) CREATE
                 (Some [("name", w_name wallet); ("currency", w_currency wallet)])
                 ip userAgent) in
  ret wallet.

Definition findById (id : string) : M (option Wallet) :=
  prisma_wallet_findUnique id.

Definition findByIdOrFail (id : string) : M Wallet :=
  let* wallet := findById id in
  match wallet with
  | None => throw (NotFoundException "Wallet not found")
  | Some wallet => ret wallet
  end.

(** The test of the [catch] clause of [executeWithRetry]. *)
Definition is_concurrent_modification (error : Exception) : bool :=
  match error with
  | ConflictException m => includes "Concurrent modification" m
  | _ => false
  end.

(** The loop of [executeWithRetry]; [fuel] is the number of iterations left,
    [retries - attempt + 1]. *)
Fixpoint retry_loop {T} (operation : M T) (retries attempt fuel : nat) : M T :=
  match fuel with
  | O =>
      let* _ := logger_log LError
                  ("Failed after " +:+ pretty retries
                   +:+ " retries due to concurrent modifications") in
      throw (ConflictException
               "Operation failed due to high concurrency. Please try again.")
  | S fuel' =>
      try_catch operation
        (fun error =>
           if is_concurrent_modification error
           then
             let* _ := logger_log LWarn
                         ("Optimistic lock conflict, retry attempt "
                          +:+ pretty attempt +:+ "/" +:+ pretty retries) in
             let* _ := setTimeout (2 ^ Z.of_nat attempt * 10) in
             retry_loop operation retries (S attempt) fuel'
           else throw error)
  end.

Definition executeWithRetry {T} (operation : M T) (retries : nat) : M T :=
  retry_loop operation retries 1 retries.

(** The callback [fund] hands to [$transaction]. *)
Definition fund_unit (id : string) (dto : FundWalletDto) (performedByUserId : string)
  (ip userAgent : option string) : M (option Wallet) :=
  let* wallet := tx_wallet_findUnique id in
  match wallet with
  | None => throw (NotFoundException "Wallet not found")
  | Some wallet =>
      match w_deletedAt wallet with
      | Some _ => throw (BadRequestException "Wallet has been deleted")
      | None =>
          let amount := f_amount dto in
          let balanceBefore := w_balance wallet in
          let balanceAfter := balanceBefore + amount in
          let* updatedAt := new_Date in
          let* count := tx_wallet_updateMany id (w_version wallet) balanceAfter
                                             updatedAt in
          if (count =? 0)%nat
          then throw (ConflictException "Concurrent modification detected - retry")
          else
            let* reference :=
              match truthy (f_reference dto) with
              | Some r => ret r
              | None => generateTransactionReference
              end in
            let* _ := TransactionsService_create
                        (mkCreateTransactionDto id CREDIT amount balanceBefore
                           balanceAfter reference (f_description dto)
                           (f_metadata dto) performedByUserId) in
            let* updatedWallet := tx_wallet_findUnique id in
            let* _ := AuditService_log
                        (mkCreateAuditLogDto (Some performedByUserId) "Wallet" id UPDATE
                           (Some [("operation", "FUND");
                                  ("amount", Decimal_toString amount);
                                  ("balanceBefore", Decimal_toString balanceBefore);
                                  ("balanceAfter", Decimal_toString balanceAfter);
                                  ("reference", reference)])
                           ip userAgent) in
            ret updatedWallet
      end
  end.

Definition fund (id : string) (dto : FundWalletDto) (performedByUserId : string)
  (ip userAgent : option string) : M (option Wallet) :=
  executeWithRetry
    (prisma_transaction (fund_unit id dto performedByUserId ip userAgent))
    MAX_RETRIES.

(** The callback [withdraw] hands to [$transaction]. *)
Definition withdraw_unit (id : string) (dto : WithdrawWalletDto)
  (performedByUserId : string) (ip userAgent : option string) : M (option Wallet) :=
  let* wallet := tx_wallet_findUnique id in
  match wallet with
  | None => throw (NotFoundException "Wallet not found")
  | Some wallet =>
      match w_deletedAt wallet with
      | Some _ => throw (BadRequestException "Wallet has been deleted")
      | None =>
          let amount := wd_amount dto in
          let balanceBefore := w_balance wallet in
          let balanceAfter := balanceBefore - amount in
          if balanceAfter <? 0
          then throw (BadRequestException
                        ("Insufficient funds. Available balance: "
                         +:+ Decimal_toString balanceBefore +:+ " "
                         +:+ w_currency wallet))
          else
            let* updatedAt := new_Date in
            let* count := tx_wallet_updateMany id (w_version wallet) balanceAfter
                                               updatedAt in
            if (count =? 0)%nat
            then throw (ConflictException "Concurrent modification detected - retry")
            else
              let* reference :=
                match truthy (wd_reference dto) with
                | Some r => ret r
                | None => generateTransactionReference
                end in
              let* _ := TransactionsService_create
                          (mkCreateTransactionDto id DEBIT amount balanceBefore
                             balanceAfter reference (wd_description dto)
                             (wd_metadata dto) performedByUserId) in
              let* updatedWallet := tx_wallet_findUnique id in
              let* _ := AuditService_log
                          (mkCreateAuditLogDto (Some performedByUserId) "Wallet" id
                             UPDATE
                             (Some [("operation", "WITHDRAW");
                                    ("amount", Decimal_toString amount);
                                    ("balanceBefore", Decimal_toString balanceBefore);
                                    ("balanceAfter", Decimal_toString balanceAfter);
                                    ("reference", reference)])
                             ip userAgent) in
              ret updatedWallet
      end
  end.

Definition withdraw (id : string) (dto : WithdrawWalletDto) (performedByUserId : string)
  (ip userAgent : option string) : M (option Wallet) :=
  executeWithRetry
    (prisma_transaction (withdraw_unit id dto performedByUserId ip userAgent))
    MAX_RETRIES.

(** [delete(id, userId, ip, userAgent)]; [delete] is taken in Rocq. *)
Definition delete_wallet (id userId : string) (ip userAgent : option string) : M unit :=
  let* wallet := findByIdOrFail id in
  if negb (String.eqb (w_userId wallet) userId)
  then throw (NotFoundException "Wallet not found")
  else
    let* _ := prisma_wallet_delete id in
    let* _ := AuditService_log
                (mkCreateAuditLogDto (Some userId) "Wallet" id DELETE
                   (Some [("name", w_name wallet); ("currency", w_currency wallet)])
                   ip userAgent) in
    ret tt.

(** The callback [transfer] hands to [$transaction]. *)
Definition transfer_unit (fromWalletId toWalletId : string) (amount : Z)
  (performedByUserId : string) (description : option string)
  : M (option Wallet * option Wallet) :=
  let walletIds := sort2 fromWalletId toWalletId in
  let* _ := tx_queryRaw_for_update walletIds in
  let* fromWallet := tx_wallet_findUnique fromWalletId in
  let* toWallet := tx_wallet_findUnique toWalletId in
  match fromWallet, toWallet with
  | Some fromWallet, Some toWallet =>
      if negb (String.eqb (w_currency fromWallet) (w_currency toWallet))
      then throw (BadRequestException
                    "Cross-currency transfers require conversion (not implemented)")
      else
        let transferAmount := amount in
        if w_balance fromWallet <? transferAmount
        then throw (BadRequestException "Insufficient funds")
        else
          let* reference := generateTransactionReference in
          let* _ := tx_wallet_update fromWalletId (- transferAmount) in
          let* _ := TransactionsService_create
                      (mkCreateTransactionDto fromWalletId DEBIT transferAmount
                         (w_balance fromWallet)
                         (w_balance fromWallet - transferAmount)
                         (reference +:+ "-OUT")
                         (Some (match truthy description with
                                | Some d => d
                                | None => "Transfer to wallet " +:+ toWalletId
                                end))
                         (Some [("toWalletId", toWalletId)])
                         performedByUserId) in
          let* _ := tx_wallet_update toWalletId transferAmount in
          let* _ := TransactionsService_create
                      (mkCreateTransactionDto toWalletId CREDIT transferAmount
                         (w_balance toWallet)
                         (w_balance toWallet + transferAmount)
                         (reference +:+ "-IN")
                         (Some (match truthy description with
                                | Some d => d
                                | None => "Transfer from wallet " +:+ fromWalletId
                                end))
                         (Some [("fromWalletId", fromWalletId)])
                         performedByUserId) in
          let* updatedFrom := tx_wallet_findUnique fromWalletId in
          let* updatedTo := tx_wallet_findUnique toWalletId in
          ret (updatedFrom, updatedTo)
  | _, _ => throw (NotFoundException "One or both wallets not found")
  end.

Definition transfer (fromWalletId toWalletId : string) (amount : Z)
  (performedByUserId : string) (description : option string)
  : M (option Wallet * option Wallet) :=
  prisma_transaction
    (transfer_unit fromWalletId toWalletId amount performedByUserId description).

(** The POST /wallets route: the global ValidationPipe, then the service.
    A rejected body never reaches the service (400 Bad Request). *)
Definition post_wallets (userId : string) (body : CreateWalletDto)
  (ip userAgent : option string) : M Wallet :=
  if validate_CreateWalletDto body
  then create userId body ip userAgent
  else throw (BadRequestException "Validation failed").

End Service.

(** * The vocabulary of the properties *)

(** The state in which the next attempt starts after a conflict at attempt
    [attempt]: one warning logged, one timer awaited. *)
Definition backoff_state (retries attempt : nat) (s : World) : World :=
  mkWorld (main s) (txv s) (auditLogs s)
          (logger s ++ [(LWarn, "Optimistic lock conflict, retry attempt "
                                +:+ pretty attempt +:+ "/" +:+ pretty retries)])
          (timers s ++ [2 ^ Z.of_nat attempt * 10]) (begun s) (tick s).

(** The state in which the wrapper gives up. *)
Definition give_up_state (retries : nat) (s : World) : World :=
  mkWorld (main s) (txv s) (auditLogs s)
          (logger s ++ [(LError, "Failed after " +:+ pretty retries
                                 +:+ " retries due to concurrent modifications")])
          (timers s) (begun s) (tick s).

Definition HighContention : Exception :=
  ConflictException "Operation failed due to high concurrency. Please try again.".

Definition ConcurrentModification : Exception :=
  ConflictException "Concurrent modification detected - retry".

(** The committed tables after any number of commits of other connections. *)
Inductive env_steps (E : Env) : Tables -> Tables -> Prop :=
| env_steps_refl t : env_steps E t t
| env_steps_step t t' n : env_steps E t t' -> env_steps E t (concurrent E n t').

(** A step that opens no transaction, awaits no timer, and leaves the
    committed tables to the other connections. *)
Definition in_unit (E : Env) (s s' : World) : Prop :=
  begun s' = begun s /\ timers s' = timers s /\ env_steps E (main s) (main s').

Definition respects (E : Env) {A} (c : M A) : Prop :=
  forall s r s', c s = (r, s') -> in_unit E s s'.

(** The state in which the callback of [$transaction] starts. *)
Definition begin_state (s : World) : World :=
  mkWorld (main s) (main s) (auditLogs s) (logger s) (timers s) (S (begun s)) (tick s).

(** The row as the guarded write of [fund] and [withdraw] leaves it. *)
Definition written (w1 : Wallet) (balance updatedAt : Z) : Wallet :=
  mkWallet (w_id w1) (w_name w1) (w_currency w1) balance (w_version w1 + 1)
           (w_userId w1) (w_createdAt w1) updatedAt (w_deletedAt w1).

(** The tables the guarded write of an attempt started in [s] works on. *)
Definition seen (E : Env) (s : World) : Tables :=
  concurrent E (S (tick s)) (main s).

(** The reference a request ends up with: its own when it has a truthy one,
    else the one generated at tick [n]. *)
Definition reference_for (E : Env) (o : option string) (n : nat) : string :=
  match truthy o with
  | Some r => r
  | None => "TXN-" +:+ timestamp36 E n +:+ "-" +:+ randomHex E n
  end.

(** What an attempt of [fund] ([delta] is the amount) or of [withdraw]
    ([delta] is its opposite) that started in [s] has committed in [s']:
    [w] is the row it read, [w1] the row its guarded write met. *)
Definition committed_attempt (E : Env) (id : string) (type : TransactionType)
  (amount delta : Z) (o : option string) (w : Wallet) (s s' : World) : Prop :=
  exists w1 updatedAt r,
    wallets (main s) !! id = Some w /\ w_deletedAt w = None
    /\ wallets (seen E s) !! id = Some w1 /\ w_version w1 = w_version w
    /\ wallets (main s')
       = <[id := written w1 (w_balance w + delta) updatedAt]> (wallets (seen E s))
    /\ transactions (main s') = (transactions (seen E s) ++ [r])%list
    /\ reference_taken (t_reference r) (seen E s) = false
    /\ t_walletId r = id /\ t_type r = type /\ t_amount r = amount
    /\ t_balanceBefore r = w_balance w /\ t_balanceAfter r = w_balance w + delta
    /\ exists n, t_reference r = reference_for E o n.

(** A balance mutation: the body of a fund or of a withdraw request. *)
Definition Mutation : Type := FundWalletDto + WithdrawWalletDto.

(** One attempt of a mutation: the operation handed to [executeWithRetry]. *)
Definition attempt (E : Env) (id : string) (m : Mutation) (u : string)
  (ip ua : option string) : M (option Wallet) :=
  match m with
  | inl dto => prisma_transaction (fund_unit E id dto u ip ua)
  | inr dto => prisma_transaction (withdraw_unit E id dto u ip ua)
  end.

(** [fund] or [withdraw], by the kind of the mutation. *)
Definition mutate (E : Env) (id : string) (m : Mutation) (u : string)
  (ip ua : option string) : M (option Wallet) :=
  match m with
  | inl dto => fund E id dto u ip ua
  | inr dto => withdraw E id dto u ip ua
  end.

Definition sufficient (m : Mutation) (w : Wallet) : Prop :=
  match m with
  | inl _ => True
  | inr dto => wd_amount dto <= w_balance w
  end.

Definition row_version (t : Tables) (id : string) : option Z :=
  match wallets t !! id with
  | Some w => Some (w_version w)
  | None => None
  end.

(** No concurrent writer, a working audit table. *)
Definition calm (E : Env) : Prop :=
  (forall n t, concurrent E n t = t) /\ (forall n, auditFailure E n = None).

(** The row as [tx.wallet.update] of [transfer] leaves it. *)
Definition moved (w : Wallet) (delta updatedAt : Z) : Wallet :=
  mkWallet (w_id w) (w_name w) (w_currency w) (w_balance w + delta) (w_version w + 1)
           (w_userId w) (w_createdAt w) updatedAt (w_deletedAt w).

(** The environment without its concurrent writers. *)
Definition without_writers (E : Env) : Env :=
  mkEnv (softDeleteMiddleware E) (now E) (uuid E) (timestamp36 E) (randomHex E)
        (fun _ t => t) (auditFailure E).

(** What a transfer that returns has committed: [fw] and [tw] are the rows
    it read, [tw0] the destination row its credit met. *)
Definition committed_transfer (E : Env) (from to : string) (amount : Z)
  (s s' : World) : Prop :=
  exists fw tw tw0 stem out inn t1 t2,
    wallets (main s) !! from = Some fw
    /\ wallets (main s) !! to = Some tw
    /\ w_currency fw = w_currency tw
    /\ amount <= w_balance fw
    /\ <[from := moved fw (- amount) t1]> (wallets (main s)) !! to = Some tw0
    /\ wallets (main s')
       = <[to := moved tw0 amount t2]>
           (<[from := moved fw (- amount) t1]> (wallets (main s)))
    /\ transactions (main s') = (transactions (main s) ++ [out; inn])%list
    /\ t_walletId out = from /\ t_type out = DEBIT /\ t_amount out = amount
    /\ t_balanceBefore out = w_balance fw
    /\ t_balanceAfter out = w_balance fw - amount
    /\ t_reference out = stem +:+ "-OUT"
    /\ t_walletId inn = to /\ t_type inn = CREDIT /\ t_amount inn = amount
    /\ t_balanceBefore inn = w_balance tw
    /\ t_balanceAfter inn = w_balance tw + amount
    /\ t_reference inn = stem +:+ "-IN".

Definition reference_of (m : Mutation) : option string :=
  match m with
  | inl dto => f_reference dto
  | inr dto => wd_reference dto
  end.

(** Other connections only append to the ledger: a reference that is taken
    stays taken. *)
Definition append_only (E : Env) (ref : string) : Prop :=
  forall n t, reference_taken ref t = true ->
              reference_taken ref (concurrent E n t) = true.

(** The unique index on [reference], as the global exception filter names
    it: Prisma's P2002. *)
Definition DuplicateReference : Exception := PrismaClientKnownRequestError "P2002".

(** The row [create] inserts. *)
Definition created (E : Env) (userId : string) (dto : CreateWalletDto) (s : World)
  : Wallet :=
  mkWallet (uuid E (tick s)) (c_name dto) (toUpperCase (c_currency dto)) 0 0 userId
           (now E (tick s)) (now E (tick s)) None.

(** ** Concrete environments and states *)

(** An environment without concurrent writers and with a working audit
    table; [mw] tells whether the soft-delete middleware is installed. *)
Definition example_env (mw : bool) : Env :=
  mkEnv mw
        (fun n => 1700000000000 + Z.of_nat n)
        (fun n => "id-" +:+ pretty n)
        (fun n => "LZ9K2M" +:+ pretty n)
        (fun _ => "0A1B2C3D")
        (fun _ t => t)
        (fun _ => None).

(** The same with an audit table that rejects every insert. *)
Definition audit_down_env : Env :=
  mkEnv false
        (fun n => 1700000000000 + Z.of_nat n)
        (fun n => "id-" +:+ pretty n)
        (fun n => "LZ9K2M" +:+ pretty n)
        (fun _ => "0A1B2C3D")
        (fun _ t => t)
        (fun _ => Some "audit_logs: connection refused").

Definition alice_wallet : Wallet :=
  mkWallet "wallet-a" "Main" "USD" 10005000 1 "alice" 100 200 None.

Definition bob_wallet : Wallet :=
  mkWallet "wallet-b" "Savings" "USD" 20000000 0 "bob" 150 150 None.

Definition carol_wallet : Wallet :=
  mkWallet "wallet-c" "Travel" "EUR" 5000000 0 "carol" 160 160 None.

Definition alice_funding : Transaction :=
  mkTransaction "txn-1" "wallet-a" CREDIT 10005000 0 10005000 "FUND-001" None None
                "alice" 200.

Definition example_tables : Tables :=
  mkTables (<["wallet-a" := alice_wallet]>
              (<["wallet-b" := bob_wallet]> (<["wallet-c" := carol_wallet]> ∅)))
           [alice_funding].

Definition example_world : World :=
  mkWorld example_tables example_tables [] [] [] 0 0.

(** Another connection commits a funding of Alice's wallet while an attempt
    is between its read and its guarded write. *)
Definition racing_env : Env :=
  mkEnv false
        (fun n => 1700000000000 + Z.of_nat n)
        (fun n => "id-" +:+ pretty n)
        (fun n => "LZ9K2M" +:+ pretty n)
        (fun _ => "0A1B2C3D")
        (fun _ t =>
           mkTables (<["wallet-a" := mkWallet "wallet-a" "Main" "USD" 10015000 2 "alice"
                                              100 300 None]> (wallets t))
                    (transactions t))
        (fun _ => None).

(** The committed tables once a funding of 1.0000 of Alice's wallet, started
    in [example_world], has gone through. *)
Definition tables_after_funding : Tables :=
  main (snd (attempt (example_env false) "wallet-a"
                     (inl (mkFundWalletDto 10000 None None None)) "alice" None None
                     example_world)).

(** An environment in which that funding lands in front of every guarded
    write but the one at tick 1. *)
Definition overtaken_env : Env :=
  mkEnv false
        (fun n => 1700000000000 + Z.of_nat n)
        (fun n => "id-" +:+ pretty n)
        (fun n => "LZ9K2M" +:+ pretty n)
        (fun _ => "0A1B2C3D")
        (fun n t => if (n =? 1)%nat then t else tables_after_funding)
        (fun _ => None).

(** [example_world] a few ticks later. *)
Definition late_world : World :=
  mkWorld example_tables example_tables [] [] [] 0 5.

(** * The read side, the routes and the audit helpers *)

(** The queries and the handlers below are run on one committed state:
    other connections commit where the service waits for them, in the
    guarded write of [fund] and [withdraw], not between two reads of one
    request.  The [include]d users are left out of the rows returned. *)

(** ** TransactionsService: queries *)

Definition TransactionType_eqb (a b : TransactionType) : bool :=
  match a, b with
  | CREDIT, CREDIT | DEBIT, DEBIT => true
  | _, _ => false
  end.

(** [this.prisma.transaction.aggregate({ where: { walletId, type },
    _sum: { amount: true } })]: [_sum.amount] is [null] when no row
    matches. *)
Definition prisma_transaction_aggregate_sum (walletId : string) (type : TransactionType)
  : M (option Z) :=
  fun s =>
    let rows := List.filter
                  (fun r => String.eqb (t_walletId r) walletId
                            && TransactionType_eqb (t_type r) type)
                  (transactions (main s)) in
    (Ok (match rows with
         | [] => None
         | _ => Some (fold_right (fun r acc => t_amount r + acc) 0 rows)
         end), s).

(** [this.prisma.transaction.count({ where: { walletId } })]. *)
Definition prisma_transaction_count (walletId : string) : M nat :=
  fun s =>
    (Ok (List.length (List.filter (fun r => String.eqb (t_walletId r) walletId)
                                  (transactions (main s)))), s).

Section Numbers.

(** JavaScript numbers, and [Number(decimal)], the conversion of a Decimal
    to the nearest of them. *)
Variable JSNumber : Type.
Variable Number : Z -> JSNumber.

Record Summary := mkSummary {
  totalCredits : JSNumber;
  totalDebits : JSNumber;
  transactionCount : nat
}.

(** [getSummary(walletId)]: the three queries of its [Promise.all], answered
    from the same committed tables.  A [Decimal] is an object, hence truthy
    whatever its value: only [null] gives the literal 0, which is [Number]
    of the decimal 0. *)
Definition TransactionsService_getSummary (walletId : string) : M Summary :=
  let* credits := prisma_transaction_aggregate_sum walletId CREDIT in
  let* debits := prisma_transaction_aggregate_sum walletId DEBIT in
  let* count := prisma_transaction_count walletId in
  ret (mkSummary (match credits with Some d => Number d | None => Number 0 end)
                 (match debits with Some d => Number d | None => Number 0 end)
                 count).

End Numbers.

Arguments mkSummary {JSNumber}.
Arguments totalCredits {JSNumber}.
Arguments totalDebits {JSNumber}.
Arguments transactionCount {JSNumber}.
Arguments TransactionsService_getSummary {JSNumber}.

(** [findByReference(reference)]:
    [this.prisma.transaction.findUnique({ where: { reference } })]. *)
Definition TransactionsService_findByReference (reference : string)
  : M (option Transaction) :=
  fun s => (Ok (List.find (fun r => String.eqb (t_reference r) reference)
                          (transactions (main s))), s).

(** [orderBy: { createdAt: 'desc' }], as an insertion sort on the rows in
    the order they are handed over; rows of equal key come out in an order
    that depends on it. *)
Fixpoint insert_desc {A} (key : A -> Z) (x : A) (l : list A) : list A :=
  match l with
  | [] => [x]
  | y :: rest => if key y <? key x then x :: y :: rest
                 else y :: insert_desc key x rest
  end.

Definition sort_desc {A} (key : A -> Z) (l : list A) : list A :=
  fold_right (insert_desc key) [] l.

(** A listing is newest first. *)
Definition newest_first {A} (key : A -> Z) : list A -> Prop :=
  StronglySorted (fun a b => key b <= key a).

(** A number as the route hands it to [limit] and [offset]: what [parseInt]
    returns, an integer or NaN. *)
Inductive JSInteger := NaN | Int (n : Z).

(** The [options] of [findByWalletId]. *)
Record FindOptions := mkFindOptions {
  o_type : option TransactionType;
  o_limit : option JSInteger;
  o_offset : option JSInteger;
  o_fromDate : option Z;
  o_toDate : option Z
}.

(** [n || d] on an optional number: [undefined], NaN and 0 are falsy. *)
Definition or_default (o : option JSInteger) (d : Z) : Z :=
  match o with
  | Some (Int n) => if n =? 0 then d else n
  | Some NaN => d
  | None => d
  end.

(** The [where] clause of [findByWalletId]; an [undefined] condition
    filters nothing. *)
Definition matches_options (walletId : string) (o : FindOptions) (r : Transaction)
  : bool :=
  String.eqb (t_walletId r) walletId
  && match o_type o with Some ty => TransactionType_eqb (t_type r) ty | None => true end
  && match o_fromDate o with Some d => d <=? t_createdAt r | None => true end
  && match o_toDate o with Some d => t_createdAt r <=? d | None => true end.

(** What [findMany] leaves to the database and to Prisma: the order in which
    the rows that match come to the sort, hence the order of rows of equal
    [createdAt] in the answer ([arrange], which may differ from query to
    query), and the answer to a negative [take] or [skip] ([beyond]). *)
Record QueryEngine := mkQueryEngine {
  arrange : list Transaction -> list Transaction;
  beyond : Z -> Z -> list Transaction -> Result (list Transaction)
}.

(** A database that answers with the rows that match, each once. *)
Definition rearranges (Q : QueryEngine) : Prop :=
  forall l, Permutation (arrange Q l) l.

(** [this.prisma.transaction.findMany({ where, orderBy: { createdAt: 'desc'
    }, take, skip })]. *)
Definition prisma_transaction_findMany (Q : QueryEngine) (where_ : Transaction -> bool)
  (take skip : Z) : M (list Transaction) :=
  fun s =>
    let rows := sort_desc t_createdAt
                  (arrange Q (List.filter where_ (transactions (main s)))) in
    (if (0 <=? take) && (0 <=? skip)
     then Ok (firstn (Z.to_nat take) (skipn (Z.to_nat skip) rows))
     else beyond Q take skip rows, s).

(** [findByWalletId(walletId, options)]: the rows that match, newest first,
    [skip], then [take] with the page size 50 when no (or a falsy) limit is
    given. *)
Definition TransactionsService_findByWalletId (Q : QueryEngine) (walletId : string)
  (o : FindOptions) : M (list Transaction) :=
  prisma_transaction_findMany Q (matches_options walletId o)
    (or_default (o_limit o) 50) (or_default (o_offset o) 0).

(** The database as the insertion sort alone makes it, refusing negative
    windows. *)
Definition plain_engine : QueryEngine :=
  mkQueryEngine (fun l => l)
                (fun _ _ _ => Throw (PrismaClientKnownRequestError "P2019")).

(** The same with the matching rows handed over in reverse. *)
Definition reversing_engine : QueryEngine :=
  mkQueryEngine (@rev Transaction)
                (fun _ _ _ => Throw (PrismaClientKnownRequestError "P2019")).

(** ** The ledger as the source of the balances *)

(** What an entry adds to the balance of a wallet. *)
Definition signed_amount (walletId : string) (r : Transaction) : Z :=
  if String.eqb (t_walletId r) walletId
  then match t_type r with CREDIT => t_amount r | DEBIT => - t_amount r end
  else 0.

(** The balance the ledger gives a wallet: credits minus debits. *)
Definition ledger_balance (walletId : string) (l : list Transaction) : Z :=
  fold_right (fun r acc => signed_amount walletId r + acc) 0 l.

(** The constraints of the schema and the agreement of balances and ledger:
    every entry belongs to a stored wallet (foreign key), references are
    unique (unique index), and every stored balance is what replaying the
    ledger gives. *)
Definition consistent (t : Tables) : Prop :=
  (forall r, In r (transactions t) -> is_Some (wallets t !! t_walletId r))
  /\ NoDup (List.map t_reference (transactions t))
  /\ (forall id w, wallets t !! id = Some w ->
                   w_balance w = ledger_balance id (transactions t)).

(** Writers that keep the constraints and never change a balance without
    moving the version. *)
Definition well_behaved (E : Env) : Prop :=
  forall n t,
    consistent t ->
    consistent (concurrent E n t)
    /\ (forall id w w',
          wallets t !! id = Some w ->
          wallets (concurrent E n t) !! id = Some w' ->
          w_version w' = w_version w -> w_balance w' = w_balance w).

(** The sum of the amounts of the entries of one type of a wallet. *)
Definition total (type : TransactionType) (walletId : string) (l : list Transaction)
  : Z :=
  fold_right (fun r acc =>
                if String.eqb (t_walletId r) walletId && TransactionType_eqb (t_type r) type
                then t_amount r + acc else acc) 0 l.

(** [consistent] as a test. *)
Definition consistentb (t : Tables) : bool :=
  forallb (fun r => bool_decide (is_Some (wallets t !! t_walletId r))) (transactions t)
  && bool_decide (NoDup (List.map t_reference (transactions t)))
  && bool_decide (map_Forall (fun id w => w_balance w = ledger_balance id (transactions t))
                             (wallets t)).

(** Versions only grow, rows stay, and a balance only changes together with
    its version. *)
Definition monotone (t t' : Tables) : Prop :=
  forall id w,
    wallets t !! id = Some w ->
    exists w', wallets t' !! id = Some w'
               /\ w_version w <= w_version w'
               /\ (w_version w' = w_version w -> w_balance w' = w_balance w).

(** No wallet is overdrawn. *)
Definition solvent (t : Tables) : Prop :=
  forall id w, wallets t !! id = Some w -> 0 <= w_balance w.

(** A mutation whose amount, if it is a credit, is not negative. *)
Definition credits_non_negative (m : Mutation) : Prop :=
  match m with
  | inl dto => 0 <= f_amount dto
  | inr _ => True
  end.

(** A call of the service by another connection, and the tables it leaves. *)
Inductive ServiceCall :=
| CallMutate (id : string) (m : Mutation) (u : string) (ip ua : option string)
| CallTransfer (from to : string) (amount : Z) (u : string) (d : option string)
| CallCreate (userId : string) (dto : CreateWalletDto) (ip ua : option string).

Definition run_call (E : Env) (call : ServiceCall) (s : World) : Tables :=
  match call with
  | CallMutate id m u ip ua => main (snd (mutate E id m u ip ua s))
  | CallTransfer from to amount u d => main (snd (transfer E from to amount u d s))
  | CallCreate userId dto ip ua => main (snd (create E userId dto ip ua s))
  end.

(** The writers of [E] are calls of this service, each run in an
    environment [E0] of its own. *)
Definition writers_are_calls (E E0 : Env) : Prop :=
  forall n t, exists call s, main s = t /\ concurrent E n t = run_call E0 call s.

(** The waits of [executeWithRetry] after the conflicts 1 to [j]. *)
Definition backoff_delays (j : nat) : list Z :=
  List.map (fun attempt => 2 ^ Z.of_nat attempt * 10) (seq 1 j).

(** ** The audit trail of the mutations *)

(** A computation that writes no audit row. *)
Definition audits_nothing {A} (c : M A) : Prop :=
  forall s r s', c s = (r, s') -> auditLogs s' = auditLogs s.

(** A computation that appends one audit row (one that satisfies [P]) when
    it returns and none when it throws. *)
Definition audits_once (P : AuditLog -> Prop) {A} (c : M A) : Prop :=
  forall s r s',
    c s = (r, s') ->
    match r with
    | Ok _ => exists row, auditLogs s' = (auditLogs s ++ [row])%list /\ P row
    | Throw _ => auditLogs s' = auditLogs s
    end.

(** The audit row of a balance mutation of wallet [id] by user [u]. *)
Definition wallet_update_row (id u : string) (operation : string) (row : AuditLog)
  : Prop :=
  a_action row = UPDATE /\ a_entity row = "Wallet" /\ a_entityId row = id
  /\ a_actorUserId row = Some u
  /\ exists changes, a_changes row = Some (("operation", operation) :: changes).

(** ** WalletsService: the listing *)

Inductive Role := USER | ADMIN | SUPER_ADMIN.

Definition Role_eqb (a b : Role) : bool :=
  match a, b with
  | USER, USER | ADMIN, ADMIN | SUPER_ADMIN, SUPER_ADMIN => true
  | _, _ => false
  end.

(** The fields of the authenticated user the wallet routes read. *)
Record User := mkUser {
  u_id : string;
  u_roles : list Role
}.

Section Listing.

Variable E : Env.

(** [this.prisma.wallet.findMany({ where: { userId }, orderBy: { createdAt:
    'desc' } })]; the first middleware of [addSoftDeleteMiddleware] adds
    [deletedAt: null] to the [where] of a [findMany] that does not mention
    the column. *)
Definition prisma_wallet_findMany_userId (userId : string) : M (list Wallet) :=
  fun s =>
    (Ok (sort_desc w_createdAt
           (List.filter
              (fun w => String.eqb (w_userId w) userId
                        && (if softDeleteMiddleware E
                            then match w_deletedAt w with None => true | Some _ => false end
                            else true))
              (List.map snd (map_to_list (wallets (main s)))))), s).

Definition findByUserId (userId : string) : M (list Wallet) :=
  prisma_wallet_findMany_userId userId.

End Listing.

(** ** WalletsController and UsersWalletsController *)

(** What a handler throws: what the service raised, or a plain [Error] of
    its own. *)
Inductive Thrown :=
| Raised (e : Exception)
| PlainError (message : string).

Inductive Reply (A : Type) :=
| Replied (a : A)
| Failed (t : Thrown).

Arguments Replied {A}.
Arguments Failed {A}.

Definition Handler (A : Type) : Type := World -> Reply A * World.

Definition reply {A} (a : A) : Handler A := fun s => (Replied a, s).

Definition throw_Error {A} (message : string) : Handler A :=
  fun s => (Failed (PlainError message), s).

(** [await] of a call of a service. *)
Definition await {A} (c : M A) : Handler A :=
  fun s => match c s with
           | (Ok a, s') => (Replied a, s')
           | (Throw e, s') => (Failed (Raised e), s')
           end.

Definition hbind {A B} (h : Handler A) (k : A -> Handler B) : Handler B :=
  fun s => match h s with
           | (Replied a, s') => k a s'
           | (Failed t, s') => (Failed t, s')
           end.

Notation "'let!' x := c 'in' k" := (hbind c (fun x => k))
  (at level 10, x name, c at level 100, k at level 200).

Section Controller.

Variable E : Env.
Variable JSNumber : Type.
Variable Number : Z -> JSNumber.

(** The handlers take the parameters as the pipes hand them over: [id] has
    passed ParseUUIDPipe, [ip] is what [getClientIp(req)] returned,
    [userAgent] is the header.  A body the global ValidationPipe rejects
    never reaches the handler (400 Bad Request). *)

(** GET /wallets *)
Definition WalletsController_findAll (user : User) : Handler (list Wallet) :=
  await (findByUserId E (u_id user)).

(** GET /wallets/:id *)
Definition WalletsController_findOne (id : string) (user : User) : Handler Wallet :=
  let! wallet := await (findByIdOrFail E id) in
  if negb (String.eqb (w_userId wallet) (u_id user))
  then throw_Error "Wallet not found"
  else reply wallet.

(** GET /wallets/:id/summary *)
Definition WalletsController_getSummary (id : string) (user : User)
  : Handler (Wallet * Summary JSNumber) :=
  let! wallet := await (findByIdOrFail E id) in
  if negb (String.eqb (w_userId wallet) (u_id user))
  then throw_Error "Wallet not found"
  else
    let! summary := await (TransactionsService_getSummary Number id) in
    reply (wallet, summary).

(** PATCH /wallets/:id/fund *)
Definition WalletsController_fund (id : string) (fundWalletDto : FundWalletDto)
  (user : User) (ip : string) (userAgent : option string) : Handler (option Wallet) :=
  if validate_FundWalletDto fundWalletDto
  then
    let! wallet := await (findByIdOrFail E id) in
    if negb (String.eqb (w_userId wallet) (u_id user))
    then throw_Error "Wallet not found"
    else await (fund E id fundWalletDto (u_id user) (Some ip) userAgent)
  else await (throw (BadRequestException "Validation failed")).

(** PATCH /wallets/:id/withdraw *)
Definition WalletsController_withdraw (id : string) (withdrawWalletDto : WithdrawWalletDto)
  (user : User) (ip : string) (userAgent : option string) : Handler (option Wallet) :=
  if validate_WithdrawWalletDto withdrawWalletDto
  then
    let! wallet := await (findByIdOrFail E id) in
    if negb (String.eqb (w_userId wallet) (u_id user))
    then throw_Error "Wallet not found"
    else await (withdraw E id withdrawWalletDto (u_id user) (Some ip) userAgent)
  else await (throw (BadRequestException "Validation failed")).

(** DELETE /wallets/:id *)
Definition WalletsController_remove (id : string) (user : User) (ip : string)
  (userAgent : option string) : Handler unit :=
  await (delete_wallet E id (u_id user) (Some ip) userAgent).

(** GET /users/:userId/wallets *)
Definition UsersWalletsController_getUserWallets (userId : string) (currentUser : User)
  : Handler (list Wallet) :=
  if negb (String.eqb userId (u_id currentUser))
     && negb (existsb (Role_eqb ADMIN) (u_roles currentUser))
  then throw_Error "Access denied"
  else await (findByUserId E userId).

End Controller.

Arguments WalletsController_getSummary E {JSNumber}.

(** ** AllExceptionsFilter: the status of the response *)

(** The [status] of [handlePrismaError]. *)
Definition handlePrismaError_status (code : string) : Z :=
  if String.eqb code "P2002" then 409
  else if String.eqb code "P2003" then 400
  else if String.eqb code "P2025" then 404
  else if String.eqb code "P2014" then 400
  else 500.

(** The [status] of [catch]: [getStatus()] of an HttpException, the status
    of [handlePrismaError] of a known request error of Prisma, 500 of any
    other error. *)
Definition AllExceptionsFilter_status (exception : Thrown) : Z :=
  match exception with
  | Raised (NotFoundException _) => 404
  | Raised (BadRequestException _) => 400
  | Raised (ConflictException _) => 409
  | Raised (PrismaClientKnownRequestError code) => handlePrismaError_status code
  | Raised (DriverError _) => 500
  | PlainError _ => 500
  end.

(** The status of the response to a request whose handler threw; [None]
    when the handler replied. *)
Definition failure_status {A} (outcome : Reply A * World) : option Z :=
  match fst outcome with
  | Replied _ => None
  | Failed t => Some (AllExceptionsFilter_status t)
  end.

(** ** AuditService.generateDiff *)

Section Diff.

(** The values of the compared objects and [JSON.stringify] on them
    ([undefined] for a value JSON has no text for). *)
Variable V : Type.
Variable JSON_stringify : V -> option string.

(** An object: its own keys with their values, in the order [Object.keys]
    lists them. *)
Definition Obj : Type := list (string * V).

(** [o[key]]; [None] is [undefined]. *)
Fixpoint get (o : Obj) (key : string) : option V :=
  match o with
  | [] => None
  | (k, v) :: rest => if String.eqb k key then Some v else get rest key
  end.

Definition keys (o : Obj) : list string := List.map fst o.

Definition excludeFields : list string := ["passwordHash"; "tokenHash"; "secret"].

(** [new Set([...a, ...b])]: the elements in the order of their first
    occurrence. *)
Fixpoint Set_of (seen l : list string) : list string :=
  match l with
  | [] => []
  | k :: rest => if existsb (String.eqb k) seen then Set_of seen rest
                 else k :: Set_of (k :: seen) rest
  end.

Definition stringify (v : option V) : option string :=
  match v with
  | Some v => JSON_stringify v
  | None => None
  end.

Definition option_string_eqb (a b : option string) : bool :=
  match a, b with
  | Some x, Some y => String.eqb x y
  | None, None => true
  | _, _ => false
  end.

(** The loop of [generateDiff] over [allKeys]; every key comes once, so
    [diff[key] = ...] appends. *)
Fixpoint diff_loop (before after : Obj) (allKeys : list string)
  : list (string * (option V * option V)) :=
  match allKeys with
  | [] => []
  | key :: rest =>
      if existsb (String.eqb key) excludeFields
      then diff_loop before after rest
      else
        let oldValue := get before key in
        let newValue := get after key in
        if negb (option_string_eqb (stringify oldValue) (stringify newValue))
        then (key, (oldValue, newValue)) :: diff_loop before after rest
        else diff_loop before after rest
  end.

Definition generateDiff (before after : Obj) : list (string * (option V * option V)) :=
  diff_loop before after (Set_of [] (keys before ++ keys after)).

End Diff.

Arguments get {V}.
Arguments keys {V}.
Arguments stringify {V}.
Arguments diff_loop {V}.
Arguments generateDiff {V}.

(** ** More concrete states *)

(** Tables in which the ledger accounts for every balance. *)
Definition dave_wallet : Wallet :=
  mkWallet "wallet-d" "Spare" "USD" 0 0 "dave" 170 170 None.

Definition settled_tables : Tables :=
  mkTables (<["wallet-a" := alice_wallet]> (<["wallet-d" := dave_wallet]> ∅))
           [alice_funding].

Definition settled_world : World :=
  mkWorld settled_tables settled_tables [] [] [] 0 0.

(** What another connection that credits 1.0000 to wallet-a commits: the
    row at its next version and the entry, under a reference of its own. *)
Definition deposit_of_another (n : nat) (t : Tables) : Tables :=
  match wallets t !! "wallet-a" with
  | Some w =>
      if reference_taken ("EXT-" +:+ pretty n) t then t
      else mkTables
             (<["wallet-a" := written w (w_balance w + 10000) 300]> (wallets t))
             (transactions t
              ++ [mkTransaction ("ext-" +:+ pretty n) "wallet-a" CREDIT 10000
                                (w_balance w) (w_balance w + 10000)
                                ("EXT-" +:+ pretty n) None None "alice" 300])
  | None => t
  end.

(** An environment whose other writer is this service: in front of every
    guarded write another connection has funded wallet-d with 5.0000. *)
Definition crowded_env : Env :=
  mkEnv false
        (fun n => 1700000000000 + Z.of_nat n)
        (fun n => "id-" +:+ pretty n)
        (fun n => "LZ9K2M" +:+ pretty n)
        (fun _ => "0A1B2C3D")
        (fun n t =>
           run_call (example_env false)
             (CallMutate "wallet-d" (inl (mkFundWalletDto 50000 None None None)) "dave"
                         None None)
             (mkWorld t t [] [] [] 0 (1000 * S n)))
        (fun _ => None).

(** An environment in which that deposit lands in front of the guarded
    write at tick 1. *)
Definition busy_env : Env :=
  mkEnv false
        (fun n => 1700000000000 + Z.of_nat n)
        (fun n => "id-" +:+ pretty n)
        (fun n => "LZ9K2M" +:+ pretty n)
        (fun _ => "0A1B2C3D")
        (fun n t => if (n =? 1)%nat then deposit_of_another n t else t)
        (fun _ => None).

(** ** Refusals and entries *)

(** The errors [fund] and [withdraw] can throw before they reach the ledger
    insert: those of the checks on the row read, and the one the retry
    wrapper gives up with. *)
Definition refused_before_insert (e : Exception) : Prop :=
  e = NotFoundException "Wallet not found"
  \/ e = BadRequestException "Wallet has been deleted"
  \/ (exists balance currency,
        e = BadRequestException ("Insufficient funds. Available balance: "
                                 +:+ balance +:+ " " +:+ currency))
  \/ e = HighContention.



(** * Properties *)

(** ** The string helpers on examples *)

Example Decimal_toString_ex1 : Decimal_toString 10005000 = "1000.5".
Proof. vm_compute. reflexivity. Qed.

Example Decimal_toString_ex2 : Decimal_toString (-10000001) = "-1000.0001".
Proof. vm_compute. reflexivity. Qed.

Example currency_shape_ex :
  toUpperCase "usd" = "USD"
  /\ matches_AZ3 "USD" = true /\ matches_AZ3 "usd" = false
  /\ matches_AZ3 "USDT" = false /\ matches_AZ3 "XYZ" = true.
Proof. repeat split; vm_compute; reflexivity. Qed.

Example includes_ex :
  includes "Concurrent modification" "Concurrent modification detected - retry" = true
  /\ includes "Concurrent modification"
       "Operation failed due to high concurrency. Please try again." = false.
Proof. split; vm_compute; reflexivity. Qed.

(** ** The retry wrapper *)

Lemma HighContention_not_retried : is_concurrent_modification HighContention = false.
Proof. vm_compute. reflexivity. Qed.

Lemma ConcurrentModification_retried :
  is_concurrent_modification ConcurrentModification = true.
Proof. vm_compute. reflexivity. Qed.

Lemma retry_loop_step {T} (operation : M T) retries attempt fuel s :
  retry_loop operation retries attempt (S fuel) s =
  match operation s with
  | (Ok v, s1) => (Ok v, s1)
  | (Throw e, s1) =>
      if is_concurrent_modification e
      then retry_loop operation retries (S attempt) fuel (backoff_state retries attempt s1)
      else (Throw e, s1)
  end.
Proof.
  cbn [retry_loop]. unfold try_catch.
  destruct (operation s) as [[v|e] s1]; [reflexivity|].
  destruct (is_concurrent_modification e); reflexivity.
Qed.

Lemma retry_loop_exhausted {T} (operation : M T) retries attempt s :
  retry_loop operation retries attempt 0 s = (Throw HighContention, give_up_state retries s).
Proof. reflexivity. Qed.

(** Whatever the wrapper throws, it is not a conflict to be retried. *)
Lemma retry_loop_never_leaks {T} (operation : M T) retries fuel :
  forall attempt s e s',
    retry_loop operation retries attempt fuel s = (Throw e, s') ->
    is_concurrent_modification e = false.
Proof.
  induction fuel as [|fuel IH]; intros attempt s e s' H.
  - rewrite retry_loop_exhausted in H. inversion H; subst.
    apply HighContention_not_retried.
  - rewrite retry_loop_step in H.
    destruct (operation s) as [[v|e0] s1]; [discriminate|].
    destruct (is_concurrent_modification e0) eqn:Hc.
    + eapply IH; eassumption.
    + inversion H; subst. exact Hc.
Qed.

(** A value returned by the wrapper is the value of one run of the operation. *)
Lemma retry_loop_ok_inv {T} (operation : M T) retries fuel :
  forall attempt s v s',
    retry_loop operation retries attempt fuel s = (Ok v, s') ->
    exists s0, operation s0 = (Ok v, s').
Proof.
  induction fuel as [|fuel IH]; intros attempt s v s' H.
  - rewrite retry_loop_exhausted in H. discriminate.
  - rewrite retry_loop_step in H.
    destruct (operation s) as [[v0|e0] s1] eqn:Hop.
    + inversion H; subst. exists s. exact Hop.
    + destruct (is_concurrent_modification e0); [|discriminate].
      eapply IH; eassumption.
Qed.

(** A relation between states that every run of the operation respects, and
    that logging and waiting respect, holds across the wrapper. *)
Lemma retry_loop_respects {T} (operation : M T) (R : World -> World -> Prop) :
  (forall s, R s s) ->
  (forall s1 s2 s3, R s1 s2 -> R s2 s3 -> R s1 s3) ->
  (forall retries attempt s, R s (backoff_state retries attempt s)) ->
  (forall retries s, R s (give_up_state retries s)) ->
  (forall s r s', operation s = (r, s') -> R s s') ->
  forall retries fuel attempt s r s',
    retry_loop operation retries attempt fuel s = (r, s') -> R s s'.
Proof.
  intros Hrefl Htrans Hback Hgive Hop retries fuel.
  induction fuel as [|fuel IH]; intros attempt s r s' H.
  - rewrite retry_loop_exhausted in H. inversion H; subst. apply Hgive.
  - rewrite retry_loop_step in H.
    destruct (operation s) as [[v0|e0] s1] eqn:Hrun.
    + inversion H; subst. eapply Hop; eassumption.
    + destruct (is_concurrent_modification e0).
      * eapply Htrans; [eapply Hop; eassumption|].
        eapply Htrans; [apply Hback|]. eapply IH; eassumption.
      * inversion H; subst. eapply Hop; eassumption.
Qed.

(** ** What a callback may do to the state *)

Section Respects.

Variable E : Env.

Lemma env_steps_trans t1 t2 t3 : env_steps E t1 t2 -> env_steps E t2 t3 -> env_steps E t1 t3.
Proof. intros H12 H23. induction H23; [assumption|]. constructor. auto. Qed.

(** Without concurrent writers the committed tables stay as they are. *)
Lemma env_steps_quiet t t' :
  (forall n x, concurrent E n x = x) -> env_steps E t t' -> t' = t.
Proof. intros Hq H. induction H; [reflexivity|]. rewrite Hq. assumption. Qed.

Lemma in_unit_refl s : in_unit E s s.
Proof. repeat split. constructor. Qed.

Lemma in_unit_trans s1 s2 s3 : in_unit E s1 s2 -> in_unit E s2 s3 -> in_unit E s1 s3.
Proof.
  intros (Hb1 & Ht1 & He1) (Hb2 & Ht2 & He2). repeat split.
  - congruence.
  - congruence.
  - eapply env_steps_trans; eassumption.
Qed.

Lemma respects_ret {A} (a : A) : respects E (ret a).
Proof. intros s r s' H. inversion H; subst. apply in_unit_refl. Qed.

Lemma respects_throw {A} (e : Exception) : respects E (@throw A e).
Proof. intros s r s' H. inversion H; subst. apply in_unit_refl. Qed.

Lemma respects_bind {A B} (c : M A) (k : A -> M B) :
  respects E c -> (forall a, respects E (k a)) -> respects E (bind c k).
Proof.
  intros Hc Hk s r s' H. unfold bind in H.
  destruct (c s) as [[a|e] s1] eqn:Hrun.
  - eapply in_unit_trans; [eapply Hc; eassumption|]. eapply Hk; eassumption.
  - inversion H; subst. eapply Hc; eassumption.
Qed.

Lemma respects_try_catch {A} (c : M A) (h : Exception -> M A) :
  respects E c -> (forall e, respects E (h e)) -> respects E (try_catch c h).
Proof.
  intros Hc Hh s r s' H. unfold try_catch in H.
  destruct (c s) as [[a|e] s1] eqn:Hrun.
  - inversion H; subst. eapply Hc; eassumption.
  - eapply in_unit_trans; [eapply Hc; eassumption|]. eapply Hh; eassumption.
Qed.

Ltac same_unit := repeat split; cbn; solve [ reflexivity | constructor ].

Lemma respects_logger_log lvl msg : respects E (logger_log lvl msg).
Proof. intros s r s' H. inversion H; subst. same_unit. Qed.

Lemma respects_new_Date : respects E (new_Date E).
Proof. intros s r s' H. inversion H; subst. same_unit. Qed.

Lemma respects_generateTransactionReference : respects E (generateTransactionReference E).
Proof. intros s r s' H. inversion H; subst. same_unit. Qed.

Lemma respects_tx_wallet_findUnique id : respects E (tx_wallet_findUnique E id).
Proof. intros s r s' H. inversion H; subst. same_unit. Qed.

Lemma respects_absorb_concurrent : respects E (absorb_concurrent E).
Proof.
  intros s r s' H. inversion H; subst. repeat split.
  cbn. constructor. constructor.
Qed.

Lemma respects_tx_wallet_updateMany id version balance updatedAt :
  respects E (tx_wallet_updateMany E id version balance updatedAt).
Proof.
  apply respects_bind; [apply respects_absorb_concurrent|].
  intros _ s r s' H.
  destruct (wallets (txv s) !! id) as [w|]; [destruct (w_version w =? version)|];
    inversion H; subst; same_unit.
Qed.

Lemma respects_tx_wallet_update id delta : respects E (tx_wallet_update E id delta).
Proof.
  intros s r s' H. unfold tx_wallet_update in H.
  destruct (wallets (txv s) !! id) as [w|]; inversion H; subst; same_unit.
Qed.

Lemma respects_tx_transaction_create dto : respects E (tx_transaction_create E dto).
Proof.
  intros s r s' H. unfold tx_transaction_create in H.
  destruct (reference_taken (ct_reference dto) (txv s));
    inversion H; subst; same_unit.
Qed.

Lemma respects_prisma_auditLog_create dto : respects E (prisma_auditLog_create E dto).
Proof.
  intros s r s' H. unfold prisma_auditLog_create in H.
  destruct (auditFailure E (tick s)); inversion H; subst; same_unit.
Qed.

Lemma respects_tx_queryRaw_for_update ids : respects E (tx_queryRaw_for_update ids).
Proof. apply respects_ret. Qed.

Create HintDb respects.

#[local] Hint Resolve respects_logger_log respects_new_Date
  respects_generateTransactionReference respects_tx_wallet_findUnique
  respects_tx_wallet_updateMany respects_tx_wallet_update
  respects_tx_transaction_create respects_prisma_auditLog_create
  respects_tx_queryRaw_for_update : respects.

Ltac respects_tac :=
  repeat first
    [ solve [ eauto with respects ]
    | apply respects_ret
    | apply respects_throw
    | apply respects_bind; [ | intros ? ]
    | apply respects_try_catch; [ | intros ? ]
    | match goal with
      | |- respects E (match ?x with _ => _ end) => destruct x
      end
    | progress cbv zeta ].

Lemma respects_AuditService_log dto : respects E (AuditService_log E dto).
Proof. unfold AuditService_log. respects_tac. Qed.

Lemma respects_TransactionsService_create dto :
  respects E (TransactionsService_create E dto).
Proof. unfold TransactionsService_create. respects_tac. Qed.

#[local] Hint Resolve respects_AuditService_log respects_TransactionsService_create
  : respects.

Lemma respects_fund_unit id dto u ip ua : respects E (fund_unit E id dto u ip ua).
Proof. unfold fund_unit. respects_tac. Qed.

Lemma respects_withdraw_unit id dto u ip ua : respects E (withdraw_unit E id dto u ip ua).
Proof. unfold withdraw_unit. respects_tac. Qed.

Lemma respects_transfer_unit from to amount u d :
  respects E (transfer_unit E from to amount u d).
Proof. unfold transfer_unit. respects_tac. Qed.

End Respects.

(** ** Atomic units *)

Section Units.

Variable E : Env.

(** A transaction whose callback throws commits nothing of its own. *)
Lemma prisma_transaction_rollback {A} (callback : M A) :
  respects E callback ->
  forall s e s',
    prisma_transaction callback s = (Throw e, s') ->
    callback (begin_state s) = (Throw e, s')
    /\ begun s' = S (begun s) /\ timers s' = timers s
    /\ env_steps E (main s) (main s').
Proof.
  intros Hc s e s' H. unfold prisma_transaction in H. fold (begin_state s) in H.
  destruct (callback (begin_state s)) as [[a|e0] s1] eqn:Hrun; [discriminate|].
  inversion H; subst. split; [reflexivity|].
  destruct (Hc _ _ _ Hrun) as (Hb & Ht & He). auto.
Qed.

Lemma prisma_transaction_commit {A} (callback : M A) :
  forall s a s',
    prisma_transaction callback s = (Ok a, s') ->
    exists s1, callback (begin_state s) = (Ok a, s1) /\ s' = set_main (txv s1) s1.
Proof.
  intros s a s' H. unfold prisma_transaction in H. fold (begin_state s) in H.
  destruct (callback (begin_state s)) as [[a0|e0] s1] eqn:Hrun; [|discriminate].
  inversion H; subst. eauto.
Qed.

(** Every call of [$transaction] is one atomic unit begun, and awaits no timer. *)
Lemma prisma_transaction_counts {A} (callback : M A) :
  respects E callback ->
  forall s r s',
    prisma_transaction callback s = (r, s') ->
    begun s' = S (begun s) /\ timers s' = timers s.
Proof.
  intros Hc s r s' H. unfold prisma_transaction in H. fold (begin_state s) in H.
  destruct (callback (begin_state s)) as [[a|e0] s1] eqn:Hrun;
    inversion H; subst; destruct (Hc _ _ _ Hrun) as (Hb & Ht & _); cbn; auto.
Qed.

(** With [fuel] iterations left the wrapper begins at most [fuel] units. *)
Lemma retry_loop_begun {T} (operation : M T) :
  (forall s r s', operation s = (r, s') -> begun s' = S (begun s)) ->
  forall retries fuel attempt s r s',
    retry_loop operation retries attempt fuel s = (r, s') ->
    (begun s <= begun s')%nat /\ (fuel <> 0%nat -> (begun s < begun s')%nat)
    /\ (begun s' <= begun s + fuel)%nat.
Proof.
  intros Hop retries fuel.
  induction fuel as [|fuel IH]; intros attempt s r s' H.
  - rewrite retry_loop_exhausted in H. inversion H; subst.
    unfold give_up_state; cbn. lia.
  - rewrite retry_loop_step in H.
    destruct (operation s) as [[v0|e0] s1] eqn:Hrun.
    + inversion H; subst. apply Hop in Hrun. lia.
    + apply Hop in Hrun. destruct (is_concurrent_modification e0).
      * apply IH in H. unfold backoff_state in H; cbn in H. lia.
      * inversion H; subst. lia.
Qed.

(** A failed operation under the wrapper committed nothing of its own. *)
Lemma retry_loop_env_steps {T} (operation : M T) :
  (forall s r s', operation s = (Throw r, s') -> env_steps E (main s) (main s')) ->
  forall retries fuel attempt s e s',
    retry_loop operation retries attempt fuel s = (Throw e, s') ->
    env_steps E (main s) (main s').
Proof.
  intros Hop retries fuel.
  induction fuel as [|fuel IH]; intros attempt s e s' H.
  - rewrite retry_loop_exhausted in H. inversion H; subst. cbn. constructor.
  - rewrite retry_loop_step in H.
    destruct (operation s) as [[v0|e0] s1] eqn:Hrun; [discriminate|].
    apply Hop in Hrun. destruct (is_concurrent_modification e0).
    + apply IH in H. unfold backoff_state in H; cbn in H.
      eapply env_steps_trans; eassumption.
    + inversion H; subst. assumption.
Qed.

End Units.

(** ** C3: the retry policy *)

(** C3.  [executeWithRetry] with the default [MAX_RETRIES] runs the operation
    at most three times: a value or an error that is not a concurrent
    modification ends the loop at the attempt that produced it and is
    handed on unchanged; after a concurrent modification at attempt [k] it
    logs a warning and waits [10 * 2^k] milliseconds; after three conflicts
    it throws the high-contention error.  No error thrown by the wrapper is
    a concurrent modification, and [fund] and [withdraw] begin at least one
    and at most three atomic units. *)
Theorem executeWithRetry_policy :
  forall (T : Type) (operation : M T) (s : World),
    executeWithRetry operation MAX_RETRIES s =
      match operation s with
      | (Ok v, s1) => (Ok v, s1)
      | (Throw e1, s1) =>
          if negb (is_concurrent_modification e1) then (Throw e1, s1) else
          match operation (backoff_state MAX_RETRIES 1 s1) with
          | (Ok v, s2) => (Ok v, s2)
          | (Throw e2, s2) =>
              if negb (is_concurrent_modification e2) then (Throw e2, s2) else
              match operation (backoff_state MAX_RETRIES 2 s2) with
              | (Ok v, s3) => (Ok v, s3)
              | (Throw e3, s3) =>
                  if negb (is_concurrent_modification e3) then (Throw e3, s3) else
                  (Throw HighContention,
                   give_up_state MAX_RETRIES (backoff_state MAX_RETRIES 3 s3))
              end
          end
      end
    /\ (forall attempt w,
          timers (backoff_state MAX_RETRIES attempt w)
          = (timers w ++ [10 * 2 ^ Z.of_nat attempt])%list
          /\ main (backoff_state MAX_RETRIES attempt w) = main w)
    /\ match executeWithRetry operation MAX_RETRIES s with
       | (Throw e, _) => is_concurrent_modification e = false
       | (Ok _, _) => True
       end
    /\ is_concurrent_modification ConcurrentModification = true
    /\ is_concurrent_modification HighContention = false
    /\ (forall E id fdto wdto u ip ua,
          (begun s < begun (snd (fund E id fdto u ip ua s)) <= begun s + 3)%nat
          /\ (begun s < begun (snd (withdraw E id wdto u ip ua s))
              <= begun s + 3)%nat).
Proof.
  intros T operation s.
  split; [|split; [|split; [|split; [|split]]]].
  - unfold executeWithRetry, MAX_RETRIES. rewrite retry_loop_step.
    destruct (operation s) as [[v1|e1] s1]; [reflexivity|].
    destruct (is_concurrent_modification e1); [cbn [negb]|reflexivity].
    rewrite retry_loop_step.
    destruct (operation (backoff_state 3 1 s1)) as [[v2|e2] s2]; [reflexivity|].
    destruct (is_concurrent_modification e2); [cbn [negb]|reflexivity].
    rewrite retry_loop_step.
    destruct (operation (backoff_state 3 2 s2)) as [[v3|e3] s3]; [reflexivity|].
    destruct (is_concurrent_modification e3); [cbn [negb]|reflexivity].
    apply retry_loop_exhausted.
  - intros attempt w. split; [|reflexivity].
    cbn. f_equal. f_equal. lia.
  - destruct (executeWithRetry operation MAX_RETRIES s) as [[v|e] s'] eqn:H; [exact I|].
    eapply retry_loop_never_leaks. exact H.
  - apply ConcurrentModification_retried.
  - apply HighContention_not_retried.
  - intros E id fdto wdto u ip ua. split.
    + destruct (fund E id fdto u ip ua s) as [r s'] eqn:H. cbn [snd].
      unfold fund, executeWithRetry in H.
      apply retry_loop_begun in H.
      * unfold MAX_RETRIES in H. lia.
      * intros s0 r0 s0' H0.
        eapply prisma_transaction_counts in H0; [tauto|apply respects_fund_unit].
    + destruct (withdraw E id wdto u ip ua s) as [r s'] eqn:H. cbn [snd].
      unfold withdraw, executeWithRetry in H.
      apply retry_loop_begun in H.
      * unfold MAX_RETRIES in H. lia.
      * intros s0 r0 s0' H0.
        eapply prisma_transaction_counts in H0; [tauto|apply respects_withdraw_unit].
Qed.

(** ** One attempt of fund and withdraw *)

Lemma bind_ok_inv {A B} (c : M A) (k : A -> M B) s b s' :
  bind c k s = (Ok b, s') ->
  exists a s1, c s = (Ok a, s1) /\ k a s1 = (Ok b, s').
Proof.
  unfold bind. destruct (c s) as [[a|e] s1]; [eauto|discriminate].
Qed.

Lemma soft_delete_filter_Some E o w :
  soft_delete_filter E o = Some w -> o = Some w.
Proof.
  unfold soft_delete_filter. destruct o as [w0|]; [|discriminate].
  destruct (softDeleteMiddleware E); [destruct (w_deletedAt w0)|]; congruence.
Qed.

Lemma soft_delete_filter_active E w :
  w_deletedAt w = None -> soft_delete_filter E (Some w) = Some w.
Proof.
  intros H. unfold soft_delete_filter. rewrite H.
  destruct (softDeleteMiddleware E); reflexivity.
Qed.

Lemma tx_wallet_updateMany_inv E id version balance updatedAt s count s' :
  tx_wallet_updateMany E id version balance updatedAt s = (Ok count, s') ->
  let t := concurrent E (tick s) (txv s) in
  main s' = concurrent E (tick s) (main s)
  /\ auditLogs s' = auditLogs s /\ tick s' = S (tick s)
  /\ ((count = 0%nat /\ txv s' = t
       /\ (forall w1, wallets t !! id = Some w1 -> w_version w1 <> version))
      \/ (count = 1%nat /\ exists w1,
            wallets t !! id = Some w1 /\ w_version w1 = version
            /\ txv s' = put_wallet id (written w1 balance updatedAt) t)).
Proof.
  unfold tx_wallet_updateMany, bind, absorb_concurrent. cbn.
  destruct (wallets (concurrent E (tick s) (txv s)) !! id) as [w1|] eqn:Hrow.
  - destruct (w_version w1 =? version) eqn:Hv; intros H; inversion H; subst; cbn.
    + repeat split. right. split; [reflexivity|]. exists w1.
      apply Z.eqb_eq in Hv. auto.
    + repeat split. left. repeat split. intros w2 Hw2. inversion Hw2; subst.
      apply Z.eqb_neq in Hv. exact Hv.
  - intros H; inversion H; subst; cbn. repeat split. left. repeat split.
    intros w2 Hw2. discriminate.
Qed.

Lemma tx_transaction_create_inv E dto s r s' :
  tx_transaction_create E dto s = (Ok r, s') ->
  reference_taken (ct_reference dto) (txv s) = false
  /\ txv s' = append_transaction r (txv s) /\ main s' = main s
  /\ auditLogs s' = auditLogs s
  /\ t_walletId r = ct_walletId dto /\ t_type r = ct_type dto
  /\ t_amount r = ct_amount dto /\ t_balanceBefore r = ct_balanceBefore dto
  /\ t_balanceAfter r = ct_balanceAfter dto /\ t_reference r = ct_reference dto.
Proof.
  unfold tx_transaction_create.
  destruct (reference_taken (ct_reference dto) (txv s)); [discriminate|].
  intros H; inversion H; subst; cbn. repeat split.
Qed.

Lemma AuditService_log_inv E dto s r s' :
  AuditService_log E dto s = (r, s') ->
  main s' = main s /\ txv s' = txv s
  /\ match r with
     | Ok _ => auditFailure E (tick s) = None
     | Throw e => exists msg, auditFailure E (tick s) = Some msg /\ e = DriverError msg
                              /\ In (LError, "Failed to create audit log") (logger s')
     end.
Proof.
  unfold AuditService_log, try_catch, bind, prisma_auditLog_create, logger_log, ret, throw.
  destruct (auditFailure E (tick s)) as [msg|]; cbn; intros H; inversion H; subst; cbn.
  - repeat split. exists msg. repeat split. apply in_or_app. right. left. reflexivity.
  - repeat split.
Qed.

Lemma choose_reference_inv E (o : option string) s reference s' :
  match truthy o with
  | Some r => ret r
  | None => generateTransactionReference E
  end s = (Ok reference, s') ->
  main s' = main s /\ txv s' = txv s /\ auditLogs s' = auditLogs s
  /\ reference = reference_for E o (tick s).
Proof.
  unfold reference_for.
  destruct (truthy o); intros H; inversion H; subst; cbn; auto.
Qed.

Lemma fund_attempt_commit E id dto u ip ua s r s' :
  prisma_transaction (fund_unit E id dto u ip ua) s = (Ok r, s') ->
  exists w, committed_attempt E id CREDIT (f_amount dto) (f_amount dto)
                              (f_reference dto) w s s'.
Proof.
  intros H. apply prisma_transaction_commit in H as (s1 & H & ->).
  unfold fund_unit in H.
  apply bind_ok_inv in H as (wallet & sa & Hfind & H).
  unfold tx_wallet_findUnique in Hfind; inversion Hfind; subst; clear Hfind.
  destruct (soft_delete_filter E (wallets (main s) !! id)) as [w|] eqn:Hsf;
    [|unfold throw in H; discriminate].
  apply soft_delete_filter_Some in Hsf.
  destruct (w_deletedAt w) eqn:Hdel; [unfold throw in H; discriminate|].
  cbv zeta in H.
  apply bind_ok_inv in H as (updatedAt & sb & Hdate & H).
  unfold new_Date in Hdate; inversion Hdate; subst; clear Hdate.
  apply bind_ok_inv in H as (count & sc & Hupd & H).
  apply tx_wallet_updateMany_inv in Hupd; cbn in Hupd.
  destruct Hupd as (Hmain & Haud & Htick & [(-> & _) | (-> & w1 & Hrow & Hver & Htxv)]);
    cbn [Nat.eqb] in H; [unfold throw in H; discriminate|].
  apply bind_ok_inv in H as (reference & sd & Href & H).
  apply choose_reference_inv in Href; destruct Href as (Hm1 & Ht1 & _ & Hchosen).
  apply bind_ok_inv in H as (rec & se & Hcreate & H).
  apply tx_transaction_create_inv in Hcreate; cbn in Hcreate.
  destruct Hcreate as (Hfresh & Ht2 & Hm2 & _ & Hr1 & Hr2 & Hr3 & Hr4 & Hr5 & Hr6).
  apply bind_ok_inv in H as (uw & sf & Hfind2 & H).
  unfold tx_wallet_findUnique in Hfind2; inversion Hfind2; subst; clear Hfind2.
  apply bind_ok_inv in H as (al & sg & Haudit & H).
  apply AuditService_log_inv in Haudit; destruct Haudit as (Hm3 & Ht3 & _).
  inversion H; subst; clear H.
  exists w, w1, (now E (tick s)), rec.
  rewrite Ht1, Htxv in Hfresh. unfold seen.
  cbn [main set_main]. rewrite Ht3, Ht2, Ht1, Htxv.
  repeat split; auto.
  - rewrite Hr6. exact Hfresh.
  - exists (tick sc). exact Hr6.
Qed.

Lemma withdraw_attempt_commit E id dto u ip ua s r s' :
  prisma_transaction (withdraw_unit E id dto u ip ua) s = (Ok r, s') ->
  exists w, committed_attempt E id DEBIT (wd_amount dto) (- wd_amount dto)
                              (wd_reference dto) w s s'
            /\ 0 <= w_balance w - wd_amount dto.
Proof.
  intros H. apply prisma_transaction_commit in H as (s1 & H & ->).
  unfold withdraw_unit in H.
  apply bind_ok_inv in H as (wallet & sa & Hfind & H).
  unfold tx_wallet_findUnique in Hfind; inversion Hfind; subst; clear Hfind.
  destruct (soft_delete_filter E (wallets (main s) !! id)) as [w|] eqn:Hsf;
    [|unfold throw in H; discriminate].
  apply soft_delete_filter_Some in Hsf.
  destruct (w_deletedAt w) eqn:Hdel; [unfold throw in H; discriminate|].
  cbv zeta in H.
  destruct (w_balance w - wd_amount dto <? 0) eqn:Hfunds;
    [unfold throw in H; discriminate|].
  apply Z.ltb_ge in Hfunds.
  apply bind_ok_inv in H as (updatedAt & sb & Hdate & H).
  unfold new_Date in Hdate; inversion Hdate; subst; clear Hdate.
  apply bind_ok_inv in H as (count & sc & Hupd & H).
  apply tx_wallet_updateMany_inv in Hupd; cbn in Hupd.
  destruct Hupd as (Hmain & Haud & Htick & [(-> & _) | (-> & w1 & Hrow & Hver & Htxv)]);
    cbn [Nat.eqb] in H; [unfold throw in H; discriminate|].
  apply bind_ok_inv in H as (reference & sd & Href & H).
  apply choose_reference_inv in Href; destruct Href as (Hm1 & Ht1 & _ & Hchosen).
  apply bind_ok_inv in H as (rec & se & Hcreate & H).
  apply tx_transaction_create_inv in Hcreate; cbn in Hcreate.
  destruct Hcreate as (Hfresh & Ht2 & Hm2 & _ & Hr1 & Hr2 & Hr3 & Hr4 & Hr5 & Hr6).
  apply bind_ok_inv in H as (uw & sf & Hfind2 & H).
  unfold tx_wallet_findUnique in Hfind2; inversion Hfind2; subst; clear Hfind2.
  apply bind_ok_inv in H as (al & sg & Haudit & H).
  apply AuditService_log_inv in Haudit; destruct Haudit as (Hm3 & Ht3 & _).
  inversion H; subst; clear H.
  exists w. split; [|exact Hfunds].
  exists w1, (now E (tick s)), rec.
  rewrite Ht1, Htxv in Hfresh. unfold seen.
  cbn [main set_main]. rewrite Ht3, Ht2, Ht1, Htxv.
  repeat split; auto.
  - rewrite Hr6. exact Hfresh.
  - exists (tick sc). exact Hr6.
Qed.

(** An attempt whose guarded write meets another version of the row (or no
    row) raises the conflict and leaves only what the others committed. *)
Lemma fund_attempt_conflict E id dto u ip ua s w :
  wallets (main s) !! id = Some w -> w_deletedAt w = None ->
  (forall w1, wallets (seen E s) !! id = Some w1 -> w_version w1 <> w_version w) ->
  exists s',
    prisma_transaction (fund_unit E id dto u ip ua) s = (Throw ConcurrentModification, s')
    /\ main s' = seen E s /\ auditLogs s' = auditLogs s.
Proof.
  intros Hw Hdel Hstale.
  unfold prisma_transaction, fund_unit, bind, tx_wallet_findUnique,
    new_Date, tx_wallet_updateMany, bind, absorb_concurrent.
  cbn. rewrite Hw, (soft_delete_filter_active E w Hdel), Hdel. cbn.
  unfold seen in Hstale.
  destruct (wallets (concurrent E (S (tick s)) (main s)) !! id) as [w1|] eqn:Hrow.
  - destruct (w_version w1 =? w_version w) eqn:Hv.
    + apply Z.eqb_eq in Hv. exfalso. exact (Hstale w1 eq_refl Hv).
    + cbn. eexists. repeat split.
  - cbn. eexists. repeat split.
Qed.

Lemma withdraw_attempt_conflict E id dto u ip ua s w :
  wallets (main s) !! id = Some w -> w_deletedAt w = None ->
  wd_amount dto <= w_balance w ->
  (forall w1, wallets (seen E s) !! id = Some w1 -> w_version w1 <> w_version w) ->
  exists s',
    prisma_transaction (withdraw_unit E id dto u ip ua) s
    = (Throw ConcurrentModification, s')
    /\ main s' = seen E s /\ auditLogs s' = auditLogs s.
Proof.
  intros Hw Hdel Hfunds Hstale.
  unfold prisma_transaction, withdraw_unit, bind, tx_wallet_findUnique,
    new_Date, tx_wallet_updateMany, bind, absorb_concurrent.
  cbn. rewrite Hw, (soft_delete_filter_active E w Hdel), Hdel.
  assert (Hlt : (w_balance w - wd_amount dto <? 0) = false) by (apply Z.ltb_ge; lia).
  rewrite Hlt. cbn.
  unfold seen in Hstale.
  destruct (wallets (concurrent E (S (tick s)) (main s)) !! id) as [w1|] eqn:Hrow.
  - destruct (w_version w1 =? w_version w) eqn:Hv.
    + apply Z.eqb_eq in Hv. exfalso. exact (Hstale w1 eq_refl Hv).
    + cbn. eexists. repeat split.
  - cbn. eexists. repeat split.
Qed.

(** An attempt of [withdraw] on an active row that holds less than the
    amount throws before it writes. *)
Lemma withdraw_attempt_insufficient E id dto u ip ua s w :
  wallets (main s) !! id = Some w -> w_deletedAt w = None ->
  w_balance w < wd_amount dto ->
  prisma_transaction (withdraw_unit E id dto u ip ua) s
  = (Throw (BadRequestException
              ("Insufficient funds. Available balance: "
               +:+ Decimal_toString (w_balance w) +:+ " " +:+ w_currency w)),
     begin_state s).
Proof.
  intros Hw Hdel Hfunds.
  unfold prisma_transaction, withdraw_unit, bind, tx_wallet_findUnique.
  cbn [txv main]. rewrite Hw, (soft_delete_filter_active E w Hdel), Hdel.
  assert (Hlt : (w_balance w - wd_amount dto <? 0) = true) by (apply Z.ltb_lt; lia).
  cbv zeta. rewrite Hlt. reflexivity.
Qed.

(** ** C1, C2: the guarded write *)

Lemma mutate_unfold E id m u ip ua :
  mutate E id m u ip ua = executeWithRetry (attempt E id m u ip ua) MAX_RETRIES.
Proof. destruct m; reflexivity. Qed.

Lemma mutate_ok_inv E id m u ip ua s r s' :
  mutate E id m u ip ua s = (Ok r, s') ->
  exists sa, attempt E id m u ip ua sa = (Ok r, s').
Proof.
  rewrite mutate_unfold. unfold executeWithRetry. apply retry_loop_ok_inv.
Qed.

Lemma attempt_commit E id m u ip ua s r s' :
  attempt E id m u ip ua s = (Ok r, s') ->
  exists w w1,
    wallets (main s) !! id = Some w /\ w_deletedAt w = None /\ sufficient m w
    /\ wallets (seen E s) !! id = Some w1 /\ w_version w1 = w_version w
    /\ row_version (main s') id = Some (w_version w + 1).
Proof.
  intros H. destruct m as [dto|dto]; cbn [attempt] in H.
  - apply fund_attempt_commit in H
      as (w & w1 & t & rec & Hw & Hdel & Hrow & Hver & Hws & _).
    exists w, w1. repeat split; auto.
    unfold row_version. rewrite Hws, lookup_insert_eq. cbn. congruence.
  - apply withdraw_attempt_commit in H
      as (w & (w1 & t & rec & Hw & Hdel & Hrow & Hver & Hws & _) & Hfunds).
    exists w, w1. repeat split; auto.
    + cbn. lia.
    + unfold row_version. rewrite Hws, lookup_insert_eq. cbn. congruence.
Qed.

Lemma attempt_conflict E id m u ip ua s w :
  wallets (main s) !! id = Some w -> w_deletedAt w = None -> sufficient m w ->
  (forall w1, wallets (seen E s) !! id = Some w1 -> w_version w1 <> w_version w) ->
  exists s',
    attempt E id m u ip ua s = (Throw ConcurrentModification, s')
    /\ main s' = seen E s /\ auditLogs s' = auditLogs s.
Proof.
  intros Hw Hdel Hsuff Hstale. destruct m as [dto|dto]; cbn [attempt].
  - eapply fund_attempt_conflict; eassumption.
  - eapply withdraw_attempt_conflict; eassumption.
Qed.

(** C2.  A fund or withdraw that returns has committed exactly one attempt;
    that attempt read the row at some version [v], its guarded write met the
    row still at version [v], and it left the row at version [v + 1].  An
    attempt whose guarded write meets another version (or no row) raises the
    concurrent-modification conflict and commits nothing: the committed
    tables are what the other connections left.  Hence an attempt that read
    the version another attempt committed against, and whose write meets
    that commit, does not commit. *)
Theorem optimistic_lock_versions :
  forall (E : Env) (id : string) (m : Mutation) (u : string) (ip ua : option string),
    (forall s r s',
        mutate E id m u ip ua s = (Ok r, s') ->
        exists sa w w1,
          attempt E id m u ip ua sa = (Ok r, s')
          /\ wallets (main sa) !! id = Some w
          /\ wallets (seen E sa) !! id = Some w1
          /\ w_version w1 = w_version w
          /\ row_version (main s') id = Some (w_version w + 1))
    /\ (forall s w,
          wallets (main s) !! id = Some w -> w_deletedAt w = None -> sufficient m w ->
          (forall w1, wallets (seen E s) !! id = Some w1 ->
                      w_version w1 <> w_version w) ->
          exists s',
            attempt E id m u ip ua s = (Throw ConcurrentModification, s')
            /\ main s' = seen E s)
    /\ (forall m2 u2 ip2 ua2 sa ra sa' sb rb sb',
          attempt E id m u ip ua sa = (Ok ra, sa') ->
          row_version (main sb) id = row_version (main sa) id ->
          seen E sb = main sa' ->
          attempt E id m2 u2 ip2 ua2 sb <> (Ok rb, sb')).
Proof.
  intros E id m u ip ua. split; [|split].
  - intros s r s' H. apply mutate_ok_inv in H as (sa & Ha).
    destruct (attempt_commit _ _ _ _ _ _ _ _ _ Ha)
      as (w & w1 & Hw & _ & _ & Hrow & Hver & Hnew).
    exists sa, w, w1. auto.
  - intros s w Hw Hdel Hsuff Hstale.
    destruct (attempt_conflict E id m u ip ua s w Hw Hdel Hsuff Hstale)
      as (s' & Hrun & Hmain & _).
    eauto.
  - intros m2 u2 ip2 ua2 sa ra sa' sb rb sb' Ha Hsame Hseen Hb.
    apply attempt_commit in Ha as (w & w1 & Hw & _ & _ & _ & _ & Hnew).
    apply attempt_commit in Hb as (w' & w1' & Hw' & _ & _ & Hrow' & Hver' & _).
    unfold row_version in Hsame, Hnew. rewrite Hw, Hw' in Hsame.
    rewrite Hseen in Hrow'. rewrite Hrow' in Hnew.
    inversion Hsame. inversion Hnew. lia.
Qed.

(** An attempt of [withdraw] on a row that carries the delete marker
    throws at once: the middleware hides the row, the service refuses it. *)
Lemma withdraw_attempt_deleted E id dto u ip ua s w t :
  wallets (main s) !! id = Some w -> w_deletedAt w = Some t ->
  exists e,
    prisma_transaction (withdraw_unit E id dto u ip ua) s = (Throw e, begin_state s)
    /\ is_concurrent_modification e = false.
Proof.
  intros Hw Hdel.
  unfold prisma_transaction, withdraw_unit, bind, tx_wallet_findUnique.
  cbn [txv main]. rewrite Hw. unfold soft_delete_filter. rewrite Hdel.
  destruct (softDeleteMiddleware E); [|rewrite Hdel]; eexists; split; reflexivity.
Qed.

(** C1.  On a wallet that holds less than the amount, [withdraw] fails at
    its first attempt and leaves the committed wallets and ledger as they
    were: no audit row, no timer, one atomic unit begun and rolled back.
    When the wallet is active the error is the insufficient-funds error.
    And whenever a [withdraw] returns, the balance it committed is the
    balance its attempt read minus the amount, and is not negative. *)
Theorem withdraw_never_overdraws :
  forall (E : Env) (id : string) (dto : WithdrawWalletDto) (u : string)
         (ip ua : option string) (s : World) (w : Wallet),
    wallets (main s) !! id = Some w ->
    w_balance w < wd_amount dto ->
    (exists e s',
        withdraw E id dto u ip ua s = (Throw e, s')
        /\ main s' = main s /\ auditLogs s' = auditLogs s
        /\ timers s' = timers s /\ begun s' = S (begun s)
        /\ (w_deletedAt w = None ->
            e = BadRequestException
                  ("Insufficient funds. Available balance: "
                   +:+ Decimal_toString (w_balance w) +:+ " " +:+ w_currency w)))
    /\ (forall dto0 u0 ip0 ua0 s0,
          match withdraw E id dto0 u0 ip0 ua0 s0 with
          | (Ok r, s1) =>
              exists sa w0 w1,
                prisma_transaction (withdraw_unit E id dto0 u0 ip0 ua0) sa = (Ok r, s1)
                /\ wallets (main sa) !! id = Some w0
                /\ wallets (main s1) !! id = Some w1
                /\ w_balance w1 = w_balance w0 - wd_amount dto0
                /\ 0 <= w_balance w1
          | (Throw _, _) => True
          end).
Proof.
  intros E id dto u ip ua s w Hw Hfunds. split.
  - destruct (w_deletedAt w) as [t|] eqn:Hdel.
    + destruct (withdraw_attempt_deleted E id dto u ip ua s w t Hw Hdel)
        as (e & Hrun & Hleak).
      exists e, (begin_state s). split.
      * unfold withdraw, executeWithRetry, MAX_RETRIES.
        rewrite retry_loop_step, Hrun, Hleak. reflexivity.
      * repeat split. discriminate.
    + eexists. exists (begin_state s). split.
      * unfold withdraw, executeWithRetry, MAX_RETRIES. rewrite retry_loop_step.
        rewrite (withdraw_attempt_insufficient E id dto u ip ua s w Hw Hdel Hfunds).
        reflexivity.
      * repeat split.
  - intros dto0 u0 ip0 ua0 s0.
    destruct (withdraw E id dto0 u0 ip0 ua0 s0) as [[r|e] s1] eqn:H; [|exact I].
    unfold withdraw, executeWithRetry in H. apply retry_loop_ok_inv in H as (sa & Ha).
    destruct (withdraw_attempt_commit _ _ _ _ _ _ _ _ _ Ha)
      as (w0 & (w1 & t & rec & Hw0 & _ & _ & _ & Hws & _) & Hok).
    exists sa, w0, (written w1 (w_balance w0 + - wd_amount dto0) t).
    rewrite Hws, lookup_insert_eq. cbn. repeat split; auto; lia.
Qed.

(** ** C10: debiting the whole balance *)

Lemma withdraw_calm E id dto u ip ua s w :
  calm E ->
  (forall n, reference_taken (reference_for E (wd_reference dto) n) (main s) = false) ->
  wallets (main s) !! id = Some w -> w_deletedAt w = None ->
  wd_amount dto <= w_balance w ->
  exists s' r,
    withdraw E id dto u ip ua s
    = (Ok (Some (written w (w_balance w - wd_amount dto) (now E (tick s)))), s')
    /\ wallets (main s')
       = <[id := written w (w_balance w - wd_amount dto) (now E (tick s))]>
           (wallets (main s))
    /\ transactions (main s') = (transactions (main s) ++ [r])%list
    /\ t_type r = DEBIT /\ t_amount r = wd_amount dto
    /\ t_balanceBefore r = w_balance w
    /\ t_balanceAfter r = w_balance w - wd_amount dto
    /\ begun s' = S (begun s) /\ timers s' = timers s.
Proof.
  intros [Hq Ha] Href Hw Hdel Hfunds.
  assert (Hlt : (w_balance w - wd_amount dto <? 0) = false) by (apply Z.ltb_ge; lia).
  unfold withdraw, executeWithRetry, MAX_RETRIES. rewrite retry_loop_step.
  unfold prisma_transaction, withdraw_unit, bind, tx_wallet_findUnique, new_Date,
    tx_wallet_updateMany, bind, absorb_concurrent, TransactionsService_create,
    tx_transaction_create, AuditService_log, try_catch, bind, prisma_auditLog_create.
  cbn [txv main]. rewrite Hw, (soft_delete_filter_active E w Hdel), Hdel.
  cbv zeta. rewrite Hlt. cbn. rewrite !Hq, Hw, Z.eqb_refl. cbn.
  unfold reference_taken, reference_for in Href.
  unfold reference_taken.
  destruct (truthy (wd_reference dto)) as [ref|] eqn:Hr; cbn.
  - rewrite (Href 0%nat). cbn. rewrite Ha. cbn.
    rewrite lookup_insert_eq, soft_delete_filter_active by exact Hdel.
    do 2 eexists. split; [reflexivity|]. repeat split.
  - rewrite (Href (S (S (tick s)))). cbn. rewrite Ha. cbn.
    rewrite lookup_insert_eq, soft_delete_filter_active by exact Hdel.
    do 2 eexists. split; [reflexivity|]. repeat split.
Qed.

(** ** C5: transfer *)

Lemma tx_wallet_update_inv E id delta s w' s' :
  tx_wallet_update E id delta s = (Ok w', s') ->
  exists w,
    wallets (txv s) !! id = Some w /\ w' = moved w delta (now E (tick s))
    /\ txv s' = put_wallet id w' (txv s) /\ main s' = main s.
Proof.
  unfold tx_wallet_update. destruct (wallets (txv s) !! id) as [w|]; [|discriminate].
  intros H; inversion H; subst. exists w. repeat split.
Qed.

(** [transfer] never waits for another writer: the rows are locked. *)
Lemma transfer_without_writers E from to amount u d :
  transfer E from to amount u d = transfer (without_writers E) from to amount u d.
Proof. reflexivity. Qed.

(** A transfer that throws has committed nothing. *)
Lemma transfer_rollback E from to amount u d s e s' :
  transfer E from to amount u d s = (Throw e, s') ->
  main s' = main s /\ begun s' = S (begun s) /\ timers s' = timers s.
Proof.
  rewrite transfer_without_writers. unfold transfer. intros H.
  apply (prisma_transaction_rollback (without_writers E)) in H;
    [|apply respects_transfer_unit].
  destruct H as (_ & Hb & Ht & He).
  apply env_steps_quiet in He; [auto|reflexivity].
Qed.

Lemma transfer_commit E from to amount u d s r s' :
  transfer E from to amount u d s = (Ok r, s') ->
  committed_transfer E from to amount s s'.
Proof.
  intros H. apply prisma_transaction_commit in H as (s1 & H & ->).
  unfold transfer_unit in H.
  apply bind_ok_inv in H as (x0 & s0 & Hlock & H).
  inversion Hlock; subst; clear Hlock.
  apply bind_ok_inv in H as (ofw & sa & Hfind & H).
  unfold tx_wallet_findUnique in Hfind; inversion Hfind; subst; clear Hfind.
  apply bind_ok_inv in H as (otw & sb & Hfind & H).
  unfold tx_wallet_findUnique in Hfind; inversion Hfind; subst; clear Hfind.
  cbn [txv begin_state] in H.
  destruct (soft_delete_filter E (wallets (main s) !! from)) as [fw|] eqn:Hf;
    [|unfold throw in H; discriminate].
  destruct (soft_delete_filter E (wallets (main s) !! to)) as [tw|] eqn:Ht;
    [|unfold throw in H; discriminate].
  apply soft_delete_filter_Some in Hf, Ht.
  destruct (negb (w_currency fw =? w_currency tw)%string) eqn:Hc;
    [unfold throw in H; discriminate|].
  apply negb_false_iff, String.eqb_eq in Hc.
  cbv zeta in H.
  destruct (w_balance fw <? amount) eqn:Hb; [unfold throw in H; discriminate|].
  apply Z.ltb_ge in Hb.
  apply bind_ok_inv in H as (reference & sc & Href & H).
  unfold generateTransactionReference in Href; inversion Href; subst; clear Href.
  apply bind_ok_inv in H as (fw' & sd & Hupd & H).
  apply tx_wallet_update_inv in Hupd as (fw0 & Hfw0 & -> & Htd & Hmd).
  cbn in Hfw0, Htd, Hmd. rewrite Hf in Hfw0. inversion Hfw0; subst fw0; clear Hfw0.
  apply bind_ok_inv in H as (out & se & Hout & H).
  apply tx_transaction_create_inv in Hout; cbn in Hout.
  destruct Hout as (_ & Hte & Hme & _ & Ho1 & Ho2 & Ho3 & Ho4 & Ho5 & Ho6).
  apply bind_ok_inv in H as (tw' & sf & Hupd & H).
  apply tx_wallet_update_inv in Hupd as (tw0 & Htw0 & -> & Htf & Hmf).
  apply bind_ok_inv in H as (inn & sg & Hinn & H).
  apply tx_transaction_create_inv in Hinn; cbn in Hinn.
  destruct Hinn as (_ & Htg & Hmg & _ & Hi1 & Hi2 & Hi3 & Hi4 & Hi5 & Hi6).
  apply bind_ok_inv in H as (uf & sh & Hfind & H).
  unfold tx_wallet_findUnique in Hfind; inversion Hfind; subst; clear Hfind.
  apply bind_ok_inv in H as (ut & si & Hfind & H).
  unfold tx_wallet_findUnique in Hfind; inversion Hfind; subst; clear Hfind.
  inversion H; subst; clear H.
  rewrite Hte, Htd in Htw0. cbn in Htw0.
  exists fw, tw, tw0, ("TXN-" +:+ timestamp36 E (tick s) +:+ "-" +:+ randomHex E (tick s)),
    out, inn, (now E (S (tick s))), (now E (tick se)).
  cbn [main set_main]. rewrite Htg, Htf, Hte, Htd. cbn.
  rewrite <- app_assoc. cbn.
  repeat split; auto.
Qed.

Lemma bind_throw_inv {A B} (c : M A) (k : A -> M B) s e s' :
  bind c k s = (Throw e, s') ->
  c s = (Throw e, s') \/ exists a s1, c s = (Ok a, s1) /\ k a s1 = (Throw e, s').
Proof.
  unfold bind. destruct (c s) as [[a|e0] s1]; [eauto|].
  intros H; inversion H; subst. auto.
Qed.

Lemma tx_wallet_update_throws E id delta s e s' :
  tx_wallet_update E id delta s = (Throw e, s') ->
  e = PrismaClientKnownRequestError "P2025".
Proof.
  unfold tx_wallet_update. destruct (wallets (txv s) !! id); [discriminate|].
  intros H; inversion H; reflexivity.
Qed.

Lemma tx_transaction_create_throws E dto s e s' :
  tx_transaction_create E dto s = (Throw e, s') ->
  e = PrismaClientKnownRequestError "P2002"
  /\ reference_taken (ct_reference dto) (txv s) = true /\ s' = s.
Proof.
  unfold tx_transaction_create.
  destruct (reference_taken (ct_reference dto) (txv s)); [|discriminate].
  intros H; inversion H; auto.
Qed.

Lemma AuditService_log_throws E dto s e s' :
  AuditService_log E dto s = (Throw e, s') -> exists msg, e = DriverError msg.
Proof.
  intros H. apply AuditService_log_inv in H as (_ & _ & msg & _ & -> & _). eauto.
Qed.

(** A transfer of no more than the balance of the source is never refused
    for insufficient funds. *)
Lemma transfer_passes_check E from to amount u d s fw :
  wallets (main s) !! from = Some fw ->
  amount <= w_balance fw ->
  forall s', transfer E from to amount u d s
             <> (Throw (BadRequestException "Insufficient funds"), s').
Proof.
  intros Hf Hb s' H.
  assert (Hlt : (w_balance fw <? amount) = false) by (apply Z.ltb_ge; lia).
  unfold transfer, prisma_transaction in H.
  destruct (transfer_unit E from to amount u d _) as [[r|e] s1] eqn:Hu;
    inversion H; subst; clear H.
  unfold transfer_unit in Hu.
  apply bind_throw_inv in Hu as [Hu | (x0 & s0 & Hlock & Hu)]; [discriminate|].
  inversion Hlock; subst; clear Hlock.
  apply bind_throw_inv in Hu as [Hu | (ofw & sa & Hfind & Hu)]; [discriminate|].
  unfold tx_wallet_findUnique in Hfind; inversion Hfind; subst; clear Hfind.
  apply bind_throw_inv in Hu as [Hu | (otw & sb & Hfind & Hu)]; [discriminate|].
  unfold tx_wallet_findUnique in Hfind; inversion Hfind; subst; clear Hfind.
  cbn [txv] in Hu.
  destruct (soft_delete_filter E (wallets (main s) !! from)) as [fw'|] eqn:Hsf.
  2: { destruct (soft_delete_filter E (wallets (main s) !! to)); discriminate. }
  destruct (soft_delete_filter E (wallets (main s) !! to)) as [tw|]; [|discriminate].
  destruct (negb (w_currency fw' =? w_currency tw)%string); [discriminate|].
  apply soft_delete_filter_Some in Hsf.
  rewrite Hf in Hsf. inversion Hsf; subst fw'; clear Hsf.
  cbv zeta in Hu. rewrite Hlt in Hu.
  apply bind_throw_inv in Hu as [Hu | (reference & sc & _ & Hu)]; [discriminate|].
  apply bind_throw_inv in Hu as [Hu | (x1 & sd & _ & Hu)].
  { apply tx_wallet_update_throws in Hu. discriminate. }
  apply bind_throw_inv in Hu as [Hu | (x2 & se & _ & Hu)].
  { apply tx_transaction_create_throws in Hu as (Hu & _). discriminate. }
  apply bind_throw_inv in Hu as [Hu | (x3 & sf & _ & Hu)].
  { apply tx_wallet_update_throws in Hu. discriminate. }
  apply bind_throw_inv in Hu as [Hu | (x4 & sg & _ & Hu)].
  { apply tx_transaction_create_throws in Hu as (Hu & _). discriminate. }
  apply bind_throw_inv in Hu as [Hu | (x5 & sh & _ & Hu)]; [discriminate|].
  apply bind_throw_inv in Hu as [Hu | (x6 & si & _ & Hu)]; discriminate.
Qed.

(** C5.  [transfer] is all or nothing.  A transfer that throws leaves the
    committed wallets and ledger as they were; it throws the not-found error
    when a wallet is missing, the cross-currency error when the currencies
    differ, and the insufficient-funds error when the source holds less than
    the amount.  A transfer that returns has debited the source, credited
    the destination and appended exactly two ledger entries, a DEBIT whose
    reference ends in -OUT and a CREDIT whose reference ends in -IN, on the
    same generated stem. *)
Theorem transfer_atomic :
  forall (E : Env) (from to : string) (amount : Z) (u : string) (d : option string)
         (s : World),
    (forall e s', transfer E from to amount u d s = (Throw e, s') -> main s' = main s)
    /\ (soft_delete_filter E (wallets (main s) !! from) = None
        \/ soft_delete_filter E (wallets (main s) !! to) = None ->
        exists s',
          transfer E from to amount u d s
          = (Throw (NotFoundException "One or both wallets not found"), s')
          /\ main s' = main s)
    /\ (forall fw tw,
          soft_delete_filter E (wallets (main s) !! from) = Some fw ->
          soft_delete_filter E (wallets (main s) !! to) = Some tw ->
          w_currency fw <> w_currency tw ->
          exists s',
            transfer E from to amount u d s
            = (Throw (BadRequestException
                        "Cross-currency transfers require conversion (not implemented)"),
               s')
            /\ main s' = main s)
    /\ (forall fw tw,
          soft_delete_filter E (wallets (main s) !! from) = Some fw ->
          soft_delete_filter E (wallets (main s) !! to) = Some tw ->
          w_currency fw = w_currency tw ->
          w_balance fw < amount ->
          exists s',
            transfer E from to amount u d s
            = (Throw (BadRequestException "Insufficient funds"), s')
            /\ main s' = main s)
    /\ (forall r s',
          transfer E from to amount u d s = (Ok r, s') ->
          committed_transfer E from to amount s s').
Proof.
  intros E from to amount u d s. split; [|split; [|split; [|split]]].
  - intros e s' H. apply transfer_rollback in H. tauto.
  - intros Hmiss. exists (begin_state s). split; [|reflexivity].
    unfold transfer, prisma_transaction, transfer_unit, bind, tx_queryRaw_for_update,
      tx_wallet_findUnique, ret.
    cbn [txv main]. fold (begin_state s).
    destruct Hmiss as [Hm|Hm]; rewrite Hm.
    + destruct (soft_delete_filter E (wallets (main s) !! to)); reflexivity.
    + destruct (soft_delete_filter E (wallets (main s) !! from)); reflexivity.
  - intros fw tw Hf Ht Hc. exists (begin_state s). split; [|reflexivity].
    unfold transfer, prisma_transaction, transfer_unit, bind, tx_queryRaw_for_update,
      tx_wallet_findUnique, ret.
    cbn [txv main]. fold (begin_state s). rewrite Hf, Ht.
    apply String.eqb_neq in Hc. rewrite Hc. reflexivity.
  - intros fw tw Hf Ht Hc Hb. exists (begin_state s). split; [|reflexivity].
    unfold transfer, prisma_transaction, transfer_unit, bind, tx_queryRaw_for_update,
      tx_wallet_findUnique, ret.
    cbn [txv main]. fold (begin_state s). rewrite Hf, Ht.
    apply String.eqb_eq in Hc. rewrite Hc.
    apply Z.ltb_lt in Hb. cbv zeta. rewrite Hb. reflexivity.
  - intros r s' H. eapply transfer_commit. exact H.
Qed.

(** An attempt of [withdraw] on an active row that holds at least the amount
    is not refused: whatever it throws is not a bad request. *)
Lemma withdraw_attempt_passes_check E id dto u ip ua s w :
  wallets (main s) !! id = Some w -> w_deletedAt w = None ->
  wd_amount dto <= w_balance w ->
  forall msg s',
    prisma_transaction (withdraw_unit E id dto u ip ua) s
    <> (Throw (BadRequestException msg), s').
Proof.
  intros Hw Hdel Hfunds msg s' H.
  assert (Hlt : (w_balance w - wd_amount dto <? 0) = false) by (apply Z.ltb_ge; lia).
  unfold prisma_transaction in H.
  destruct (withdraw_unit E id dto u ip ua _) as [[r|e] s1] eqn:Hu;
    inversion H; subst; clear H.
  unfold withdraw_unit in Hu.
  apply bind_throw_inv in Hu as [Hu | (ow & sa & Hfind & Hu)]; [discriminate|].
  unfold tx_wallet_findUnique in Hfind; inversion Hfind; subst; clear Hfind.
  cbn [txv] in Hu.
  rewrite Hw, (soft_delete_filter_active E w Hdel), Hdel in Hu.
  cbv zeta in Hu. rewrite Hlt in Hu.
  apply bind_throw_inv in Hu as [Hu | (t & sb & _ & Hu)]; [discriminate|].
  apply bind_throw_inv in Hu as [Hu | (count & sc & _ & Hu)].
  { unfold tx_wallet_updateMany in Hu.
    apply bind_throw_inv in Hu as [Hu | (x & sx & _ & Hu)]; [discriminate|].
    destruct (wallets (txv sx) !! id) as [w1|];
      [destruct (w_version w1 =? w_version w)|]; discriminate. }
  destruct (count =? 0)%nat; [discriminate|].
  apply bind_throw_inv in Hu as [Hu | (reference & sd & _ & Hu)].
  { destruct (truthy (wd_reference dto)); discriminate. }
  apply bind_throw_inv in Hu as [Hu | (x2 & se & _ & Hu)].
  { apply tx_transaction_create_throws in Hu as (Hu & _). discriminate. }
  apply bind_throw_inv in Hu as [Hu | (x3 & sf & _ & Hu)]; [discriminate|].
  apply bind_throw_inv in Hu as [Hu | (x4 & sg & _ & Hu)].
  { apply AuditService_log_throws in Hu as (m & Hu). discriminate. }
  discriminate.
Qed.

(** C10.  On an active wallet holding [b > 0], without concurrent writers
    and with a new reference, [withdraw] of exactly [b] returns the wallet
    with balance 0 at the next version; the attempt of a [withdraw] of no
    more than the balance is never refused, whatever the environment; and
    [transfer] of exactly [b] from that wallet is never refused for
    insufficient funds. *)
Theorem full_balance_debit :
  forall (E : Env) (id : string) (dto : WithdrawWalletDto) (u : string)
         (ip ua : option string) (s : World) (w : Wallet),
    calm E ->
    (forall n, reference_taken (reference_for E (wd_reference dto) n) (main s) = false) ->
    wallets (main s) !! id = Some w ->
    w_deletedAt w = None ->
    0 < w_balance w ->
    wd_amount dto = w_balance w ->
    (exists w' s',
        withdraw E id dto u ip ua s = (Ok (Some w'), s')
        /\ w_balance w' = 0 /\ w_version w' = w_version w + 1
        /\ wallets (main s') !! id = Some w')
    /\ (forall E0 dto0 s0 w0 msg s1,
          wallets (main s0) !! id = Some w0 -> w_deletedAt w0 = None ->
          wd_amount dto0 <= w_balance w0 ->
          prisma_transaction (withdraw_unit E0 id dto0 u ip ua) s0
          <> (Throw (BadRequestException msg), s1))
    /\ (forall E0 to u0 d s',
          transfer E0 id to (w_balance w) u0 d s
          <> (Throw (BadRequestException "Insufficient funds"), s')).
Proof.
  intros E id dto u ip ua s w Hcalm Href Hw Hdel Hpos Hall. split; [|split].
  - destruct (withdraw_calm E id dto u ip ua s w Hcalm Href Hw Hdel) as
      (s' & r & Hrun & Hws & _); [lia|].
    eexists. exists s'. split; [exact Hrun|].
    rewrite Hws, lookup_insert_eq. cbn. repeat split. lia.
  - intros E0 dto0 s0 w0 msg s1 Hw0 Hdel0 Hle.
    eapply withdraw_attempt_passes_check; eassumption.
  - intros E0 to u0 d s'.
    eapply transfer_passes_check; [exact Hw|lia].
Qed.

(** ** C4: a reference that is already in the ledger *)

Lemma attempt_rollback E id m u ip ua s e s' :
  attempt E id m u ip ua s = (Throw e, s') ->
  begun s' = S (begun s) /\ timers s' = timers s /\ env_steps E (main s) (main s').
Proof.
  intros H. destruct m as [dto|dto]; cbn [attempt] in H.
  - apply (prisma_transaction_rollback E) in H; [tauto|apply respects_fund_unit].
  - apply (prisma_transaction_rollback E) in H; [tauto|apply respects_withdraw_unit].
Qed.

(** An attempt with a reference that is already in the ledger its write
    works on does not commit. *)
Lemma attempt_duplicate_reference E id m u ip ua s ref :
  truthy (reference_of m) = Some ref ->
  reference_taken ref (seen E s) = true ->
  forall r s', attempt E id m u ip ua s <> (Ok r, s').
Proof.
  intros Href Htaken r s' H. destruct m as [dto|dto]; cbn [attempt reference_of] in *.
  - apply fund_attempt_commit in H as (w & w1 & t & rec & H).
    destruct H as (_ & _ & _ & _ & _ & _ & Hfresh & _ & _ & _ & _ & _ & n & Hn).
    unfold reference_for in Hn. rewrite Href in Hn. congruence.
  - apply withdraw_attempt_commit in H as (w & (w1 & t & rec & H) & _).
    destruct H as (_ & _ & _ & _ & _ & _ & Hfresh & _ & _ & _ & _ & _ & n & Hn).
    unfold reference_for in Hn. rewrite Href in Hn. congruence.
Qed.

Lemma env_steps_append_only E ref t t' :
  append_only E ref -> env_steps E t t' ->
  reference_taken ref t = true -> reference_taken ref t' = true.
Proof. intros Ha H Ht. induction H; [assumption|]. apply Ha. auto. Qed.

(** The wrapper never returns when no run of the operation does, on the
    states that satisfy an invariant the runs and the waits preserve. *)
Lemma retry_loop_never_ok {T} (operation : M T) (P : World -> Prop) :
  (forall s r s', P s -> operation s = (r, s') -> (exists e, r = Throw e) /\ P s') ->
  (forall retries attempt s, P s -> P (backoff_state retries attempt s)) ->
  forall retries fuel attempt s r s',
    P s -> retry_loop operation retries attempt fuel s = (r, s') ->
    exists e, r = Throw e.
Proof.
  intros Hop Hback retries fuel.
  induction fuel as [|fuel IH]; intros attempt s r s' HP H.
  - rewrite retry_loop_exhausted in H. inversion H; subst. eauto.
  - rewrite retry_loop_step in H.
    destruct (operation s) as [[v0|e0] s1] eqn:Hrun.
    + destruct (Hop _ _ _ HP Hrun) as ((e & He) & _). discriminate.
    + destruct (Hop _ _ _ HP Hrun) as (_ & HP1).
      destruct (is_concurrent_modification e0).
      * eapply IH; [|exact H]. apply Hback. exact HP1.
      * inversion H; subst. eauto.
Qed.

Lemma mutate_rollback E id m u ip ua s e s' :
  mutate E id m u ip ua s = (Throw e, s') -> env_steps E (main s) (main s').
Proof.
  rewrite mutate_unfold. unfold executeWithRetry.
  apply retry_loop_env_steps. intros s0 e0 s0' H0.
  apply attempt_rollback in H0. tauto.
Qed.

Lemma mutate_duplicate_reference E id m u ip ua s ref :
  truthy (reference_of m) = Some ref ->
  append_only E ref ->
  reference_taken ref (main s) = true ->
  exists e s', mutate E id m u ip ua s = (Throw e, s')
               /\ env_steps E (main s) (main s').
Proof.
  intros Href Happ Htaken.
  destruct (mutate E id m u ip ua s) as [r s'] eqn:H.
  assert (Hthrow : exists e, r = Throw e).
  { rewrite mutate_unfold in H. unfold executeWithRetry in H.
    eapply (retry_loop_never_ok _ (fun x => reference_taken ref (main x) = true));
      [| |exact Htaken|exact H].
    - intros s0 r0 s0' HP H0. destruct r0 as [v|e0].
      + exfalso. eapply attempt_duplicate_reference; [exact Href| |exact H0].
        unfold seen. apply Happ. exact HP.
      + split; [eauto|]. apply attempt_rollback in H0 as (_ & _ & He).
        eapply env_steps_append_only; eassumption.
    - intros retries attempt0 s0 HP. exact HP. }
  destruct Hthrow as (e & ->). exists e, s'. split; [reflexivity|].
  eapply mutate_rollback. exact H.
Qed.

(** Without concurrent writers, on an active wallet with enough funds, the
    attempt reaches the ledger insert and fails there. *)
Lemma mutate_duplicate_reference_calm E id m u ip ua s ref w :
  (forall n t, concurrent E n t = t) ->
  truthy (reference_of m) = Some ref ->
  reference_taken ref (main s) = true ->
  wallets (main s) !! id = Some w -> w_deletedAt w = None -> sufficient m w ->
  exists s',
    mutate E id m u ip ua s = (Throw (PrismaClientKnownRequestError "P2002"), s')
    /\ main s' = main s /\ auditLogs s' = auditLogs s /\ timers s' = timers s
    /\ begun s' = S (begun s).
Proof.
  intros Hq Href Htaken Hw Hdel Hsuff.
  rewrite mutate_unfold. unfold executeWithRetry, MAX_RETRIES. rewrite retry_loop_step.
  destruct m as [dto|dto]; cbn [attempt reference_of sufficient] in *.
  - unfold prisma_transaction, fund_unit, bind, tx_wallet_findUnique, new_Date,
      tx_wallet_updateMany, bind, absorb_concurrent, TransactionsService_create,
      tx_transaction_create.
    cbn [txv main]. rewrite Hw, (soft_delete_filter_active E w Hdel), Hdel.
    cbn. rewrite !Hq, Hw, Z.eqb_refl. cbn. rewrite Href. cbn.
    unfold reference_taken in *. cbn. rewrite Htaken. cbn.
    eexists. repeat split.
  - assert (Hlt : (w_balance w - wd_amount dto <? 0) = false) by (apply Z.ltb_ge; lia).
    unfold prisma_transaction, withdraw_unit, bind, tx_wallet_findUnique, new_Date,
      tx_wallet_updateMany, bind, absorb_concurrent, TransactionsService_create,
      tx_transaction_create.
    cbn [txv main]. rewrite Hw, (soft_delete_filter_active E w Hdel), Hdel.
    cbv zeta. rewrite Hlt.
    cbn. rewrite !Hq, Hw, Z.eqb_refl. cbn. rewrite Href. cbn.
    unfold reference_taken in *. cbn. rewrite Htaken. cbn.
    eexists. repeat split.
Qed.

(** ** C7: a failing audit table *)

Lemma mutate_audit_failure E id m u ip ua s w msg :
  (forall n t, concurrent E n t = t) ->
  (forall n, auditFailure E n = Some msg) ->
  (forall n, reference_taken (reference_for E (reference_of m) n) (main s) = false) ->
  wallets (main s) !! id = Some w -> w_deletedAt w = None -> sufficient m w ->
  exists s',
    mutate E id m u ip ua s = (Throw (DriverError msg), s')
    /\ main s' = main s /\ auditLogs s' = auditLogs s
    /\ In (LError, "Failed to create audit log") (logger s').
Proof.
  intros Hq Ha Href Hw Hdel Hsuff.
  rewrite mutate_unfold. unfold executeWithRetry, MAX_RETRIES. rewrite retry_loop_step.
  destruct m as [dto|dto]; cbn [attempt reference_of sufficient] in *.
  - unfold prisma_transaction, fund_unit, bind, tx_wallet_findUnique, new_Date,
      tx_wallet_updateMany, bind, absorb_concurrent, TransactionsService_create,
      tx_transaction_create, AuditService_log, try_catch, bind, prisma_auditLog_create.
    cbn [txv main]. rewrite Hw, (soft_delete_filter_active E w Hdel), Hdel.
    cbn. rewrite !Hq, Hw, Z.eqb_refl. cbn.
    unfold reference_taken, reference_for in Href. unfold reference_taken.
    destruct (truthy (f_reference dto)) as [ref|] eqn:Hr; cbn.
    + rewrite (Href 0%nat). cbn. rewrite Ha. cbn.
      eexists. repeat split. apply in_or_app. right. left. reflexivity.
    + rewrite (Href (S (S (tick s)))). cbn. rewrite Ha. cbn.
      eexists. repeat split. apply in_or_app. right. left. reflexivity.
  - assert (Hlt : (w_balance w - wd_amount dto <? 0) = false) by (apply Z.ltb_ge; lia).
    unfold prisma_transaction, withdraw_unit, bind, tx_wallet_findUnique, new_Date,
      tx_wallet_updateMany, bind, absorb_concurrent, TransactionsService_create,
      tx_transaction_create, AuditService_log, try_catch, bind, prisma_auditLog_create.
    cbn [txv main]. rewrite Hw, (soft_delete_filter_active E w Hdel), Hdel.
    cbv zeta. rewrite Hlt.
    cbn. rewrite !Hq, Hw, Z.eqb_refl. cbn.
    unfold reference_taken, reference_for in Href. unfold reference_taken.
    destruct (truthy (wd_reference dto)) as [ref|] eqn:Hr; cbn.
    + rewrite (Href 0%nat). cbn. rewrite Ha. cbn.
      eexists. repeat split. apply in_or_app. right. left. reflexivity.
    + rewrite (Href (S (S (tick s)))). cbn. rewrite Ha. cbn.
      eexists. repeat split. apply in_or_app. right. left. reflexivity.
Qed.

Lemma create_audit_failure E userId dto ip ua s msg :
  (forall n, auditFailure E n = Some msg) ->
  (String.length (toUpperCase (c_currency dto)) <=? 3)%nat = true ->
  wallets (main s) !! uuid E (tick s) = None ->
  triple_taken userId (c_name dto) (toUpperCase (c_currency dto)) (main s) = false ->
  exists s',
    create E userId dto ip ua s = (Throw (DriverError msg), s')
    /\ wallets (main s')
       = <[uuid E (tick s) := created E userId dto s]> (wallets (main s))
    /\ In (LError, "Failed to create audit log") (logger s').
Proof.
  intros Ha Hfit Hid Htriple.
  unfold create, bind, prisma_wallet_create, AuditService_log, try_catch, bind,
    prisma_auditLog_create.
  rewrite Hfit, Hid, Htriple. cbn. rewrite Ha. cbn.
  eexists. repeat split. apply in_or_app. right. left. reflexivity.
Qed.

Lemma delete_audit_failure E id userId ip ua s w msg :
  (forall n, auditFailure E n = Some msg) ->
  soft_delete_filter E (wallets (main s) !! id) = Some w ->
  w_userId w = userId ->
  exists s',
    delete_wallet E id userId ip ua s = (Throw (DriverError msg), s')
    /\ wallets (main s') !! id
       = (if softDeleteMiddleware E
          then Some (mkWallet (w_id w) (w_name w) (w_currency w) (w_balance w)
                              (w_version w) (w_userId w) (w_createdAt w)
                              (now E (tick s)) (Some (now E (tick s))))
          else None)
    /\ In (LError, "Failed to create audit log") (logger s').
Proof.
  intros Ha Hw Hown.
  unfold delete_wallet, findByIdOrFail, findById, prisma_wallet_findUnique, bind,
    prisma_wallet_delete, AuditService_log, try_catch, bind, prisma_auditLog_create.
  rewrite Hw. cbn. apply String.eqb_eq in Hown. rewrite Hown. cbn.
  apply soft_delete_filter_Some in Hw. rewrite Hw.
  destruct (softDeleteMiddleware E); cbn; rewrite Ha; cbn.
  - eexists. repeat split.
    + apply lookup_insert_eq.
    + apply in_or_app. right. left. reflexivity.
  - eexists. repeat split.
    + apply lookup_delete_eq.
    + apply in_or_app. right. left. reflexivity.
Qed.

(** C7 (amended).  When the audit table fails, [AuditService.log] logs the
    failure and throws it again, and every operation that called it fails
    with that error.  [fund] and [withdraw] call it inside their atomic
    unit: the balance, the version and the ledger are rolled back.  [create]
    and [delete] call it after their write: the new row, or the deletion,
    stays, but the operation does not return. *)
Theorem audit_failure_propagates :
  forall (E : Env) (msg : string),
    (forall n, auditFailure E n = Some msg) ->
    (forall id m u ip ua s w,
        (forall n t, concurrent E n t = t) ->
        (forall n, reference_taken (reference_for E (reference_of m) n) (main s)
                   = false) ->
        wallets (main s) !! id = Some w -> w_deletedAt w = None -> sufficient m w ->
        exists s',
          mutate E id m u ip ua s = (Throw (DriverError msg), s')
          /\ main s' = main s
          /\ In (LError, "Failed to create audit log") (logger s'))
    /\ (forall userId dto ip ua s,
          (String.length (toUpperCase (c_currency dto)) <=? 3)%nat = true ->
          wallets (main s) !! uuid E (tick s) = None ->
          triple_taken userId (c_name dto) (toUpperCase (c_currency dto)) (main s)
          = false ->
          exists s',
            create E userId dto ip ua s = (Throw (DriverError msg), s')
            /\ wallets (main s') !! uuid E (tick s) = Some (created E userId dto s)
            /\ In (LError, "Failed to create audit log") (logger s'))
    /\ (forall id userId ip ua s w,
          soft_delete_filter E (wallets (main s) !! id) = Some w ->
          w_userId w = userId ->
          exists s',
            delete_wallet E id userId ip ua s = (Throw (DriverError msg), s')
            /\ wallets (main s') !! id <> wallets (main s) !! id
            /\ In (LError, "Failed to create audit log") (logger s')).
Proof.
  intros E msg Ha. split; [|split].
  - intros id m u ip ua s w Hq Href Hw Hdel Hsuff.
    destruct (mutate_audit_failure E id m u ip ua s w msg Hq Ha Href Hw Hdel Hsuff)
      as (s' & H & Hm & _ & Hl).
    exists s'. auto.
  - intros userId dto ip ua s Hfit Hid Htriple.
    destruct (create_audit_failure E userId dto ip ua s msg Ha Hfit Hid Htriple)
      as (s' & H & Hws & Hl).
    exists s'. rewrite Hws, lookup_insert_eq. auto.
  - intros id userId ip ua s w Hw Hown.
    destruct (delete_audit_failure E id userId ip ua s w msg Ha Hw Hown)
      as (s' & H & Hrow & Hl).
    exists s'. repeat split; auto.
    rewrite Hrow. pose proof Hw as Hw'. apply soft_delete_filter_Some in Hw'.
    rewrite Hw'. unfold soft_delete_filter in Hw. rewrite Hw' in Hw.
    destruct (softDeleteMiddleware E); [|discriminate].
    destruct (w_deletedAt w) eqn:Hd; [discriminate|].
    intros Heq. inversion Heq as [Hrec]. rewrite <- Hrec in Hd. discriminate.
Qed.

(** ** C8: the currency of a new wallet *)

(** What [create] returns is a wallet of the caller with balance 0 at
    version 0. *)
Lemma create_returns_empty_wallet E userId dto ip ua s w s' :
  create E userId dto ip ua s = (Ok w, s') ->
  w_balance w = 0 /\ w_version w = 0 /\ w_userId w = userId
  /\ w_currency w = toUpperCase (c_currency dto) /\ w_deletedAt w = None.
Proof.
  intros H. unfold create in H.
  apply bind_ok_inv in H as (w0 & s1 & Hc & H).
  apply bind_ok_inv in H as (al & s2 & _ & H).
  inversion H; subst; clear H.
  unfold prisma_wallet_create in Hc.
  destruct (negb _); [discriminate|].
  destruct (wallets (main s) !! uuid E (tick s)); [discriminate|].
  destruct (triple_taken _ _ _ _); [discriminate|].
  inversion Hc; subst. cbn. auto.
Qed.

(** The validation of the body accepts exactly the names of 1 to 100
    characters with a currency made of three capital letters. *)
Lemma validate_CreateWalletDto_shape dto :
  validate_CreateWalletDto dto = true ->
  matches_AZ3 (c_currency dto) = true.
Proof.
  unfold validate_CreateWalletDto. intros H.
  apply andb_true_iff in H as (_ & H). exact H.
Qed.

(** C8.  POST /wallets with the currency XYZ, which is not in
    [SUPPORTED_CURRENCIES], passes the validation and creates the wallet:
    no invalid-currency error is raised. *)
Theorem unrecognized_currency_accepted :
  existsb (String.eqb "XYZ") SUPPORTED_CURRENCIES = false
  /\ validate_CreateWalletDto (mkCreateWalletDto "Holiday" "XYZ") = true
  /\ exists w s',
       post_wallets (example_env false) "alice" (mkCreateWalletDto "Holiday" "XYZ")
                    None None example_world
       = (Ok w, s')
       /\ w_currency w = "XYZ" /\ w_balance w = 0 /\ w_version w = 0
       /\ w_userId w = "alice"
       /\ wallets (main s') !! w_id w = Some w.
Proof.
  split; [reflexivity|]. split; [reflexivity|].
  eexists. eexists. split; [vm_compute; reflexivity|].
  repeat split; vm_compute; reflexivity.
Qed.

(** ** C9: deleting a wallet *)

(** With the soft-delete middleware installed, [delete] only sets the
    marker: balance, version and ledger stay. *)
Lemma delete_with_middleware E id userId ip ua s w :
  softDeleteMiddleware E = true ->
  auditFailure E (S (tick s)) = None ->
  wallets (main s) !! id = Some w -> w_deletedAt w = None ->
  w_userId w = userId ->
  exists s' w',
    delete_wallet E id userId ip ua s = (Ok tt, s')
    /\ wallets (main s') = <[id := w']> (wallets (main s))
    /\ transactions (main s') = transactions (main s)
    /\ w_balance w' = w_balance w /\ w_version w' = w_version w
    /\ w_deletedAt w' = Some (now E (tick s)).
Proof.
  intros Hmw Ha Hw Hdel Hown.
  unfold delete_wallet, findByIdOrFail, findById, prisma_wallet_findUnique, bind,
    prisma_wallet_delete, AuditService_log, try_catch, bind, prisma_auditLog_create.
  rewrite Hw, (soft_delete_filter_active E w Hdel). cbn.
  apply String.eqb_eq in Hown. rewrite Hown. cbn. rewrite Hw, Hmw. cbn.
  rewrite Ha. cbn. do 2 eexists. split; [reflexivity|]. repeat split.
Qed.

(** A wallet of somebody else is reported as not found, and nothing changes. *)
Lemma delete_not_owner E id userId ip ua s w :
  soft_delete_filter E (wallets (main s) !! id) = Some w ->
  w_userId w <> userId ->
  delete_wallet E id userId ip ua s = (Throw (NotFoundException "Wallet not found"), s).
Proof.
  intros Hw Hown.
  unfold delete_wallet, findByIdOrFail, findById, prisma_wallet_findUnique, bind.
  rewrite Hw. cbn. apply String.eqb_neq in Hown. rewrite Hown. reflexivity.
Qed.

(** C9.  With the [PrismaService] that installs no middleware, [delete] by
    the owner removes the wallet row, and the ledger entries of the wallet
    go with it. *)
Theorem delete_removes_row_and_ledger :
  wallets (main example_world) !! "wallet-a" = Some alice_wallet
  /\ transactions (main example_world) = [alice_funding]
  /\ exists s',
       delete_wallet (example_env false) "wallet-a" "alice" None None example_world
       = (Ok tt, s')
       /\ wallets (main s') !! "wallet-a" = None
       /\ transactions (main s') = [].
Proof.
  split; [reflexivity|]. split; [reflexivity|].
  eexists. split; [vm_compute; reflexivity|].
  split; vm_compute; reflexivity.
Qed.

(** ** C6: the amounts in the ledger *)


(** The entry a fund, a withdraw or a transfer appends satisfies the balance
    equation of its direction, on the balance its unit read. *)
Lemma ledger_entry_equations E id m u ip ua s r s' :
  attempt E id m u ip ua s = (Ok r, s') ->
  exists w rec,
    wallets (main s) !! id = Some w
    /\ transactions (main s') = (transactions (seen E s) ++ [rec])%list
    /\ t_balanceBefore rec = w_balance w
    /\ match m with
       | inl dto => t_type rec = CREDIT /\ t_amount rec = f_amount dto
                    /\ t_balanceAfter rec = t_balanceBefore rec + t_amount rec
       | inr dto => t_type rec = DEBIT /\ t_amount rec = wd_amount dto
                    /\ t_balanceAfter rec = t_balanceBefore rec - t_amount rec
       end.
Proof.
  intros H. destruct m as [dto|dto]; cbn [attempt] in H.
  - apply fund_attempt_commit in H as (w & w1 & t & rec & H).
    destruct H as (Hw & _ & _ & _ & _ & Hts & _ & _ & Hty & Ham & Hbb & Hba & _).
    exists w, rec. repeat split; auto. lia.
  - apply withdraw_attempt_commit in H as (w & (w1 & t & rec & H) & _).
    destruct H as (Hw & _ & _ & _ & _ & Hts & _ & _ & Hty & Ham & Hbb & Hba & _).
    exists w, rec. repeat split; auto. lia.
Qed.


(** ** Two runs from creation on *)

(** Create a USD wallet, fund 1000.50, withdraw 100.00, then try to
    withdraw 1000.00: balance 900.50 at version 2, one CREDIT and one DEBIT
    entry, and the last call refused. *)
Example ledger_scenario :
  let E := example_env false in
  let s0 := mkWorld (mkTables ∅ []) (mkTables ∅ []) [] [] [] 0 0 in
  let '(r1, s1) := create E "alice" (mkCreateWalletDto "Main" "USD") None None s0 in
  let '(r2, s2) := fund E "id-0" (mkFundWalletDto 10005000 None None None)
                        "alice" None None s1 in
  let '(r3, s3) := withdraw E "id-0" (mkWithdrawWalletDto 1000000 None None None)
                            "alice" None None s2 in
  let '(r4, s4) := withdraw E "id-0" (mkWithdrawWalletDto 10000000 None None None)
                            "alice" None None s3 in
  (match r1 with Ok w => (w_balance w, w_version w) | Throw _ => (-1, -1) end,
   match r2 with Ok (Some w) => (w_balance w, w_version w) | _ => (-1, -1) end,
   match r3 with Ok (Some w) => (w_balance w, w_version w) | _ => (-1, -1) end,
   r4,
   List.map (fun t => (t_type t, t_amount t, t_balanceBefore t, t_balanceAfter t))
            (transactions (main s4)),
   row_version (main s4) "id-0")
  = ((0, 0), (10005000, 1), (9005000, 2),
     Throw (BadRequestException "Insufficient funds. Available balance: 900.5 USD"),
     [(CREDIT, 10005000, 0, 10005000); (DEBIT, 1000000, 10005000, 9005000)],
     Some 2).
Proof. vm_compute. reflexivity. Qed.

(** Transfer 250.00 from Alice (1000.50) to Bob (2000.00). *)
Example transfer_scenario :
  let '(r, s') := transfer (example_env false) "wallet-a" "wallet-b" 2500000 "alice"
                           None example_world in
  (match r with
   | Ok (Some a, Some b) => (w_balance a, w_balance b)
   | _ => (-1, -1)
   end,
   List.map (fun t => (t_type t, t_reference t)) (transactions (main s')))
  = ((7505000, 22500000),
     [(CREDIT, "FUND-001"); (DEBIT, "TXN-LZ9K2M0-0A1B2C3D-OUT");
      (CREDIT, "TXN-LZ9K2M0-0A1B2C3D-IN")]).
Proof. vm_compute. reflexivity. Qed.

(** ** Counterexamples to the claims as stated *)

(** C4 as stated fails: a second fund with the reference FUND-001, which is
    in the ledger, does not return the earlier result; it throws the
    unique-constraint error (and commits nothing). *)
Lemma duplicate_reference_is_an_error :
  reference_taken "FUND-001" (main example_world) = true
  /\ exists s',
       fund (example_env false) "wallet-a"
            (mkFundWalletDto 10005000 (Some "FUND-001") None None)
            "alice" None None example_world
       = (Throw DuplicateReference, s')
       /\ main s' = main example_world.
Proof.
  split; [reflexivity|].
  eexists. split; vm_compute; reflexivity.
Qed.

(** C7 as stated fails: with the audit table down, a fund of Alice's wallet
    does not return the updated wallet; it throws the audit error and the
    credit is rolled back. *)
Lemma audit_failure_fails_fund :
  exists s',
    fund audit_down_env "wallet-a"
         (mkFundWalletDto 5000000 (Some "FUND-002") None None)
         "alice" None None example_world
    = (Throw (DriverError "audit_logs: connection refused"), s')
    /\ main s' = main example_world.
Proof.
  eexists. split; vm_compute; reflexivity.
Qed.

(** ** The theorems at concrete inputs *)

Lemma withdraw_never_overdraws_witness :
  wallets (main example_world) !! "wallet-a" = Some alice_wallet
  /\ w_balance alice_wallet < 20000000
  /\ exists s',
       withdraw (example_env false) "wallet-a"
                (mkWithdrawWalletDto 20000000 None None None) "alice" None None
                example_world
       = (Throw (BadRequestException
                   "Insufficient funds. Available balance: 1000.5 USD"), s')
       /\ main s' = main example_world.
Proof.
  split; [reflexivity|]. split; [reflexivity|].
  destruct (withdraw_never_overdraws (example_env false) "wallet-a"
              (mkWithdrawWalletDto 20000000 None None None) "alice" None None
              example_world alice_wallet eq_refl eq_refl)
    as ((e & s' & Hrun & Hmain & _ & _ & _ & Herr) & _).
  exists s'. rewrite (Herr eq_refl) in Hrun. split; [exact Hrun|exact Hmain].
Defined.

Lemma optimistic_lock_versions_witness :
  (exists r s' sa w w1,
      fund (example_env false) "wallet-a" (mkFundWalletDto 10000 None None None)
           "alice" None None example_world = (Ok r, s')
      /\ attempt (example_env false) "wallet-a"
                 (inl (mkFundWalletDto 10000 None None None)) "alice" None None sa
         = (Ok r, s')
      /\ wallets (main sa) !! "wallet-a" = Some w
      /\ wallets (seen (example_env false) sa) !! "wallet-a" = Some w1
      /\ w_version w1 = w_version w
      /\ row_version (main s') "wallet-a" = Some (w_version w + 1))
  /\ (exists s',
        attempt racing_env "wallet-a" (inr (mkWithdrawWalletDto 10000 None None None))
                "alice" None None example_world
        = (Throw ConcurrentModification, s')
        /\ main s' = seen racing_env example_world)
  /\ (forall rb sb',
        attempt overtaken_env "wallet-a"
                (inr (mkWithdrawWalletDto 10000 None None None)) "alice" None None
                late_world
        <> (Ok rb, sb')).
Proof.
  split; [|split].
  - destruct (optimistic_lock_versions (example_env false) "wallet-a"
                (inl (mkFundWalletDto 10000 None None None)) "alice" None None)
      as (Hcommit & _ & _).
    destruct (fund (example_env false) "wallet-a" (mkFundWalletDto 10000 None None None)
                   "alice" None None example_world) as [r s'] eqn:Hrun.
    destruct r as [r|e]; [|vm_compute in Hrun; discriminate Hrun].
    destruct (Hcommit example_world r s' Hrun) as (sa & w & w1 & H).
    exists r, s', sa, w, w1. split; [reflexivity|]. exact H.
  - destruct (optimistic_lock_versions racing_env "wallet-a"
                (inr (mkWithdrawWalletDto 10000 None None None)) "alice" None None)
      as (_ & Hconflict & _).
    apply (Hconflict example_world alice_wallet); try reflexivity.
    + cbn. discriminate.
    + intros w1 Hw1. vm_compute in Hw1. inversion Hw1; subst. cbn. discriminate.
  - intros rb sb'.
    destruct (optimistic_lock_versions overtaken_env "wallet-a"
                (inl (mkFundWalletDto 10000 None None None)) "alice" None None)
      as (_ & _ & Hstale).
    destruct (attempt overtaken_env "wallet-a"
                      (inl (mkFundWalletDto 10000 None None None)) "alice" None None
                      example_world) as [ra sa'] eqn:Hrun.
    destruct ra as [ra|e]; [|vm_compute in Hrun; discriminate Hrun].
    apply (Hstale (inr (mkWithdrawWalletDto 10000 None None None)) "alice" None None
                  example_world ra sa' late_world rb sb' Hrun).
    + reflexivity.
    + vm_compute in Hrun. inversion Hrun; subst. vm_compute. reflexivity.
Defined.

Lemma transfer_atomic_witness :
  main (snd (transfer (example_env false) "wallet-a" "wallet-c" 2500000 "alice" None
                      example_world))
  = main example_world
  /\ (exists s',
      transfer (example_env false) "wallet-a" "wallet-x" 2500000 "alice" None
               example_world
      = (Throw (NotFoundException "One or both wallets not found"), s')
      /\ main s' = main example_world)
  /\ (exists s',
        transfer (example_env false) "wallet-a" "wallet-c" 2500000 "alice" None
                 example_world
        = (Throw (BadRequestException
                    "Cross-currency transfers require conversion (not implemented)"),
           s')
        /\ main s' = main example_world)
  /\ (exists s',
        transfer (example_env false) "wallet-a" "wallet-b" 99990000 "alice" None
                 example_world
        = (Throw (BadRequestException "Insufficient funds"), s')
        /\ main s' = main example_world)
  /\ committed_transfer (example_env false) "wallet-a" "wallet-b" 2500000
       example_world
       (snd (transfer (example_env false) "wallet-a" "wallet-b" 2500000 "alice" None
                      example_world)).
Proof.
  split; [|split; [|split; [|split]]].
  - destruct (transfer_atomic (example_env false) "wallet-a" "wallet-c" 2500000
                "alice" None example_world) as (Hthrow & _).
    destruct (transfer (example_env false) "wallet-a" "wallet-c" 2500000 "alice" None
                       example_world) as [r s'] eqn:Hrun.
    destruct r as [r|e]; [vm_compute in Hrun; discriminate Hrun|].
    exact (Hthrow e s' eq_refl).
  - destruct (transfer_atomic (example_env false) "wallet-a" "wallet-x" 2500000
                "alice" None example_world) as (_ & Hmissing & _).
    apply Hmissing. right. reflexivity.
  - destruct (transfer_atomic (example_env false) "wallet-a" "wallet-c" 2500000
                "alice" None example_world) as (_ & _ & Hcurrency & _).
    apply (Hcurrency alice_wallet carol_wallet); try reflexivity.
    cbn. discriminate.
  - destruct (transfer_atomic (example_env false) "wallet-a" "wallet-b" 99990000
                "alice" None example_world) as (_ & _ & _ & Hfunds & _).
    apply (Hfunds alice_wallet bob_wallet); reflexivity.
  - destruct (transfer_atomic (example_env false) "wallet-a" "wallet-b" 2500000
                "alice" None example_world) as (_ & _ & _ & _ & Hcommit).
    destruct (transfer (example_env false) "wallet-a" "wallet-b" 2500000 "alice" None
                       example_world) as [r s'] eqn:Hrun.
    destruct r as [r|e]; [|vm_compute in Hrun; discriminate Hrun].
    exact (Hcommit r s' eq_refl).
Defined.

Lemma audit_failure_propagates_witness :
  (forall n, auditFailure audit_down_env n = Some "audit_logs: connection refused")
  /\ (exists s',
        mutate audit_down_env "wallet-a"
               (inr (mkWithdrawWalletDto 1000000 (Some "WD-001") None None))
               "alice" None None example_world
        = (Throw (DriverError "audit_logs: connection refused"), s')
        /\ main s' = main example_world
        /\ In (LError, "Failed to create audit log") (logger s'))
  /\ (exists s',
        create audit_down_env "alice" (mkCreateWalletDto "Holiday" "GBP") None None
               example_world
        = (Throw (DriverError "audit_logs: connection refused"), s')
        /\ wallets (main s') !! uuid audit_down_env (tick example_world)
           = Some (created audit_down_env "alice" (mkCreateWalletDto "Holiday" "GBP")
                           example_world)
        /\ In (LError, "Failed to create audit log") (logger s'))
  /\ (exists s',
        delete_wallet audit_down_env "wallet-b" "bob" None None example_world
        = (Throw (DriverError "audit_logs: connection refused"), s')
        /\ wallets (main s') !! "wallet-b" <> wallets (main example_world) !! "wallet-b"
        /\ In (LError, "Failed to create audit log") (logger s')).
Proof.
  split; [intros n; reflexivity|].
  destruct (audit_failure_propagates audit_down_env "audit_logs: connection refused"
              (fun n => eq_refl)) as (Hmutate & Hcreate & Hdelete).
  split; [|split].
  - apply (Hmutate "wallet-a" (inr (mkWithdrawWalletDto 1000000 (Some "WD-001") None None))
                   "alice" None None example_world alice_wallet);
      try reflexivity.
    cbn. discriminate.
  - apply (Hcreate "alice" (mkCreateWalletDto "Holiday" "GBP") None None example_world);
      vm_compute; reflexivity.
  - apply (Hdelete "wallet-b" "bob" None None example_world bob_wallet); reflexivity.
Defined.

Lemma full_balance_debit_witness :
  calm (example_env false)
  /\ wallets (main example_world) !! "wallet-a" = Some alice_wallet
  /\ 0 < w_balance alice_wallet
  /\ (exists w' s',
        withdraw (example_env false) "wallet-a"
                 (mkWithdrawWalletDto 10005000 (Some "WD-001") None None)
                 "alice" None None example_world
        = (Ok (Some w'), s')
        /\ w_balance w' = 0 /\ w_version w' = w_version alice_wallet + 1
        /\ wallets (main s') !! "wallet-a" = Some w')
  /\ (forall msg s1,
        prisma_transaction
          (withdraw_unit racing_env "wallet-a"
                         (mkWithdrawWalletDto 10005000 None None None)
                         "alice" None None) example_world
        <> (Throw (BadRequestException msg), s1))
  /\ (forall s',
        transfer (example_env false) "wallet-a" "wallet-b" (w_balance alice_wallet)
                 "alice" None example_world
        <> (Throw (BadRequestException "Insufficient funds"), s')).
Proof.
  assert (Hcalm : calm (example_env false)).
  { split; intros; reflexivity. }
  split; [exact Hcalm|]. split; [reflexivity|]. split; [reflexivity|].
  destruct (full_balance_debit (example_env false) "wallet-a"
              (mkWithdrawWalletDto 10005000 (Some "WD-001") None None)
              "alice" None None example_world alice_wallet
              Hcalm (fun n => eq_refl) eq_refl eq_refl eq_refl eq_refl)
    as (Hwithdraw & Hattempt & Htransfer).
  split; [exact Hwithdraw|]. split.
  - intros msg s1.
    apply (Hattempt racing_env (mkWithdrawWalletDto 10005000 None None None)
                    example_world alice_wallet msg s1 eq_refl eq_refl).
    cbn. discriminate.
  - intros s'. apply (Htransfer (example_env false) "wallet-b" "alice" None s').
Defined.

(** * More properties *)

(** ** The ledger replays to the balances *)

Lemma reference_taken_In ref t :
  reference_taken ref t = true <-> In ref (List.map t_reference (transactions t)).
Proof.
  unfold reference_taken. rewrite existsb_exists, in_map_iff. split.
  - intros (r & Hin & Heq). apply String.eqb_eq in Heq. eauto.
  - intros (r & Heq & Hin). exists r. split; [exact Hin|]. apply String.eqb_eq. exact Heq.
Qed.

Lemma reference_free_not_In ref t :
  reference_taken ref t = false -> ~ In ref (List.map t_reference (transactions t)).
Proof.
  intros H Hin. apply reference_taken_In in Hin. congruence.
Qed.

Lemma ledger_balance_app id l1 l2 :
  ledger_balance id (l1 ++ l2)%list = ledger_balance id l1 + ledger_balance id l2.
Proof.
  unfold ledger_balance. induction l1 as [|r l1 IH]; cbn; [reflexivity|].
  rewrite IH. lia.
Qed.

Lemma ledger_balance_no_entry id l :
  (forall r, In r l -> t_walletId r <> id) -> ledger_balance id l = 0.
Proof.
  unfold ledger_balance. induction l as [|r l IH]; intros H; cbn; [reflexivity|].
  rewrite IH by (intros r0 Hr0; apply H; right; exact Hr0).
  unfold signed_amount. assert (Hne : t_walletId r <> id) by (apply H; left; reflexivity).
  apply String.eqb_neq in Hne. rewrite Hne. reflexivity.
Qed.

Lemma ledger_balance_filter id id' l :
  id' <> id ->
  ledger_balance id'
    (List.filter (fun r => negb (String.eqb (t_walletId r) id)) l)
  = ledger_balance id' l.
Proof.
  intros Hne. unfold ledger_balance. induction l as [|r l IH]; cbn; [reflexivity|].
  destruct (String.eqb (t_walletId r) id) eqn:Hr; cbn.
  - rewrite IH. unfold signed_amount. apply String.eqb_eq in Hr.
    assert (Hx : String.eqb (t_walletId r) id' = false).
    { apply String.eqb_neq. congruence. }
    rewrite Hx. lia.
  - rewrite IH. reflexivity.
Qed.

Lemma signed_amount_other id r : t_walletId r <> id -> signed_amount id r = 0.
Proof.
  intros H. unfold signed_amount. apply String.eqb_neq in H. rewrite H. reflexivity.
Qed.

Lemma signed_amount_own r :
  signed_amount (t_walletId r) r
  = match t_type r with CREDIT => t_amount r | DEBIT => - t_amount r end.
Proof. unfold signed_amount. rewrite String.eqb_refl. reflexivity. Qed.

(** Writing one row and appending one entry of that wallet keeps the
    agreement when the row moves by what the entry says. *)
Lemma consistent_entry t id w1 w' r :
  consistent t ->
  wallets t !! id = Some w1 ->
  t_walletId r = id ->
  reference_taken (t_reference r) t = false ->
  w_balance w' = w_balance w1 + signed_amount id r ->
  consistent (mkTables (<[id := w']> (wallets t)) (transactions t ++ [r])%list).
Proof.
  intros (Hfk & Hnd & Hbal) Hw1 Hr Hfresh Hw'. repeat split; cbn [wallets transactions].
  - intros r0 Hin. apply lookup_insert_is_Some.
    destruct (decide (id = t_walletId r0)) as [Heq|Hne]; [left; exact Heq|right].
    split; [exact Hne|]. apply in_app_or in Hin as [Hin|[<-|[]]].
    + apply Hfk. exact Hin.
    + congruence.
  - rewrite map_app. apply NoDup_app. split; [exact Hnd|]. split.
    + intros x Hx Hx'. cbn in Hx'. apply list_elem_of_In in Hx, Hx'.
      destruct Hx' as [<-|[]]. apply reference_free_not_In in Hfresh. contradiction.
    + cbn. apply NoDup_singleton.
  - intros id0 w0 Hw0. rewrite ledger_balance_app. cbn [ledger_balance fold_right].
    destruct (decide (id0 = id)) as [->|Hne].
    + rewrite lookup_insert_eq in Hw0. inversion Hw0; subst w0.
      rewrite Hw', (Hbal _ _ Hw1). lia.
    + rewrite lookup_insert_ne in Hw0 by congruence.
      rewrite (Hbal _ _ Hw0), signed_amount_other by congruence. lia.
Qed.

Lemma consistent_env_steps E t t' :
  well_behaved E -> env_steps E t t' -> consistent t -> consistent t'.
Proof.
  intros Hwb Hsteps. induction Hsteps as [|t t' n _ IH]; intros Hc; [exact Hc|].
  apply Hwb, IH, Hc.
Qed.

(** A committed attempt of [fund] or [withdraw] keeps the agreement. *)
Lemma committed_attempt_consistent E id type amount o w s s' :
  well_behaved E ->
  consistent (main s) ->
  committed_attempt E id type amount
    (match type with CREDIT => amount | DEBIT => - amount end) o w s s' ->
  consistent (main s').
Proof.
  intros Hwb Hc (w1 & updatedAt & r & Hw & _ & Hw1 & Hver & Hws & Hts & Hfresh
                 & Hr1 & Hr2 & Hr3 & _).
  destruct (Hwb (S (tick s)) (main s) Hc) as [Hc' Hkeep]. fold (seen E s) in Hc', Hkeep.
  specialize (Hkeep id w w1 Hw Hw1 Hver).
  pose proof (consistent_entry (seen E s) id w1
                (written w1 (w_balance w + match type with CREDIT => amount
                                                          | DEBIT => - amount end)
                         updatedAt) r Hc' Hw1 Hr1 Hfresh) as Hnew.
  destruct (main s') as [ws ts]. cbn in Hws, Hts. subst ws ts.
  apply Hnew. cbn. rewrite <- Hr1, signed_amount_own, Hr2, Hr3, Hkeep.
  destruct type; reflexivity.
Qed.

Lemma attempt_consistent E id m u ip ua s r s' :
  well_behaved E ->
  consistent (main s) ->
  attempt E id m u ip ua s = (r, s') ->
  consistent (main s').
Proof.
  intros Hwb Hc H. destruct r as [v|e].
  - destruct m as [dto|dto]; cbn in H.
    + apply fund_attempt_commit in H as (w & H).
      exact (committed_attempt_consistent E id CREDIT _ _ w s s' Hwb Hc H).
    + apply withdraw_attempt_commit in H as (w & H & _).
      exact (committed_attempt_consistent E id DEBIT _ _ w s s' Hwb Hc H).
  - apply attempt_rollback in H as (_ & _ & Hsteps).
    exact (consistent_env_steps E _ _ Hwb Hsteps Hc).
Qed.

Lemma mutate_consistent E id m u ip ua s r s' :
  well_behaved E ->
  consistent (main s) ->
  mutate E id m u ip ua s = (r, s') ->
  consistent (main s').
Proof.
  intros Hwb Hc H. revert Hc.
  rewrite mutate_unfold in H. unfold executeWithRetry in H. revert H.
  apply (retry_loop_respects (attempt E id m u ip ua)
           (fun s s' => consistent (main s) -> consistent (main s'))).
  - auto.
  - auto.
  - intros retries attempt0 s0 H0. exact H0.
  - intros retries s0 H0. exact H0.
  - intros s0 r0 s0' H0 Hc0. exact (attempt_consistent E id m u ip ua s0 r0 s0' Hwb Hc0 H0).
Qed.

(** X1.  Whatever [fund] or [withdraw] returns or throws, after however many
    attempts and whatever well-behaved writers commit in between, every
    stored balance is still what replaying the ledger gives, every entry
    still belongs to a stored wallet and references are still unique. *)
Theorem mutate_keeps_ledger :
  forall (E : Env) (id : string) (m : Mutation) (u : string) (ip ua : option string)
         (s : World) (r : Result (option Wallet)) (s' : World),
    well_behaved E ->
    consistent (main s) ->
    mutate E id m u ip ua s = (r, s') ->
    consistent (main s').
Proof.
  intros E id m u ip ua s r s'. apply mutate_consistent.
Qed.

(** What a returning [transfer] has committed, with the two indexes it
    passed and the rows it returns. *)
Lemma transfer_commit_entries E from to amount u d s r s' :
  transfer E from to amount u d s = (Ok r, s') ->
  exists fw tw0 out inn t1 t2,
    wallets (main s) !! from = Some fw
    /\ <[from := moved fw (- amount) t1]> (wallets (main s)) !! to = Some tw0
    /\ wallets (main s')
       = <[to := moved tw0 amount t2]>
           (<[from := moved fw (- amount) t1]> (wallets (main s)))
    /\ transactions (main s') = (transactions (main s) ++ [out; inn])%list
    /\ t_walletId out = from /\ t_type out = DEBIT /\ t_amount out = amount
    /\ t_walletId inn = to /\ t_type inn = CREDIT /\ t_amount inn = amount
    /\ reference_taken (t_reference out) (main s) = false
    /\ reference_taken (t_reference inn) (append_transaction out (main s)) = false
    /\ r = (soft_delete_filter E (wallets (main s') !! from),
            soft_delete_filter E (wallets (main s') !! to)).
Proof.
  intros H. apply prisma_transaction_commit in H as (s1 & H & ->).
  unfold transfer_unit in H.
  apply bind_ok_inv in H as (x0 & s0 & Hlock & H).
  inversion Hlock; subst; clear Hlock.
  apply bind_ok_inv in H as (ofw & sa & Hfind & H).
  unfold tx_wallet_findUnique in Hfind; inversion Hfind; subst; clear Hfind.
  apply bind_ok_inv in H as (otw & sb & Hfind & H).
  unfold tx_wallet_findUnique in Hfind; inversion Hfind; subst; clear Hfind.
  cbn [txv begin_state] in H.
  destruct (soft_delete_filter E (wallets (main s) !! from)) as [fw|] eqn:Hf;
    [|unfold throw in H; discriminate].
  destruct (soft_delete_filter E (wallets (main s) !! to)) as [tw|] eqn:Ht;
    [|unfold throw in H; discriminate].
  apply soft_delete_filter_Some in Hf, Ht.
  destruct (negb (w_currency fw =? w_currency tw)%string) eqn:Hc;
    [unfold throw in H; discriminate|].
  cbv zeta in H.
  destruct (w_balance fw <? amount) eqn:Hb; [unfold throw in H; discriminate|].
  apply bind_ok_inv in H as (reference & sc & Href & H).
  unfold generateTransactionReference in Href; inversion Href; subst; clear Href.
  apply bind_ok_inv in H as (fw' & sd & Hupd & H).
  apply tx_wallet_update_inv in Hupd as (fw0 & Hfw0 & -> & Htd & Hmd).
  cbn in Hfw0, Htd, Hmd. rewrite Hf in Hfw0. inversion Hfw0; subst fw0; clear Hfw0.
  apply bind_ok_inv in H as (out & se & Hout & H).
  apply tx_transaction_create_inv in Hout; cbn in Hout.
  destruct Hout as (Hfo & Hte & Hme & _ & Ho1 & Ho2 & Ho3 & _ & _ & Ho6).
  apply bind_ok_inv in H as (tw' & sf & Hupd & H).
  apply tx_wallet_update_inv in Hupd as (tw0 & Htw0 & -> & Htf & Hmf).
  apply bind_ok_inv in H as (inn & sg & Hinn & H).
  apply tx_transaction_create_inv in Hinn; cbn in Hinn.
  destruct Hinn as (Hfi & Htg & Hmg & _ & Hi1 & Hi2 & Hi3 & _ & _ & Hi6).
  apply bind_ok_inv in H as (uf & sh & Hfind & H).
  unfold tx_wallet_findUnique in Hfind; inversion Hfind; subst; clear Hfind.
  apply bind_ok_inv in H as (ut & si & Hfind & H).
  unfold tx_wallet_findUnique in Hfind; inversion Hfind; subst; clear Hfind.
  inversion H; subst; clear H.
  rewrite Hte, Htd in Htw0. cbn in Htw0.
  rewrite Htd in Hfo. rewrite Htf, Hte, Htd in Hfi.
  exists fw, tw0, out, inn, (now E (S (tick s))), (now E (tick se)).
  cbn [main set_main]. rewrite Htg, Htf, Hte, Htd. cbn.
  rewrite <- app_assoc. cbn.
  repeat split; auto.
  - rewrite Ho6. exact Hfo.
  - rewrite Hi6. exact Hfi.
Qed.

Lemma transfer_consistent E from to amount u d s r s' :
  consistent (main s) ->
  transfer E from to amount u d s = (r, s') ->
  consistent (main s').
Proof.
  intros Hc H. destruct r as [v|e].
  - apply transfer_commit_entries in H
      as (fw & tw0 & out & inn & t1 & t2 & Hfw & Htw0 & Hws & Hts & Ho1 & Ho2 & Ho3
          & Hi1 & Hi2 & Hi3 & Hfo & Hfi & _).
    pose proof (consistent_entry (main s) from fw (moved fw (- amount) t1) out
                  Hc Hfw Ho1 Hfo) as H1.
    assert (Hc1 : consistent
                    (mkTables (<[from := moved fw (- amount) t1]> (wallets (main s)))
                              (transactions (main s) ++ [out])%list)).
    { apply H1. cbn. rewrite <- Ho1, signed_amount_own, Ho2, Ho3. reflexivity. }
    pose proof (consistent_entry _ to tw0 (moved tw0 amount t2) inn Hc1 Htw0 Hi1 Hfi) as H2.
    destruct (main s') as [ws ts]. cbn in Hws, Hts. subst ws ts.
    cbn in H2. rewrite <- app_assoc in H2. apply H2.
    rewrite <- Hi1, signed_amount_own, Hi2, Hi3. reflexivity.
  - apply transfer_rollback in H as (-> & _). exact Hc.
Qed.

(** X2.  [transfer] keeps the agreement of balances and ledger, whatever its
    outcome, also for a transfer of a wallet to itself and for an amount
    that is not positive. *)
Theorem transfer_keeps_ledger :
  forall (E : Env) (from to : string) (amount : Z) (u : string) (d : option string)
         (s : World) (r : Result (option Wallet * option Wallet)) (s' : World),
    consistent (main s) ->
    transfer E from to amount u d s = (r, s') ->
    consistent (main s').
Proof.
  intros E from to amount u d s r s'. apply transfer_consistent.
Qed.

Lemma consistent_new_wallet t id w :
  consistent t -> wallets t !! id = None -> w_balance w = 0 ->
  consistent (put_wallet id w t).
Proof.
  intros (Hfk & Hnd & Hbal) Hnone Hzero. repeat split; cbn [put_wallet wallets transactions].
  - intros r Hin. apply lookup_insert_is_Some.
    destruct (decide (id = t_walletId r)); [left; assumption|right; split; auto].
  - exact Hnd.
  - intros id0 w0 Hw0. destruct (decide (id0 = id)) as [->|Hne].
    + rewrite lookup_insert_eq in Hw0. inversion Hw0; subst w0. rewrite Hzero.
      symmetry. apply ledger_balance_no_entry. intros r Hin Heq.
      destruct (Hfk r Hin) as [x Hx]. congruence.
    + rewrite lookup_insert_ne in Hw0 by congruence. exact (Hbal _ _ Hw0).
Qed.

Lemma consistent_same_balance t id w w' :
  consistent t -> wallets t !! id = Some w -> w_balance w' = w_balance w ->
  consistent (put_wallet id w' t).
Proof.
  intros (Hfk & Hnd & Hbal) Hw Hsame. repeat split; cbn [put_wallet wallets transactions].
  - intros r Hin. apply lookup_insert_is_Some.
    destruct (decide (id = t_walletId r)); [left; assumption|right; split; auto].
  - exact Hnd.
  - intros id0 w0 Hw0. destruct (decide (id0 = id)) as [->|Hne].
    + rewrite lookup_insert_eq in Hw0. inversion Hw0; subst w0. rewrite Hsame.
      exact (Hbal _ _ Hw).
    + rewrite lookup_insert_ne in Hw0 by congruence. exact (Hbal _ _ Hw0).
Qed.

Lemma NoDup_map_filter {A B} (f : A -> B) (p : A -> bool) (l : list A) :
  NoDup (List.map f l) -> NoDup (List.map f (List.filter p l)).
Proof.
  induction l as [|x l IH]; cbn; intros H; [exact H|].
  apply NoDup_cons in H as [Hx Hl]. destruct (p x); cbn; [|auto].
  apply NoDup_cons. split; [|auto].
  intros Hin. apply Hx. apply list_elem_of_In in Hin. apply list_elem_of_In.
  apply in_map_iff in Hin as (y & Hy & Hin). apply in_map_iff. exists y. split; [exact Hy|].
  apply filter_In in Hin. tauto.
Qed.

(** Deleting a row together with its entries (the cascade) keeps the
    agreement for the rows that stay. *)
Lemma consistent_cascade t id :
  consistent t ->
  consistent (mkTables (delete id (wallets t))
                       (List.filter (fun r => negb (String.eqb (t_walletId r) id))
                                    (transactions t))).
Proof.
  intros (Hfk & Hnd & Hbal). repeat split; cbn [wallets transactions].
  - intros r Hin. apply filter_In in Hin as [Hin Hne].
    apply negb_true_iff, String.eqb_neq in Hne.
    rewrite lookup_delete_ne by congruence. exact (Hfk r Hin).
  - apply NoDup_map_filter. exact Hnd.
  - intros id0 w0 Hw0. destruct (decide (id0 = id)) as [->|Hne].
    + rewrite lookup_delete_eq in Hw0. discriminate.
    + rewrite lookup_delete_ne in Hw0 by congruence.
      rewrite ledger_balance_filter by exact Hne. exact (Hbal _ _ Hw0).
Qed.

Lemma prisma_wallet_create_inv E name currency userId s r s' :
  prisma_wallet_create E name currency userId 0 0 s = (r, s') ->
  main s' = main s
  \/ exists w, wallets (main s) !! uuid E (tick s) = None /\ w_balance w = 0
               /\ main s' = put_wallet (uuid E (tick s)) w (main s).
Proof.
  unfold prisma_wallet_create.
  destruct (negb (String.length currency <=? 3)%nat);
    [intros H; inversion H; subst; left; reflexivity|].
  destruct (wallets (main s) !! uuid E (tick s)) eqn:Hid;
    [intros H; inversion H; subst; left; reflexivity|].
  destruct (triple_taken userId name currency (main s));
    intros H; inversion H; subst; [left; reflexivity|].
  right. eexists. repeat split. reflexivity.
Qed.

Lemma create_consistent E userId dto ip ua s r s' :
  consistent (main s) ->
  create E userId dto ip ua s = (r, s') ->
  consistent (main s').
Proof.
  intros Hc H. unfold create, bind in H.
  destruct (prisma_wallet_create E (c_name dto) (toUpperCase (c_currency dto)) userId 0 0 s)
    as [[w|e] s1] eqn:Hcreate.
  - assert (Hc1 : consistent (main s1)).
    { apply prisma_wallet_create_inv in Hcreate as [->|(w0 & Hnone & Hzero & ->)];
        [exact Hc|]. apply consistent_new_wallet; assumption. }
    destruct (AuditService_log E _ s1) as [[al|e] s2] eqn:Haudit;
      apply AuditService_log_inv in Haudit as (Hm & _);
      inversion H; subst; rewrite Hm; exact Hc1.
  - inversion H; subst.
    apply prisma_wallet_create_inv in Hcreate as [->|(w0 & Hnone & Hzero & ->)];
      [exact Hc|]. apply consistent_new_wallet; assumption.
Qed.

(** X3.  [create] keeps the agreement: the new wallet starts at 0 and no entry
    of the ledger can already bear its id. *)
Theorem create_keeps_ledger :
  forall (E : Env) (userId : string) (dto : CreateWalletDto) (ip ua : option string)
         (s : World) (r : Result Wallet) (s' : World),
    consistent (main s) ->
    create E userId dto ip ua s = (r, s') ->
    consistent (main s').
Proof.
  intros E userId dto ip ua s r s'. apply create_consistent.
Qed.

Lemma prisma_wallet_delete_consistent E id s r s' :
  consistent (main s) ->
  prisma_wallet_delete E id s = (r, s') ->
  consistent (main s').
Proof.
  intros Hc. unfold prisma_wallet_delete.
  destruct (wallets (main s) !! id) as [w|] eqn:Hw;
    [|intros H; inversion H; subst; exact Hc].
  destruct (softDeleteMiddleware E); intros H; inversion H; subst; cbn [main set_main next_tick].
  - apply (consistent_same_balance _ _ w); [exact Hc|exact Hw|reflexivity].
  - apply consistent_cascade. exact Hc.
Qed.

(** X4.  [delete] keeps the agreement with and without the soft-delete
    middleware: a marked row keeps its balance and its entries, a removed
    row takes its entries with it. *)
Theorem delete_keeps_ledger :
  forall (E : Env) (id userId : string) (ip ua : option string)
         (s : World) (r : Result unit) (s' : World),
    consistent (main s) ->
    delete_wallet E id userId ip ua s = (r, s') ->
    consistent (main s').
Proof.
  intros E id userId ip ua s r s' Hc H.
  unfold delete_wallet, findByIdOrFail, findById, prisma_wallet_findUnique, bind in H.
  destruct (soft_delete_filter E (wallets (main s) !! id)) as [w|];
    [|inversion H; subst; exact Hc].
  cbn in H. destruct (negb (w_userId w =? userId)%string);
    [inversion H; subst; exact Hc|].
  destruct (prisma_wallet_delete E id s) as [[w'|e] s1] eqn:Hdel;
    apply (prisma_wallet_delete_consistent E id s _ s1 Hc) in Hdel.
  - destruct (AuditService_log E _ s1) as [[al|e] s2] eqn:Haudit;
      apply AuditService_log_inv in Haudit as (Hm & _);
      inversion H; subst; rewrite Hm; exact Hdel.
  - inversion H; subst. exact Hdel.
Qed.

Lemma consistentb_sound t : consistentb t = true -> consistent t.
Proof.
  unfold consistentb. intros H.
  apply andb_true_iff in H as [H Hbal]. apply andb_true_iff in H as [Hfk Hnd].
  apply bool_decide_eq_true in Hnd, Hbal. repeat split.
  - intros r Hin. rewrite forallb_forall in Hfk.
    exact (bool_decide_eq_true_1 _ (Hfk r Hin)).
  - exact Hnd.
  - intros id w Hw. exact (Hbal id w Hw).
Qed.

Lemma deposit_of_another_consistent n t :
  consistent t -> consistent (deposit_of_another n t).
Proof.
  intros Hc. unfold deposit_of_another.
  destruct (wallets t !! "wallet-a") as [w|] eqn:Hw; [|exact Hc].
  destruct (reference_taken ("EXT-" +:+ pretty n) t) eqn:Hfresh; [exact Hc|].
  apply (consistent_entry t "wallet-a" w); auto.
Qed.

Lemma busy_env_well_behaved : well_behaved busy_env.
Proof.
  intros n t Hc. cbn [concurrent busy_env].
  destruct (n =? 1)%nat; [|split; [exact Hc|]].
  - split; [apply deposit_of_another_consistent; exact Hc|].
    intros id w w' Hw. unfold deposit_of_another.
    destruct (wallets t !! "wallet-a") as [wa|] eqn:Hwa; [|congruence].
    destruct (reference_taken ("EXT-" +:+ pretty n) t); [congruence|].
    cbn [wallets]. destruct (decide (id = "wallet-a")) as [->|Hne].
    + rewrite lookup_insert_eq. intros Hw' Hv. inversion Hw'; subst w'.
      cbn in Hv. assert (wa = w) by congruence. subst wa. lia.
    + rewrite lookup_insert_ne by congruence. congruence.
  - intros id w w' Hw Hw' _. congruence.
Qed.

Lemma mutate_keeps_ledger_witness :
  consistent (main settled_world)
  /\ consistent
       (main (snd (mutate busy_env "wallet-a" (inl (mkFundWalletDto 25000 None None None))
                          "alice" None None settled_world))).
Proof.
  split; [apply consistentb_sound; vm_compute; reflexivity|].
  apply (mutate_keeps_ledger busy_env "wallet-a"
           (inl (mkFundWalletDto 25000 None None None)) "alice" None None settled_world
           (fst (mutate busy_env "wallet-a" (inl (mkFundWalletDto 25000 None None None))
                        "alice" None None settled_world))).
  - exact busy_env_well_behaved.
  - apply consistentb_sound. vm_compute. reflexivity.
  - apply surjective_pairing.
Defined.

Lemma transfer_keeps_ledger_witness :
  consistent (main settled_world)
  /\ consistent
       (main (snd (transfer (example_env false) "wallet-a" "wallet-d" 2500000 "alice" None
                            settled_world))).
Proof.
  split; [apply consistentb_sound; vm_compute; reflexivity|].
  apply (transfer_keeps_ledger (example_env false) "wallet-a" "wallet-d" 2500000 "alice"
           None settled_world
           (fst (transfer (example_env false) "wallet-a" "wallet-d" 2500000 "alice" None
                          settled_world))).
  - apply consistentb_sound. vm_compute. reflexivity.
  - apply surjective_pairing.
Defined.

Lemma create_keeps_ledger_witness :
  consistent (main settled_world)
  /\ consistent
       (main (snd (create (example_env false) "alice" (mkCreateWalletDto "Holiday" "eur")
                          None None settled_world))).
Proof.
  split; [apply consistentb_sound; vm_compute; reflexivity|].
  apply (create_keeps_ledger (example_env false) "alice" (mkCreateWalletDto "Holiday" "eur")
           None None settled_world
           (fst (create (example_env false) "alice" (mkCreateWalletDto "Holiday" "eur")
                        None None settled_world))).
  - apply consistentb_sound. vm_compute. reflexivity.
  - apply surjective_pairing.
Defined.

Lemma delete_keeps_ledger_witness :
  consistent (main settled_world)
  /\ consistent
       (main (snd (delete_wallet (example_env false) "wallet-a" "alice" None None
                                 settled_world)))
  /\ consistent
       (main (snd (delete_wallet (example_env true) "wallet-a" "alice" None None
                                 settled_world))).
Proof.
  split; [apply consistentb_sound; vm_compute; reflexivity|]. split.
  - apply (delete_keeps_ledger (example_env false) "wallet-a" "alice" None None
             settled_world
             (fst (delete_wallet (example_env false) "wallet-a" "alice" None None
                                 settled_world))).
    + apply consistentb_sound. vm_compute. reflexivity.
    + apply surjective_pairing.
  - apply (delete_keeps_ledger (example_env true) "wallet-a" "alice" None None
             settled_world
             (fst (delete_wallet (example_env true) "wallet-a" "alice" None None
                                 settled_world))).
    + apply consistentb_sound. vm_compute. reflexivity.
    + apply surjective_pairing.
Defined.

(** The runs of the witnesses do what they are meant to: the funding under
    [busy_env] meets the other deposit, is retried once and lands on top of
    it; the transfer and the deletion go through. *)
Example ledger_runs :
  (exists w s',
      mutate busy_env "wallet-a" (inl (mkFundWalletDto 25000 None None None))
             "alice" None None settled_world = (Ok (Some w), s')
      /\ w_balance w = 10040000 /\ w_version w = 3
      /\ timers s' = [20] /\ begun s' = 2%nat
      /\ List.length (transactions (main s')) = 3%nat)
  /\ (exists r s',
        transfer (example_env false) "wallet-a" "wallet-d" 2500000 "alice" None
                 settled_world = (Ok r, s'))
  /\ (exists s',
        delete_wallet (example_env false) "wallet-a" "alice" None None settled_world
        = (Ok tt, s')
        /\ transactions (main s') = []).
Proof.
  split; [|split].
  - do 2 eexists. split; [vm_compute; reflexivity|]. repeat split.
  - do 2 eexists. vm_compute. reflexivity.
  - eexists. split; [vm_compute; reflexivity|]. reflexivity.
Qed.

(** ** The summary and the lookups *)

Lemma total_credit_minus_debit id l :
  total CREDIT id l - total DEBIT id l = ledger_balance id l.
Proof.
  unfold total, ledger_balance, signed_amount.
  induction l as [|r l IH]; cbn; [reflexivity|].
  destruct (String.eqb (t_walletId r) id); cbn; [|lia].
  destruct (t_type r); cbn; lia.
Qed.

Lemma aggregate_sum_total id type s :
  exists o,
    prisma_transaction_aggregate_sum id type s = (Ok o, s)
    /\ match o with Some d => d | None => 0 end = total type id (transactions (main s)).
Proof.
  unfold prisma_transaction_aggregate_sum. eexists. split; [reflexivity|].
  assert (Hsum : forall l,
             fold_right (fun r acc => t_amount r + acc) 0
               (List.filter (fun r => String.eqb (t_walletId r) id
                                      && TransactionType_eqb (t_type r) type) l)
             = total type id l).
  { induction l as [|r l IH]; cbn; [reflexivity|].
    destruct (String.eqb (t_walletId r) id && TransactionType_eqb (t_type r) type);
      cbn; rewrite IH; reflexivity. }
  rewrite <- Hsum.
  destruct (List.filter _ (transactions (main s))); reflexivity.
Qed.

Lemma getSummary_totals {JSNumber} (Number : Z -> JSNumber) id s :
  TransactionsService_getSummary Number id s
  = (Ok (mkSummary (Number (total CREDIT id (transactions (main s))))
                   (Number (total DEBIT id (transactions (main s))))
                   (List.length (List.filter (fun r => String.eqb (t_walletId r) id)
                                             (transactions (main s))))), s).
Proof.
  unfold TransactionsService_getSummary, bind.
  destruct (aggregate_sum_total id CREDIT s) as (oc & -> & Hc).
  destruct (aggregate_sum_total id DEBIT s) as (od & -> & Hd).
  unfold prisma_transaction_count, ret. rewrite <- Hc, <- Hd.
  destruct oc, od; reflexivity.
Qed.

(** X5.  On tables where the ledger accounts for the balances, the summary of
    a wallet reports totals whose difference is the stored balance: the
    service returns [Number] of the two sums (0 for a wallet without entries
    of a type) and the number of the entries of the wallet, and changes
    nothing; the route GET /wallets/:id/summary gives the owner the row
    together with these totals. *)
Theorem getSummary_accounts_for_balance :
  forall (JSNumber : Type) (Number : Z -> JSNumber) (E : Env) (id : string)
         (user : User) (s : World) (w : Wallet),
    consistent (main s) ->
    wallets (main s) !! id = Some w ->
    exists credits debits count,
      TransactionsService_getSummary Number id s
      = (Ok (mkSummary (Number credits) (Number debits) count), s)
      /\ credits - debits = w_balance w
      /\ credits = total CREDIT id (transactions (main s))
      /\ debits = total DEBIT id (transactions (main s))
      /\ count = List.length (List.filter (fun r => String.eqb (t_walletId r) id)
                                          (transactions (main s)))
      /\ (forall r, In r (transactions (main s)) -> t_walletId r = id ->
                    (0 < count)%nat)
      /\ (count = 0%nat -> credits = 0 /\ debits = 0)
      /\ (soft_delete_filter E (Some w) = Some w -> w_userId w = u_id user ->
          WalletsController_getSummary E Number id user s
          = (Replied (w, mkSummary (Number credits) (Number debits) count), s)).
Proof.
  intros JSNumber Number E id user s w (Hfk & Hnd & Hbal) Hw.
  do 3 eexists. split; [apply getSummary_totals|].
  split; [rewrite total_credit_minus_debit; symmetry; exact (Hbal id w Hw)|].
  split; [reflexivity|]. split; [reflexivity|]. split; [reflexivity|]. split; [|split].
  - intros r Hin Hid.
    assert (Hf : In r (List.filter (fun r => String.eqb (t_walletId r) id)
                                   (transactions (main s)))).
    { apply filter_In. split; [exact Hin|]. apply String.eqb_eq. exact Hid. }
    destruct (List.filter _ (transactions (main s))); [contradiction|cbn; lia].
  - intros Hcount. apply length_zero_iff_nil in Hcount.
    assert (Hnone : forall type l,
               List.filter (fun r => String.eqb (t_walletId r) id) l = [] ->
               total type id l = 0).
    { intros type l. unfold total. induction l as [|r l IH]; cbn; [reflexivity|].
      destruct (String.eqb (t_walletId r) id); cbn; [discriminate|exact IH]. }
    split; apply Hnone; exact Hcount.
  - intros Hvisible Hown.
    unfold WalletsController_getSummary, hbind, await, findByIdOrFail, findById,
      prisma_wallet_findUnique, bind.
    rewrite Hw, Hvisible. unfold ret. cbv beta iota.
    apply String.eqb_eq in Hown. rewrite Hown. cbn [negb]. unfold reply.
    rewrite getSummary_totals. reflexivity.
Qed.

Lemma getSummary_accounts_for_balance_witness :
  WalletsController_getSummary (example_env false) (fun z : Z => z) "wallet-a"
    (mkUser "alice" [USER]) settled_world
  = (Replied (alice_wallet, mkSummary 10005000 0 1%nat), settled_world)
  /\ 10005000 - 0 = w_balance alice_wallet
  /\ List.length (List.filter (fun r => String.eqb (t_walletId r) "wallet-a")
                              (transactions (main settled_world))) = 1%nat.
Proof.
  destruct (getSummary_accounts_for_balance Z (fun z : Z => z) (example_env false)
              "wallet-a" (mkUser "alice" [USER]) settled_world alice_wallet)
    as (credits & debits & count & Hrun & Hdiff & Hc & Hd & Hn & _ & _ & Hroute).
  - apply consistentb_sound. vm_compute. reflexivity.
  - reflexivity.
  - vm_compute in Hc, Hd, Hn. subst credits debits count.
    split; [exact (Hroute eq_refl eq_refl)|]. split; [exact Hdiff|reflexivity].
Defined.

Lemma find_reference_last ref l r :
  ~ In ref (List.map t_reference l) -> t_reference r = ref ->
  List.find (fun x => String.eqb (t_reference x) ref) (l ++ [r])%list = Some r.
Proof.
  intros Hfree Hr. induction l as [|x l IH]; cbn.
  - rewrite Hr, String.eqb_refl. reflexivity.
  - destruct (String.eqb (t_reference x) ref) eqn:Hx.
    + apply String.eqb_eq in Hx. exfalso. apply Hfree. left. exact Hx.
    + apply IH. intros Hin. apply Hfree. right. exact Hin.
Qed.

Lemma reference_for_truthy E o ref n : truthy o = Some ref -> reference_for E o n = ref.
Proof. unfold reference_for. intros ->. reflexivity. Qed.

(** X6.  After a [fund] or [withdraw] that returned, [findByReference] of the
    reference the caller supplied returns the entry of that call: it bears
    the wallet, the type and the amount of the request, and its
    [balanceAfter] is the balance the wallet now has. *)
Theorem findByReference_round_trip :
  forall (E : Env) (id : string) (m : Mutation) (u : string) (ip ua : option string)
         (s : World) (v : option Wallet) (s' : World) (ref : string),
    truthy (reference_of m) = Some ref ->
    mutate E id m u ip ua s = (Ok v, s') ->
    exists r w',
      TransactionsService_findByReference ref s' = (Ok (Some r), s')
      /\ In r (transactions (main s'))
      /\ t_walletId r = id
      /\ t_type r = match m with inl _ => CREDIT | inr _ => DEBIT end
      /\ t_amount r = match m with inl dto => f_amount dto | inr dto => wd_amount dto end
      /\ wallets (main s') !! id = Some w'
      /\ t_balanceAfter r = w_balance w'.
Proof.
  intros E id m u ip ua s v s' ref Href H.
  apply mutate_ok_inv in H as (sa & H).
  assert (Hcommit : exists w delta,
             committed_attempt E id
               (match m with inl _ => CREDIT | inr _ => DEBIT end)
               (match m with inl dto => f_amount dto | inr dto => wd_amount dto end)
               delta (reference_of m) w sa s').
  { destruct m as [dto|dto]; cbn in H.
    - apply fund_attempt_commit in H as (w & H). eauto.
    - apply withdraw_attempt_commit in H as (w & H & _). eauto. }
  destruct Hcommit as (w & delta & w1 & updatedAt & r & _ & _ & _ & _ & Hws & Hts
                       & Hfresh & Hr1 & Hr2 & Hr3 & _ & Hr5 & n & Hr6).
  rewrite (reference_for_truthy E _ ref n Href) in Hr6.
  exists r, (written w1 (w_balance w + delta) updatedAt).
  unfold TransactionsService_findByReference. rewrite Hts, Hws.
  split; [|split; [|repeat split; auto]].
  - f_equal. f_equal. apply find_reference_last; [|exact Hr6].
    rewrite <- Hr6. apply reference_free_not_In. exact Hfresh.
  - apply in_or_app. right. left. reflexivity.
  - apply lookup_insert_eq.
Qed.

Lemma find_reference_NoDup l r :
  NoDup (List.map t_reference l) -> In r l ->
  List.find (fun x => String.eqb (t_reference x) (t_reference r)) l = Some r.
Proof.
  induction l as [|x l IH]; cbn; intros Hnd Hin; [contradiction|].
  apply NoDup_cons in Hnd as [Hx Hnd]. destruct Hin as [->|Hin].
  - rewrite String.eqb_refl. reflexivity.
  - destruct (String.eqb (t_reference x) (t_reference r)) eqn:Heq; [|auto].
    apply String.eqb_eq in Heq. exfalso. apply Hx. rewrite Heq.
    apply list_elem_of_In, in_map. exact Hin.
Qed.

(** X7.  [findByReference] is the inverse of the reference column: on tables
    that respect the unique index it returns an entry exactly for the
    reference of that entry, and it returns [null] exactly for the
    references no entry bears; it changes nothing. *)
Theorem findByReference_lookup :
  forall (s : World),
    NoDup (List.map t_reference (transactions (main s))) ->
    (forall r, In r (transactions (main s)) <->
               TransactionsService_findByReference (t_reference r) s = (Ok (Some r), s))
    /\ (forall ref r, TransactionsService_findByReference ref s = (Ok (Some r), s) ->
                      t_reference r = ref /\ In r (transactions (main s)))
    /\ (forall ref, reference_taken ref (main s) = false <->
                    TransactionsService_findByReference ref s = (Ok None, s)).
Proof.
  intros s Hnd. unfold TransactionsService_findByReference. repeat split.
  - intros Hin. rewrite (find_reference_NoDup _ r Hnd Hin). reflexivity.
  - intros H. inversion H as [Hfind]. apply find_some in Hfind. tauto.
  - inversion H as [Hfind]. apply find_some in Hfind as [_ Heq].
    apply String.eqb_eq. exact Heq.
  - inversion H as [Hfind]. apply find_some in Hfind. tauto.
  - intros Hfree. f_equal. f_equal.
    destruct (List.find _ _) as [r|] eqn:Hfind; [|reflexivity].
    apply find_some in Hfind as [Hin Heq]. apply String.eqb_eq in Heq.
    apply reference_free_not_In in Hfree. exfalso. apply Hfree.
    rewrite <- Heq. apply in_map. exact Hin.
  - intros H. inversion H as [Hfind].
    destruct (reference_taken ref (main s)) eqn:Htaken; [|reflexivity].
    apply reference_taken_In, in_map_iff in Htaken as (r & Heq & Hin).
    apply (find_none _ _ Hfind) in Hin. apply String.eqb_neq in Hin. congruence.
Qed.

(** ** Listings *)

Lemma insert_desc_In {A} (key : A -> Z) x l y :
  In y (insert_desc key x l) <-> y = x \/ In y l.
Proof.
  induction l as [|z l IH]; cbn; [intuition|].
  destruct (key z <? key x); cbn; [intuition|]. rewrite IH. intuition.
Qed.

Lemma sort_desc_In {A} (key : A -> Z) l y : In y (sort_desc key l) <-> In y l.
Proof.
  unfold sort_desc. induction l as [|x l IH]; cbn; [reflexivity|].
  rewrite insert_desc_In, IH. intuition.
Qed.

Lemma insert_desc_length {A} (key : A -> Z) x l :
  List.length (insert_desc key x l) = S (List.length l).
Proof.
  induction l as [|z l IH]; cbn; [reflexivity|].
  destruct (key z <? key x); cbn; [reflexivity|]. rewrite IH. reflexivity.
Qed.

Lemma sort_desc_length {A} (key : A -> Z) l :
  List.length (sort_desc key l) = List.length l.
Proof.
  unfold sort_desc. induction l as [|x l IH]; cbn; [reflexivity|].
  rewrite insert_desc_length, IH. reflexivity.
Qed.

Lemma insert_desc_sorted {A} (key : A -> Z) x l :
  newest_first key l -> newest_first key (insert_desc key x l).
Proof.
  unfold newest_first. induction l as [|z l IH]; cbn; intros Hs.
  - constructor; [constructor|constructor].
  - apply StronglySorted_inv in Hs as [Hs Hz].
    destruct (key z <? key x) eqn:Hlt.
    + apply Z.ltb_lt in Hlt. constructor.
      * constructor; assumption.
      * constructor; [lia|]. rewrite List.Forall_forall in Hz |- *.
        intros y Hy. specialize (Hz y Hy). cbn in Hz. lia.
    + apply Z.ltb_ge in Hlt. constructor; [auto|].
      rewrite List.Forall_forall in Hz |- *. intros y Hy.
      apply insert_desc_In in Hy as [->|Hy]; [exact Hlt|exact (Hz y Hy)].
Qed.

Lemma sort_desc_sorted {A} (key : A -> Z) l : newest_first key (sort_desc key l).
Proof.
  unfold sort_desc. induction l as [|x l IH]; cbn; [constructor|].
  apply insert_desc_sorted. exact IH.
Qed.

Lemma newest_first_skipn {A} (key : A -> Z) n l :
  newest_first key l -> newest_first key (skipn n l).
Proof.
  unfold newest_first. revert l. induction n as [|n IH]; intros l Hs; [exact Hs|].
  destruct l as [|x l]; [constructor|]. cbn.
  apply StronglySorted_inv in Hs as [Hs _]. auto.
Qed.

Lemma newest_first_firstn {A} (key : A -> Z) n l :
  newest_first key l -> newest_first key (firstn n l).
Proof.
  unfold newest_first. revert l. induction n as [|n IH]; intros l Hs; [constructor|].
  destruct l as [|x l]; [constructor|]. cbn.
  apply StronglySorted_inv in Hs as [Hs Hx]. constructor; [auto|].
  rewrite List.Forall_forall in Hx |- *. intros y Hy. apply Hx.
  revert Hy. clear. revert l. induction n as [|n IH]; intros l Hy; [contradiction|].
  destruct l as [|z l]; [contradiction|]. destruct Hy as [->|Hy]; [left|right]; auto.
Qed.

Lemma In_firstn {A} n (l : list A) x : In x (firstn n l) -> In x l.
Proof.
  revert l. induction n as [|n IH]; intros l Hx; [contradiction|].
  destruct l as [|z l]; [contradiction|]. destruct Hx as [->|Hx]; [left|right]; auto.
Qed.

Lemma In_skipn {A} n (l : list A) x : In x (skipn n l) -> In x l.
Proof.
  revert l. induction n as [|n IH]; intros l Hx; [exact Hx|].
  destruct l as [|z l]; [contradiction|]. right. auto.
Qed.

Lemma firstn_all_In {A} n (l : list A) x :
  (List.length l <= n)%nat -> In x l -> In x (firstn n l).
Proof. intros Hlen Hx. rewrite firstn_all2 by exact Hlen. exact Hx. Qed.

Lemma firstn_then_next {A} n m (l : list A) :
  (firstn n l ++ firstn m (skipn n l))%list = firstn (n + m) l.
Proof.
  revert l. induction n as [|n IH]; intros l; [reflexivity|].
  destruct l as [|x l]; cbn; [destruct m; reflexivity|]. rewrite IH. reflexivity.
Qed.

Lemma skipn_skipn_add {A} n k (l : list A) : skipn n (skipn k l) = skipn (k + n) l.
Proof.
  revert l. induction k as [|k IH]; intros l; [reflexivity|].
  destruct l as [|x l]; cbn; [destruct n; reflexivity|]. apply IH.
Qed.

Lemma insert_desc_Permutation {A} (key : A -> Z) x l :
  Permutation (insert_desc key x l) (x :: l).
Proof.
  induction l as [|y l IH]; cbn; [reflexivity|].
  destruct (key y <? key x); [reflexivity|].
  rewrite IH. apply perm_swap.
Qed.

Lemma sort_desc_Permutation {A} (key : A -> Z) l : Permutation (sort_desc key l) l.
Proof.
  unfold sort_desc. induction l as [|x l IH]; cbn; [reflexivity|].
  rewrite insert_desc_Permutation, IH. reflexivity.
Qed.

(** With keys that differ, there is one way to list the rows newest
    first. *)
Lemma newest_first_unique {A} (key : A -> Z) (l1 : list A) :
  forall l2,
    newest_first key l1 -> newest_first key l2 -> Permutation l1 l2 ->
    NoDup (List.map key l1) -> l1 = l2.
Proof.
  unfold newest_first. induction l1 as [|x l1 IH]; intros l2 H1 H2 Hp Hnd.
  - apply Permutation_nil in Hp. congruence.
  - destruct l2 as [|y l2].
    { apply Permutation_sym, Permutation_nil in Hp. discriminate. }
    apply StronglySorted_inv in H1 as [H1 Hx]. apply StronglySorted_inv in H2 as [H2 Hy].
    rewrite List.Forall_forall in Hx, Hy.
    cbn in Hnd. apply NoDup_cons in Hnd as [Hfresh Hnd].
    assert (Hxy : x = y).
    { assert (Hin1 : In x (y :: l2)) by (eapply Permutation_in; [exact Hp|left; reflexivity]).
      assert (Hin2 : In y (x :: l1))
        by (eapply Permutation_in; [apply Permutation_sym; exact Hp|left; reflexivity]).
      destruct Hin2 as [Heq|Hin2]; [exact Heq|].
      destruct Hin1 as [Heq|Hin1]; [congruence|].
      pose proof (Hx y Hin2) as Hle1. pose proof (Hy x Hin1) as Hle2. cbn in Hle1, Hle2.
      exfalso. apply Hfresh. apply list_elem_of_In.
      replace (key x) with (key y) by lia. apply in_map. exact Hin2. }
    subst y. f_equal. apply IH; auto.
    eapply Permutation_cons_inv. exact Hp.
Qed.

Lemma or_default_offset k : 0 <= k -> or_default (Some (Int k)) 0 = k.
Proof. intros H. cbn. destruct (k =? 0) eqn:Hk; [apply Z.eqb_eq in Hk; lia|reflexivity]. Qed.

Lemma or_default_limit n d : 0 < n -> or_default (Some (Int n)) d = n.
Proof. intros H. cbn. destruct (n =? 0) eqn:Hn; [apply Z.eqb_eq in Hn; lia|reflexivity]. Qed.

Lemma findMany_rows Q (where_ : Transaction -> bool) l r :
  rearranges Q ->
  In r (sort_desc t_createdAt (arrange Q (List.filter where_ l)))
  <-> In r l /\ where_ r = true.
Proof.
  intros HQ. rewrite sort_desc_In, <- filter_In. split; apply Permutation_in.
  - apply HQ.
  - apply Permutation_sym, HQ.
Qed.

(** X8.  [findByWalletId], asked for a window that is not negative, returns a
    page of the ledger of the wallet: only entries of that wallet that pass
    the type and date conditions, newest first, at most [limit] of them, 50
    when the limit is absent, NaN or 0; with no offset and no more matching
    entries than the page holds, every matching entry is on the page; the
    ledger is not changed.  The database is free in the order of entries of
    equal [createdAt], so two queries need not agree on it: consecutive
    pages put together are the larger page when the matching entries differ
    in [createdAt]. *)
Theorem findByWalletId_page :
  forall (Q : QueryEngine) (walletId : string) (o : FindOptions) (s : World),
    rearranges Q ->
    0 <= or_default (o_limit o) 50 ->
    0 <= or_default (o_offset o) 0 ->
    exists page,
      TransactionsService_findByWalletId Q walletId o s = (Ok page, s)
      /\ (Z.of_nat (List.length page) <= or_default (o_limit o) 50)
      /\ (forall r, In r page ->
                    In r (transactions (main s)) /\ t_walletId r = walletId
                    /\ (forall ty, o_type o = Some ty -> t_type r = ty)
                    /\ (forall d, o_fromDate o = Some d -> d <= t_createdAt r)
                    /\ (forall d, o_toDate o = Some d -> t_createdAt r <= d))
      /\ newest_first t_createdAt page
      /\ (or_default (o_offset o) 0 = 0 ->
          Z.of_nat (List.length (List.filter (matches_options walletId o)
                                             (transactions (main s))))
          <= or_default (o_limit o) 50 ->
          forall r, In r (transactions (main s)) ->
                    matches_options walletId o r = true -> In r page)
      /\ (forall limit,
            limit = Some (Int 0) \/ limit = Some NaN ->
            TransactionsService_findByWalletId Q walletId
              (mkFindOptions (o_type o) limit (o_offset o) (o_fromDate o) (o_toDate o)) s
            = TransactionsService_findByWalletId Q walletId
                (mkFindOptions (o_type o) None (o_offset o) (o_fromDate o) (o_toDate o)) s)
      /\ (forall Qa Qb Qc n m k pageA pageB,
            rearranges Qa -> rearranges Qb -> rearranges Qc ->
            0 < n -> 0 < m -> 0 <= k ->
            NoDup (List.map t_createdAt
                     (List.filter (matches_options walletId o) (transactions (main s)))) ->
            TransactionsService_findByWalletId Qa walletId
              (mkFindOptions (o_type o) (Some (Int n)) (Some (Int k))
                             (o_fromDate o) (o_toDate o)) s = (Ok pageA, s) ->
            TransactionsService_findByWalletId Qb walletId
              (mkFindOptions (o_type o) (Some (Int m)) (Some (Int (k + n)))
                             (o_fromDate o) (o_toDate o)) s = (Ok pageB, s) ->
            TransactionsService_findByWalletId Qc walletId
              (mkFindOptions (o_type o) (Some (Int (n + m))) (Some (Int k))
                             (o_fromDate o) (o_toDate o)) s
            = (Ok (pageA ++ pageB)%list, s)).
Proof.
  intros Q walletId o s HQ Htake Hskip.
  unfold TransactionsService_findByWalletId, prisma_transaction_findMany. cbv zeta.
  assert (Hwin : (0 <=? or_default (o_limit o) 50) && (0 <=? or_default (o_offset o) 0)
                 = true).
  { apply andb_true_iff. split; apply Z.leb_le; assumption. }
  rewrite Hwin. eexists. split; [reflexivity|].
  split; [|split; [|split; [|split; [|split]]]].
  - pose proof (firstn_le_length (Z.to_nat (or_default (o_limit o) 50))
                  (skipn (Z.to_nat (or_default (o_offset o) 0))
                     (sort_desc t_createdAt
                        (arrange Q (List.filter (matches_options walletId o)
                                                (transactions (main s))))))) as Hlen.
    lia.
  - intros r Hr. apply In_firstn, In_skipn in Hr.
    apply (findMany_rows Q _ _ r HQ) in Hr as [Hin Hm].
    unfold matches_options in Hm.
    apply andb_true_iff in Hm as [Hm Hto]. apply andb_true_iff in Hm as [Hm Hfrom].
    apply andb_true_iff in Hm as [Hid Hty]. apply String.eqb_eq in Hid.
    repeat split; auto.
    + intros ty Ho. rewrite Ho in Hty. destruct (t_type r), ty; cbn in Hty; congruence.
    + intros d Ho. rewrite Ho in Hfrom. apply Z.leb_le. exact Hfrom.
    + intros d Ho. rewrite Ho in Hto. apply Z.leb_le. exact Hto.
  - apply newest_first_firstn, newest_first_skipn, sort_desc_sorted.
  - intros Hoff Hlen r Hin Hm. rewrite Hoff. change (Z.to_nat 0) with 0%nat.
    rewrite skipn_O. apply firstn_all_In.
    + rewrite sort_desc_length, (Permutation_length (HQ _)). lia.
    + apply (findMany_rows Q _ _ r HQ). split; assumption.
  - intros limit [->| ->]; reflexivity.
  - intros Qa Qb Qc n m k pageA pageB HQa HQb HQc Hn Hm Hk Hnd HA HB.
    cbn [o_type o_limit o_offset o_fromDate o_toDate] in HA, HB |- *.
    unfold matches_options in HA, HB, Hnd |- *.
    cbn [o_type o_limit o_offset o_fromDate o_toDate] in HA, HB |- *.
    set (F := List.filter _ (transactions (main s))) in HA, HB, Hnd |- *.
    rewrite !or_default_limit, !or_default_offset in HA, HB |- * by lia.
    assert (Hsame : forall Q1 Q2, rearranges Q1 -> rearranges Q2 ->
                      sort_desc t_createdAt (arrange Q1 F)
                      = sort_desc t_createdAt (arrange Q2 F)).
    { intros Q1 Q2 H1 H2. apply (newest_first_unique t_createdAt).
      - apply sort_desc_sorted.
      - apply sort_desc_sorted.
      - rewrite !sort_desc_Permutation, (H1 F), (H2 F). reflexivity.
      - assert (Hp : Permutation (List.map t_createdAt (sort_desc t_createdAt (arrange Q1 F)))
                                 (List.map t_createdAt F)).
        { apply Permutation_map. rewrite sort_desc_Permutation, (H1 F). reflexivity. }
        rewrite Hp. exact Hnd. }
    rewrite (Hsame Qa Qc HQa HQc) in HA. rewrite (Hsame Qb Qc HQb HQc) in HB.
    set (R := sort_desc t_createdAt (arrange Qc F)) in HA, HB |- *.
    assert (Hw : forall a b, 0 <= a -> 0 <= b -> (0 <=? a) && (0 <=? b) = true).
    { intros a b Ha Hb. apply andb_true_iff. split; apply Z.leb_le; assumption. }
    rewrite Hw in HA, HB |- * by lia.
    inversion HA; subst pageA. inversion HB; subst pageB.
    rewrite !Z2Nat.inj_add by lia.
    rewrite <- skipn_skipn_add, firstn_then_next. reflexivity.
Qed.

Lemma In_rows (m : gmap string Wallet) (w : Wallet) :
  In w (List.map snd (map_to_list m)) <-> exists id, m !! id = Some w.
Proof.
  rewrite in_map_iff. split.
  - intros ([id w0] & Heq & Hin). cbn in Heq. subst w0.
    exists id. apply elem_of_map_to_list, list_elem_of_In. exact Hin.
  - intros (id & Hw). exists (id, w). split; [reflexivity|].
    apply list_elem_of_In, elem_of_map_to_list. exact Hw.
Qed.

Lemma findByUserId_rows E userId s :
  exists ws,
    findByUserId E userId s = (Ok ws, s)
    /\ newest_first w_createdAt ws
    /\ forall w, In w ws <->
                 (exists id, wallets (main s) !! id = Some w) /\ w_userId w = userId
                 /\ (softDeleteMiddleware E = true -> w_deletedAt w = None).
Proof.
  unfold findByUserId, prisma_wallet_findMany_userId. eexists.
  split; [reflexivity|]. split; [apply sort_desc_sorted|].
  intros w. rewrite sort_desc_In, filter_In, In_rows, andb_true_iff, String.eqb_eq.
  destruct (softDeleteMiddleware E); [destruct (w_deletedAt w)|]; intuition congruence.
Qed.

(** X9.  GET /users/:userId/wallets is answered exactly for the user
    themselves and for holders of the role ADMIN (SUPER_ADMIN alone is
    refused); the answer lists all rows of that user and only those, newest
    first, without the soft-deleted rows when the middleware is installed;
    anyone else gets the plain error 'Access denied'.  GET /wallets is the
    same listing for the caller.  Nothing is changed. *)
Theorem getUserWallets_access :
  forall (E : Env) (userId : string) (currentUser : User) (s : World),
    (userId = u_id currentUser \/ In ADMIN (u_roles currentUser) ->
     exists ws,
       UsersWalletsController_getUserWallets E userId currentUser s = (Replied ws, s)
       /\ newest_first w_createdAt ws
       /\ (forall w, In w ws <->
                     (exists id, wallets (main s) !! id = Some w)
                     /\ w_userId w = userId
                     /\ (softDeleteMiddleware E = true -> w_deletedAt w = None)))
    /\ (userId <> u_id currentUser -> ~ In ADMIN (u_roles currentUser) ->
        UsersWalletsController_getUserWallets E userId currentUser s
        = (Failed (PlainError "Access denied"), s))
    /\ WalletsController_findAll E currentUser s
       = UsersWalletsController_getUserWallets E (u_id currentUser) currentUser s.
Proof.
  intros E userId currentUser s.
  assert (Hadmin : existsb (Role_eqb ADMIN) (u_roles currentUser) = true
                   <-> In ADMIN (u_roles currentUser)).
  { rewrite existsb_exists. split.
    - intros (x & Hin & Hx). destruct x; cbn in Hx; congruence.
    - intros Hin. exists ADMIN. split; [exact Hin|reflexivity]. }
  unfold UsersWalletsController_getUserWallets, WalletsController_findAll.
  split; [|split].
  - intros Hallowed.
    assert (Hcheck : negb (String.eqb userId (u_id currentUser))
                     && negb (existsb (Role_eqb ADMIN) (u_roles currentUser)) = false).
    { destruct Hallowed as [->|Hin].
      - rewrite String.eqb_refl. reflexivity.
      - apply Hadmin in Hin. rewrite Hin. apply andb_false_r. }
    rewrite Hcheck. destruct (findByUserId_rows E userId s) as (ws & Hrun & Hs & Hin).
    exists ws. unfold await. rewrite Hrun. auto.
  - intros Hne Hno. apply String.eqb_neq in Hne. rewrite Hne.
    destruct (existsb (Role_eqb ADMIN) (u_roles currentUser)) eqn:Hex;
      [exfalso; apply Hno, Hadmin; reflexivity|reflexivity].
  - rewrite String.eqb_refl. reflexivity.
Qed.

(** ** The ownership checks of the controller *)

(** X10.  A caller who does not own the wallet cannot read or move it: when the
    wallet belongs to someone else, GET /wallets/:id, the summary, fund and
    withdraw throw the plain error 'Wallet not found' and DELETE throws the
    NotFoundException of the service; when there is no such wallet (or the
    middleware hides it) all five throw the NotFoundException.  In every
    case nothing is changed: no row, no entry, no audit row, no
    transaction begun. *)
Theorem controller_rejects_strangers :
  forall (E : Env) (JSNumber : Type) (Number : Z -> JSNumber) (id : string) (user : User)
         (fdto : FundWalletDto) (wdto : WithdrawWalletDto) (ip : string)
         (userAgent : option string) (s : World),
    validate_FundWalletDto fdto = true ->
    validate_WithdrawWalletDto wdto = true ->
    (forall w,
        soft_delete_filter E (wallets (main s) !! id) = Some w ->
        w_userId w <> u_id user ->
        WalletsController_findOne E id user s
        = (Failed (PlainError "Wallet not found"), s)
        /\ WalletsController_getSummary E Number id user s
           = (Failed (PlainError "Wallet not found"), s)
        /\ WalletsController_fund E id fdto user ip userAgent s
           = (Failed (PlainError "Wallet not found"), s)
        /\ WalletsController_withdraw E id wdto user ip userAgent s
           = (Failed (PlainError "Wallet not found"), s)
        /\ WalletsController_remove E id user ip userAgent s
           = (Failed (Raised (NotFoundException "Wallet not found")), s))
    /\ (soft_delete_filter E (wallets (main s) !! id) = None ->
        WalletsController_findOne E id user s
        = (Failed (Raised (NotFoundException "Wallet not found")), s)
        /\ WalletsController_getSummary E Number id user s
           = (Failed (Raised (NotFoundException "Wallet not found")), s)
        /\ WalletsController_fund E id fdto user ip userAgent s
           = (Failed (Raised (NotFoundException "Wallet not found")), s)
        /\ WalletsController_withdraw E id wdto user ip userAgent s
           = (Failed (Raised (NotFoundException "Wallet not found")), s)
        /\ WalletsController_remove E id user ip userAgent s
           = (Failed (Raised (NotFoundException "Wallet not found")), s)).
Proof.
  intros E JSNumber Number id user fdto wdto ip userAgent s Hf Hw.
  unfold WalletsController_findOne, WalletsController_getSummary,
    WalletsController_fund, WalletsController_withdraw, WalletsController_remove,
    delete_wallet, hbind, await, findByIdOrFail, findById, prisma_wallet_findUnique, bind.
  rewrite Hf, Hw. split.
  - intros w Hrow Hne. rewrite Hrow. unfold ret. cbv beta iota.
    apply String.eqb_neq in Hne. rewrite Hne. cbn [negb]. repeat split.
  - intros Hrow. rewrite Hrow. repeat split.
Qed.

(** ** Mutations of a wallet that is not there *)

Lemma mutate_not_found E id m u ip ua s :
  soft_delete_filter E (wallets (main s) !! id) = None ->
  mutate E id m u ip ua s
  = (Throw (NotFoundException "Wallet not found"), begin_state s).
Proof.
  intros Hrow. rewrite mutate_unfold. unfold executeWithRetry, MAX_RETRIES.
  rewrite retry_loop_step.
  destruct m as [dto|dto]; cbn [attempt];
    unfold prisma_transaction, fund_unit, withdraw_unit, bind, tx_wallet_findUnique;
    cbn [txv main]; rewrite Hrow; reflexivity.
Qed.

Lemma mutate_deleted E id m u ip ua s w t :
  soft_delete_filter E (wallets (main s) !! id) = Some w ->
  w_deletedAt w = Some t ->
  mutate E id m u ip ua s
  = (Throw (BadRequestException "Wallet has been deleted"), begin_state s).
Proof.
  intros Hrow Hdel. rewrite mutate_unfold. unfold executeWithRetry, MAX_RETRIES.
  rewrite retry_loop_step.
  destruct m as [dto|dto]; cbn [attempt];
    unfold prisma_transaction, fund_unit, withdraw_unit, bind, tx_wallet_findUnique;
    cbn [txv main]; rewrite Hrow, Hdel; reflexivity.
Qed.

(** X11.  [fund] and [withdraw] of a wallet that does not exist (or that the
    middleware hides) throw the NotFoundException 'Wallet not found', and of
    a wallet that bears the deletion marker the BadRequestException 'Wallet
    has been deleted'; both at the first attempt, without a retry, after one
    transaction that wrote nothing. *)
Theorem mutate_unavailable_wallet :
  forall (E : Env) (id : string) (m : Mutation) (u : string) (ip ua : option string)
         (s : World),
    (soft_delete_filter E (wallets (main s) !! id) = None ->
     mutate E id m u ip ua s
     = (Throw (NotFoundException "Wallet not found"), begin_state s))
    /\ (forall w t,
          soft_delete_filter E (wallets (main s) !! id) = Some w ->
          w_deletedAt w = Some t ->
          mutate E id m u ip ua s
          = (Throw (BadRequestException "Wallet has been deleted"), begin_state s))
    /\ main (begin_state s) = main s /\ auditLogs (begin_state s) = auditLogs s
    /\ timers (begin_state s) = timers s /\ begun (begin_state s) = S (begun s).
Proof.
  intros E id m u ip ua s. split; [|split; [|repeat split]].
  - apply mutate_not_found.
  - intros w t. apply mutate_deleted.
Qed.

(** ** Funding a quiet wallet *)

(** X12.  With no concurrent writer, a working audit table and a reference that
    is not taken, [fund] of an active wallet returns at its first attempt
    the row with the amount added and the version one higher; exactly that
    row is rewritten, exactly one CREDIT entry is appended to the ledger
    (with the balances before and after) and exactly one audit row. *)
Theorem fund_calm :
  forall (E : Env) (id : string) (dto : FundWalletDto) (u : string)
         (ip ua : option string) (s : World) (w : Wallet),
    calm E ->
    (forall n, reference_taken (reference_for E (f_reference dto) n) (main s) = false) ->
    wallets (main s) !! id = Some w ->
    w_deletedAt w = None ->
    exists s' r row,
      fund E id dto u ip ua s
      = (Ok (Some (written w (w_balance w + f_amount dto) (now E (tick s)))), s')
      /\ wallets (main s')
         = <[id := written w (w_balance w + f_amount dto) (now E (tick s))]>
             (wallets (main s))
      /\ transactions (main s') = (transactions (main s) ++ [r])%list
      /\ t_walletId r = id /\ t_type r = CREDIT /\ t_amount r = f_amount dto
      /\ t_balanceBefore r = w_balance w
      /\ t_balanceAfter r = w_balance w + f_amount dto
      /\ t_performedByUserId r = u
      /\ (exists n, t_reference r = reference_for E (f_reference dto) n)
      /\ auditLogs s' = (auditLogs s ++ [row])%list
      /\ wallet_update_row id u "FUND" row
      /\ begun s' = S (begun s) /\ timers s' = timers s.
Proof.
  intros E id dto u ip ua s w [Hq Ha] Href Hw Hdel.
  unfold fund, executeWithRetry, MAX_RETRIES. rewrite retry_loop_step.
  unfold prisma_transaction, fund_unit, bind, tx_wallet_findUnique, new_Date,
    tx_wallet_updateMany, bind, absorb_concurrent, TransactionsService_create,
    tx_transaction_create, AuditService_log, try_catch, bind, prisma_auditLog_create.
  cbn [txv main]. rewrite Hw, (soft_delete_filter_active E w Hdel), Hdel.
  cbn. rewrite !Hq, Hw, Z.eqb_refl. cbn.
  unfold reference_taken in Href. unfold reference_taken.
  destruct (truthy (f_reference dto)) as [ref|] eqn:Hr; cbn.
  - pose proof (Href 0%nat) as Hfree. unfold reference_for in Hfree.
    rewrite Hr in Hfree. rewrite Hfree. cbn. rewrite Ha. cbn.
    rewrite lookup_insert_eq, soft_delete_filter_active by exact Hdel.
    do 3 eexists. split; [reflexivity|]. cbn.
    repeat split; try reflexivity.
    + exists 0%nat. unfold reference_for. rewrite Hr. reflexivity.
    + eexists. reflexivity.
  - pose proof (Href (S (S (tick s)))) as Hfree. unfold reference_for in Hfree.
    rewrite Hr in Hfree. rewrite Hfree. cbn. rewrite Ha. cbn.
    rewrite lookup_insert_eq, soft_delete_filter_active by exact Hdel.
    do 3 eexists. split; [reflexivity|]. cbn.
    repeat split; try reflexivity.
    + exists (S (S (tick s))). unfold reference_for. rewrite Hr. reflexivity.
    + eexists. reflexivity.
Qed.

(** ** The audit trail *)

Lemma audits_nothing_ret {A} (a : A) : audits_nothing (ret a).
Proof. intros s r s' H. inversion H; reflexivity. Qed.

Lemma audits_nothing_throw {A} e : audits_nothing (@throw A e).
Proof. intros s r s' H. inversion H; reflexivity. Qed.

Lemma audits_nothing_bind {A B} (c : M A) (k : A -> M B) :
  audits_nothing c -> (forall a, audits_nothing (k a)) -> audits_nothing (bind c k).
Proof.
  intros Hc Hk s r s' H. unfold bind in H.
  destruct (c s) as [[a|e] s1] eqn:Hcs.
  - rewrite (Hk a s1 r s' H). exact (Hc s _ s1 Hcs).
  - inversion H; subst. exact (Hc s _ s' Hcs).
Qed.

Lemma audits_nothing_tx_wallet_findUnique E id : audits_nothing (tx_wallet_findUnique E id).
Proof. intros s r s' H. inversion H; reflexivity. Qed.

Lemma audits_nothing_new_Date E : audits_nothing (new_Date E).
Proof. intros s r s' H. inversion H; reflexivity. Qed.

Lemma audits_nothing_generateTransactionReference E :
  audits_nothing (generateTransactionReference E).
Proof. intros s r s' H. inversion H; reflexivity. Qed.

Lemma audits_nothing_tx_wallet_updateMany E id version balance updatedAt :
  audits_nothing (tx_wallet_updateMany E id version balance updatedAt).
Proof.
  intros s r s'. unfold tx_wallet_updateMany, bind, absorb_concurrent. cbn.
  destruct (wallets (concurrent E (tick s) (txv s)) !! id) as [w1|];
    [destruct (w_version w1 =? version)|]; intros H; inversion H; reflexivity.
Qed.

Lemma audits_nothing_TransactionsService_create E dto :
  audits_nothing (TransactionsService_create E dto).
Proof.
  intros s r s'. unfold TransactionsService_create, tx_transaction_create.
  destruct (reference_taken (ct_reference dto) (txv s));
    intros H; inversion H; reflexivity.
Qed.

Lemma audits_once_throw P {A} e : audits_once P (@throw A e).
Proof. intros s r s' H. inversion H; reflexivity. Qed.

Lemma audits_once_bind P {A B} (c : M A) (k : A -> M B) :
  audits_nothing c -> (forall a, audits_once P (k a)) -> audits_once P (bind c k).
Proof.
  intros Hc Hk s r s' H. unfold bind in H.
  destruct (c s) as [[a|e] s1] eqn:Hcs.
  - pose proof (Hk a s1 r s' H) as Hr. rewrite (Hc s _ s1 Hcs) in Hr. exact Hr.
  - inversion H; subst. exact (Hc s _ s' Hcs).
Qed.

Lemma audits_once_then_ret P {A B} (c : M A) (b : B) :
  audits_once P c -> audits_once P (bind c (fun _ => ret b)).
Proof.
  intros Hc s r s' H. unfold bind in H.
  destruct (c s) as [[a|e] s1] eqn:Hcs; inversion H; subst; exact (Hc s _ _ Hcs).
Qed.

Lemma audits_once_AuditService_log E dto (P : AuditLog -> Prop) :
  (forall i t, P (mkAuditLog i (al_actorUserId dto) (al_entity dto) (al_entityId dto)
                             (al_action dto) (al_changes dto) (al_ip dto)
                             (al_userAgent dto) t)) ->
  audits_once P (AuditService_log E dto).
Proof.
  intros HP s r s'.
  unfold AuditService_log, try_catch, bind, prisma_auditLog_create, logger_log, ret, throw.
  destruct (auditFailure E (tick s)); cbn; intros H; inversion H; subst; cbn;
    [reflexivity|]. eexists. split; [reflexivity|]. apply HP.
Qed.

Lemma audits_once_prisma_transaction P {A} (c : M A) :
  audits_once P c -> audits_once P (prisma_transaction c).
Proof.
  intros Hc s r s' H. unfold prisma_transaction in H.
  destruct (c _) as [[a|e] s1] eqn:Hcs; inversion H; subst;
    exact (Hc _ _ _ Hcs).
Qed.

Lemma audits_once_fund_unit E id dto u ip ua :
  audits_once (wallet_update_row id u "FUND") (fund_unit E id dto u ip ua).
Proof.
  unfold fund_unit.
  apply audits_once_bind; [apply audits_nothing_tx_wallet_findUnique|].
  intros [w|]; [|apply audits_once_throw].
  destruct (w_deletedAt w); [apply audits_once_throw|]. cbv zeta.
  apply audits_once_bind; [apply audits_nothing_new_Date|]. intros updatedAt.
  apply audits_once_bind; [apply audits_nothing_tx_wallet_updateMany|]. intros count.
  destruct (count =? 0)%nat; [apply audits_once_throw|].
  apply audits_once_bind.
  { destruct (truthy (f_reference dto));
      [apply audits_nothing_ret|apply audits_nothing_generateTransactionReference]. }
  intros reference.
  apply audits_once_bind; [apply audits_nothing_TransactionsService_create|]. intros _.
  apply audits_once_bind; [apply audits_nothing_tx_wallet_findUnique|]. intros updated.
  apply audits_once_then_ret. apply audits_once_AuditService_log.
  intros i t. cbn. repeat split. eexists. reflexivity.
Qed.

Lemma audits_once_withdraw_unit E id dto u ip ua :
  audits_once (wallet_update_row id u "WITHDRAW") (withdraw_unit E id dto u ip ua).
Proof.
  unfold withdraw_unit.
  apply audits_once_bind; [apply audits_nothing_tx_wallet_findUnique|].
  intros [w|]; [|apply audits_once_throw].
  destruct (w_deletedAt w); [apply audits_once_throw|]. cbv zeta.
  destruct (w_balance w - wd_amount dto <? 0); [apply audits_once_throw|].
  apply audits_once_bind; [apply audits_nothing_new_Date|]. intros updatedAt.
  apply audits_once_bind; [apply audits_nothing_tx_wallet_updateMany|]. intros count.
  destruct (count =? 0)%nat; [apply audits_once_throw|].
  apply audits_once_bind.
  { destruct (truthy (wd_reference dto));
      [apply audits_nothing_ret|apply audits_nothing_generateTransactionReference]. }
  intros reference.
  apply audits_once_bind; [apply audits_nothing_TransactionsService_create|]. intros _.
  apply audits_once_bind; [apply audits_nothing_tx_wallet_findUnique|]. intros updated.
  apply audits_once_then_ret. apply audits_once_AuditService_log.
  intros i t. cbn. repeat split. eexists. reflexivity.
Qed.

(** What the attempts that failed have in common, and the attempt that
    returned. *)
Lemma retry_loop_outcome {T} (operation : M T) (Q : World -> World -> Prop) :
  (forall s, Q s s) ->
  (forall s1 s2 s3, Q s1 s2 -> Q s2 s3 -> Q s1 s3) ->
  (forall retries attempt s, Q s (backoff_state retries attempt s)) ->
  (forall retries s, Q s (give_up_state retries s)) ->
  (forall s e s', operation s = (Throw e, s') -> Q s s') ->
  forall retries fuel attempt s r s',
    retry_loop operation retries attempt fuel s = (r, s') ->
    match r with
    | Throw _ => Q s s'
    | Ok v => exists sa, Q s sa /\ operation sa = (Ok v, s')
    end.
Proof.
  intros Hrefl Htrans Hback Hgive Hthrow retries fuel.
  induction fuel as [|fuel IH]; intros attempt s r s' H.
  - rewrite retry_loop_exhausted in H. inversion H; subst. apply Hgive.
  - rewrite retry_loop_step in H.
    destruct (operation s) as [[v|e] s1] eqn:Hop.
    + inversion H; subst. exists s. split; [apply Hrefl|exact Hop].
    + pose proof (Hthrow s e s1 Hop) as Hq.
      destruct (is_concurrent_modification e).
      * apply IH in H. destruct r as [v|e'].
        -- destruct H as (sa & Hsa & Hrun). exists sa. split; [|exact Hrun].
           eapply Htrans; [exact Hq|]. eapply Htrans; [apply Hback|exact Hsa].
        -- eapply Htrans; [exact Hq|]. eapply Htrans; [apply Hback|exact H].
      * inversion H; subst. exact Hq.
Qed.

(** X13.  The audit trail has exactly one row per balance change: a [fund] or
    [withdraw] that returns has appended one audit row (action UPDATE on
    entity Wallet, the wallet's id, the acting user, the operation), however
    many attempts it took; one that throws has appended none; rows already
    there are never touched. *)
Theorem mutate_audit_trail :
  forall (E : Env) (id : string) (m : Mutation) (u : string) (ip ua : option string)
         (s : World) (r : Result (option Wallet)) (s' : World),
    mutate E id m u ip ua s = (r, s') ->
    match r with
    | Ok _ =>
        exists row,
          auditLogs s' = (auditLogs s ++ [row])%list
          /\ wallet_update_row id u
               (match m with inl _ => "FUND" | inr _ => "WITHDRAW" end) row
    | Throw _ => auditLogs s' = auditLogs s
    end.
Proof.
  intros E id m u ip ua s r s' H.
  assert (Hattempt : audits_once
                       (wallet_update_row id u
                          (match m with inl _ => "FUND" | inr _ => "WITHDRAW" end))
                       (attempt E id m u ip ua)).
  { destruct m as [dto|dto]; cbn [attempt]; apply audits_once_prisma_transaction;
      [apply audits_once_fund_unit|apply audits_once_withdraw_unit]. }
  rewrite mutate_unfold in H. unfold executeWithRetry in H.
  apply (retry_loop_outcome _ (fun s s' => auditLogs s' = auditLogs s)) in H.
  - destruct r as [v|e]; [|exact H].
    destruct H as (sa & Hsa & Hrun). apply Hattempt in Hrun. rewrite Hsa in Hrun.
    exact Hrun.
  - reflexivity.
  - intros s1 s2 s3 H1 H2. congruence.
  - reflexivity.
  - reflexivity.
  - intros s0 e s0' Hrun. exact (Hattempt s0 _ s0' Hrun).
Qed.

Lemma mutate_audit_trail_witness :
  exists row s',
    snd (mutate busy_env "wallet-a" (inl (mkFundWalletDto 25000 None None None))
                "alice" None None settled_world) = s'
    /\ auditLogs s' = [row]
    /\ wallet_update_row "wallet-a" "alice" "FUND" row.
Proof.
  pose proof (mutate_audit_trail busy_env "wallet-a"
                (inl (mkFundWalletDto 25000 None None None)) "alice" None None
                settled_world
                (fst (mutate busy_env "wallet-a"
                             (inl (mkFundWalletDto 25000 None None None))
                             "alice" None None settled_world))
                (snd (mutate busy_env "wallet-a"
                             (inl (mkFundWalletDto 25000 None None None))
                             "alice" None None settled_world))
                (surjective_pairing _)) as H.
  assert (Hok : exists v, fst (mutate busy_env "wallet-a"
                                      (inl (mkFundWalletDto 25000 None None None))
                                      "alice" None None settled_world) = Ok v)
    by (eexists; vm_compute; reflexivity).
  destruct Hok as (v & Hok). rewrite Hok in H. destruct H as (row & Hlogs & Hrow).
  exists row. eexists. split; [reflexivity|]. split; [exact Hlogs|exact Hrow].
Defined.

(** ** Transfers *)

Lemma audits_nothing_tx_wallet_update E id delta : audits_nothing (tx_wallet_update E id delta).
Proof.
  intros s r s'. unfold tx_wallet_update.
  destruct (wallets (txv s) !! id); intros H; inversion H; reflexivity.
Qed.

Lemma audits_nothing_prisma_transaction {A} (c : M A) :
  audits_nothing c -> audits_nothing (prisma_transaction c).
Proof.
  intros Hc s r s' H. unfold prisma_transaction in H.
  destruct (c _) as [[a|e] s1] eqn:Hcs; inversion H; subst; exact (Hc _ _ _ Hcs).
Qed.

Lemma audits_nothing_transfer E from to amount u d :
  audits_nothing (transfer E from to amount u d).
Proof.
  unfold transfer. apply audits_nothing_prisma_transaction. unfold transfer_unit.
  apply audits_nothing_bind; [apply audits_nothing_ret|]. intros _.
  apply audits_nothing_bind; [apply audits_nothing_tx_wallet_findUnique|]. intros [fw|];
    (apply audits_nothing_bind; [apply audits_nothing_tx_wallet_findUnique|]);
    intros [tw|]; try apply audits_nothing_throw.
  destruct (negb _); [apply audits_nothing_throw|]. cbv zeta.
  destruct (w_balance fw <? amount); [apply audits_nothing_throw|].
  apply audits_nothing_bind; [apply audits_nothing_generateTransactionReference|].
  intros reference.
  apply audits_nothing_bind; [apply audits_nothing_tx_wallet_update|]. intros _.
  apply audits_nothing_bind; [apply audits_nothing_TransactionsService_create|]. intros _.
  apply audits_nothing_bind; [apply audits_nothing_tx_wallet_update|]. intros _.
  apply audits_nothing_bind; [apply audits_nothing_TransactionsService_create|]. intros _.
  apply audits_nothing_bind; [apply audits_nothing_tx_wallet_findUnique|]. intros uf.
  apply audits_nothing_bind; [apply audits_nothing_tx_wallet_findUnique|]. intros ut.
  apply audits_nothing_ret.
Qed.

(** X14.  A [transfer] that returns moves the amount and nothing else: between
    two different wallets the source loses what the destination gains (so
    their sum is unchanged) and both versions go up by one; a transfer of a
    wallet to itself leaves its balance and takes the version up by two;
    every other row is untouched; the rows returned are the committed ones.
    Unlike [fund] and [withdraw], [transfer] writes no audit row, whatever
    its outcome. *)
Theorem transfer_conserves_money :
  forall (E : Env) (from to : string) (amount : Z) (u : string) (d : option string)
         (s : World) (r : Result (option Wallet * option Wallet)) (s' : World),
    transfer E from to amount u d s = (r, s') ->
    auditLogs s' = auditLogs s
    /\ forall v, r = Ok v ->
         (exists fw tw fw' tw',
             wallets (main s) !! from = Some fw /\ wallets (main s) !! to = Some tw
             /\ wallets (main s') !! from = Some fw'
             /\ wallets (main s') !! to = Some tw'
             /\ v = (soft_delete_filter E (Some fw'), soft_delete_filter E (Some tw'))
             /\ (from <> to ->
                 w_balance fw' = w_balance fw - amount
                 /\ w_balance tw' = w_balance tw + amount
                 /\ w_balance fw' + w_balance tw' = w_balance fw + w_balance tw
                 /\ w_version fw' = w_version fw + 1
                 /\ w_version tw' = w_version tw + 1)
             /\ (from = to ->
                 w_balance fw' = w_balance fw /\ w_version fw' = w_version fw + 2))
         /\ (forall id, id <> from -> id <> to ->
                        wallets (main s') !! id = wallets (main s) !! id).
Proof.
  intros E from to amount u d s r s' H.
  split; [exact (audits_nothing_transfer E from to amount u d s r s' H)|].
  intros v ->. pose proof (transfer_commit E from to amount u d s v s' H) as Hc.
  apply transfer_commit_entries in H
      as (fw & tw0 & out & inn & t1 & t2 & Hfw & Htw0 & Hws & _ & _ & _ & _
          & _ & _ & _ & _ & _ & Hv).
  destruct Hc as (fw2 & tw & tw1 & stem & out1 & inn1 & t3 & t4 & Hfw2 & Htw & _).
  rewrite Hfw in Hfw2. inversion Hfw2; subst fw2; clear Hfw2.
  split.
  - destruct (decide (from = to)) as [->|Hne].
    + rewrite lookup_insert_eq in Htw0. inversion Htw0; subst tw0.
      assert (tw = fw) by congruence. subst tw.
      exists fw, fw, (moved (moved fw (- amount) t1) amount t2),
        (moved (moved fw (- amount) t1) amount t2).
      rewrite Hws, !lookup_insert_eq in Hv |- *.
      repeat split; auto; try congruence; cbn; lia.
    + rewrite lookup_insert_ne in Htw0 by exact Hne.
      assert (tw0 = tw) by congruence. subst tw0.
      exists fw, tw, (moved fw (- amount) t1), (moved tw amount t2).
      rewrite Hws in Hv |- *.
      rewrite lookup_insert_eq, lookup_insert_ne, lookup_insert_eq in Hv |- * by congruence.
      repeat split; auto; try congruence; cbn; lia.
  - intros id Hf Ht. rewrite Hws, !lookup_insert_ne by congruence. reflexivity.
Qed.

(** ** Versions guard the balances *)

Lemma monotone_refl t : monotone t t.
Proof. intros id w Hw. exists w. repeat split; [exact Hw|lia]. Qed.

Lemma monotone_trans t1 t2 t3 : monotone t1 t2 -> monotone t2 t3 -> monotone t1 t3.
Proof.
  intros H12 H23 id w Hw.
  destruct (H12 id w Hw) as (w2 & Hw2 & Hv2 & Hb2).
  destruct (H23 id w2 Hw2) as (w3 & Hw3 & Hv3 & Hb3).
  exists w3. split; [exact Hw3|]. split; [lia|].
  intros Hv. rewrite Hb3, Hb2 by lia. reflexivity.
Qed.

Lemma monotone_env_steps E t t' :
  (forall n x, monotone x (concurrent E n x)) -> env_steps E t t' -> monotone t t'.
Proof.
  intros Hm Hsteps. induction Hsteps as [|t t' n _ IH]; [apply monotone_refl|].
  eapply monotone_trans; [exact IH|apply Hm].
Qed.

Lemma monotone_rewrite t ws ts id w w' :
  wallets t !! id = Some w ->
  w_version w < w_version w' ->
  ws = <[id := w']> (wallets t) ->
  monotone t (mkTables ws ts).
Proof.
  intros Hw Hv -> id0 w0 Hw0. cbn [wallets].
  destruct (decide (id0 = id)) as [->|Hne].
  - exists w'. rewrite lookup_insert_eq. assert (w0 = w) by congruence. subst w0.
    repeat split; lia.
  - exists w0. rewrite lookup_insert_ne by congruence. repeat split; [exact Hw0|lia].
Qed.

Lemma monotone_attempt E id m u ip ua s r s' :
  (forall n x, monotone x (concurrent E n x)) ->
  attempt E id m u ip ua s = (r, s') ->
  monotone (main s) (main s').
Proof.
  intros Hm H. destruct r as [v|e].
  - assert (Hcommit : exists type amount delta o w,
               committed_attempt E id type amount delta o w s s').
    { destruct m as [dto|dto]; cbn in H.
      - apply fund_attempt_commit in H as (w & H). eauto 6.
      - apply withdraw_attempt_commit in H as (w & H & _). eauto 6. }
    destruct Hcommit as (type & amount & delta & o & w & w1 & updatedAt & rec & Hw & _
                         & Hw1 & Hver & Hws & _).
    eapply monotone_trans; [apply (Hm (S (tick s)) (main s))|]. fold (seen E s).
    destruct (main s') as [ws ts]. cbn in Hws.
    apply (monotone_rewrite (seen E s) ws ts id w1
             (written w1 (w_balance w + delta) updatedAt) Hw1); [cbn; lia|exact Hws].
  - apply attempt_rollback in H as (_ & _ & Hsteps).
    exact (monotone_env_steps E _ _ Hm Hsteps).
Qed.

Lemma mutate_monotone E id m u ip ua s r s' :
  (forall n x, monotone x (concurrent E n x)) ->
  mutate E id m u ip ua s = (r, s') -> monotone (main s) (main s').
Proof.
  intros Hm H.
  rewrite mutate_unfold in H. unfold executeWithRetry in H. revert H.
  apply (retry_loop_respects (attempt E id m u ip ua)
           (fun s s' => monotone (main s) (main s'))).
  - intros s0. apply monotone_refl.
  - intros s1 s2 s3. apply monotone_trans.
  - intros retries attempt0 s0. apply monotone_refl.
  - intros retries s0. apply monotone_refl.
  - intros s0 r0 s0' H0. exact (monotone_attempt E id m u ip ua s0 r0 s0' Hm H0).
Qed.

Lemma transfer_monotone E from to amount u d s r s' :
  transfer E from to amount u d s = (r, s') -> monotone (main s) (main s').
Proof.
  intros H. destruct r as [v|e].
  - apply transfer_commit_entries in H
      as (fw & tw0 & out & inn & t1 & t2 & Hfw & Htw0 & Hws & _).
    eapply monotone_trans.
    + apply (monotone_rewrite (main s)
               (<[from := moved fw (- amount) t1]> (wallets (main s)))
               (transactions (main s)) from fw
               (moved fw (- amount) t1) Hfw); [cbn; lia|reflexivity].
    + destruct (main s') as [ws ts]. cbn in Hws.
      apply (monotone_rewrite
               (mkTables (<[from := moved fw (- amount) t1]> (wallets (main s)))
                         (transactions (main s)))
               ws ts to tw0 (moved tw0 amount t2));
        [exact Htw0|cbn; lia|exact Hws].
  - apply transfer_rollback in H as (-> & _). apply monotone_refl.
Qed.

Lemma create_monotone E userId dto ip ua s r s' :
  create E userId dto ip ua s = (r, s') -> monotone (main s) (main s').
Proof.
  intros H. unfold create, bind in H.
  assert (Hnew : forall s1 r1,
             prisma_wallet_create E (c_name dto) (toUpperCase (c_currency dto))
                                  userId 0 0 s = (r1, s1) ->
             monotone (main s) (main s1)).
  { intros s1 r1 Hc.
    apply prisma_wallet_create_inv in Hc as [->|(w0 & Hnone & _ & ->)];
      [apply monotone_refl|].
    intros id w Hw. exists w. cbn.
    rewrite lookup_insert_ne by congruence. repeat split; [exact Hw|lia]. }
  destruct (prisma_wallet_create E _ _ _ 0 0 s) as [[w|e] s1] eqn:Hcreate.
  - specialize (Hnew s1 _ eq_refl).
    destruct (AuditService_log E _ s1) as [[al|e] s2] eqn:Haudit;
      apply AuditService_log_inv in Haudit as (Hmain & _);
      inversion H; subst; rewrite Hmain; exact Hnew.
  - inversion H; subst. exact (Hnew s' _ eq_refl).
Qed.

(** X15.  The version column guards the balance: across a [fund], a [withdraw]
    (whatever their outcome and number of attempts, given that the other
    writers do the same), a [transfer] or a [create], no row disappears, no
    version goes down, and a row whose version is unchanged has its balance
    unchanged.  So the optimistic lock of [fund] and [withdraw], which only
    compares versions, cannot miss a balance change made by these
    operations. *)
Theorem versions_guard_balances :
  forall (E : Env) (s : World),
    (forall id m u ip ua r s',
        (forall n x, monotone x (concurrent E n x)) ->
        mutate E id m u ip ua s = (r, s') -> monotone (main s) (main s'))
    /\ (forall from to amount u d r s',
          transfer E from to amount u d s = (r, s') -> monotone (main s) (main s'))
    /\ (forall userId dto ip ua r s',
          create E userId dto ip ua s = (r, s') -> monotone (main s) (main s')).
Proof.
  intros E s. split; [|split].
  - intros id m u ip ua r s'. apply mutate_monotone.
  - intros from to amount u d r s'. apply transfer_monotone.
  - intros userId dto ip ua r s'. apply create_monotone.
Qed.

(** ** AuditService.generateDiff *)

Lemma existsb_eqb_In k l : existsb (String.eqb k) l = true <-> In k l.
Proof.
  rewrite existsb_exists. split.
  - intros (x & Hin & Heq). apply String.eqb_eq in Heq. subst. exact Hin.
  - intros Hin. exists k. split; [exact Hin|apply String.eqb_refl].
Qed.

Lemma Set_of_In seen l k : In k (Set_of seen l) <-> In k l /\ ~ In k seen.
Proof.
  revert seen. induction l as [|x l IH]; intros seen; cbn; [tauto|].
  destruct (existsb (String.eqb x) seen) eqn:Hx.
  - apply existsb_eqb_In in Hx. rewrite IH. split.
    + tauto.
    + intros [[<-|Hin] Hno]; [contradiction|tauto].
  - assert (Hx' : ~ In x seen).
    { intros Hin. apply existsb_eqb_In in Hin. congruence. }
    cbn. rewrite IH. cbn. split.
    + intros [<-|(Hin & Hno)]; [tauto|]. split; [tauto|]. intros Hk. apply Hno. tauto.
    + intros [[<-|Hin] Hno]; [tauto|].
      destruct (String.eqb x k) eqn:Hxk.
      * apply String.eqb_eq in Hxk. tauto.
      * apply String.eqb_neq in Hxk. right. split; [exact Hin|]. intros [?|?]; tauto.
Qed.

Lemma Set_of_NoDup seen l : NoDup (Set_of seen l).
Proof.
  revert seen. induction l as [|x l IH]; intros seen; cbn; [constructor|].
  destruct (existsb (String.eqb x) seen); [apply IH|].
  apply NoDup_cons. split; [|apply IH].
  intros Hin. apply list_elem_of_In, Set_of_In in Hin as [_ Hno]. apply Hno. left. reflexivity.
Qed.

Lemma option_string_eqb_eq a b : option_string_eqb a b = true <-> a = b.
Proof.
  destruct a as [x|], b as [y|]; cbn; try (split; congruence).
  rewrite String.eqb_eq. split; congruence.
Qed.

Section DiffProperties.

Variable V : Type.
Variable JSON_stringify : V -> option string.

Lemma diff_loop_In (before after : Obj V) allKeys k v :
  In (k, v) (diff_loop JSON_stringify before after allKeys) <->
  In k allKeys /\ ~ In k excludeFields
  /\ v = (get before k, get after k)
  /\ stringify JSON_stringify (get before k) <> stringify JSON_stringify (get after k).
Proof.
  induction allKeys as [|key rest IH]; cbn [diff_loop In]; [tauto|].
  destruct (existsb (String.eqb key) excludeFields) eqn:Hex.
  - apply existsb_eqb_In in Hex. rewrite IH. split; [tauto|].
    intros ([<-|Hin] & Hno & Hrest); [contradiction|tauto].
  - assert (Hex' : ~ In key excludeFields).
    { intros Hin. apply existsb_eqb_In in Hin. congruence. }
    cbv zeta.
    destruct (option_string_eqb (stringify JSON_stringify (get before key))
                                (stringify JSON_stringify (get after key))) eqn:Hsame;
      cbn [negb].
    + apply option_string_eqb_eq in Hsame. rewrite IH. split; [tauto|].
      intros ([<-|Hin] & Hno & Hv & Hdiff); [contradiction|tauto].
    + assert (Hdiff : stringify JSON_stringify (get before key)
                      <> stringify JSON_stringify (get after key)).
      { intros Heq. apply option_string_eqb_eq in Heq. congruence. }
      cbn [In]. rewrite IH. split.
      * intros [Heq|H]; [inversion Heq; subst; tauto|tauto].
      * intros ([<-|Hin] & Hno & -> & Hd); [left; reflexivity|right; tauto].
Qed.

Lemma diff_loop_keys (before after : Obj V) allKeys :
  NoDup allKeys ->
  NoDup (List.map fst (diff_loop JSON_stringify before after allKeys)).
Proof.
  induction allKeys as [|key rest IH]; cbn [diff_loop]; intros Hnd; [constructor|].
  apply NoDup_cons in Hnd as [Hkey Hnd].
  destruct (existsb (String.eqb key) excludeFields); [auto|]. cbv zeta.
  destruct (negb _); [|auto]. cbn. apply NoDup_cons. split; [|auto].
  intros Hin. apply Hkey. apply list_elem_of_In in Hin. apply list_elem_of_In.
  apply in_map_iff in Hin as ([k v] & Hk & Hin). cbn in Hk. subst k.
  apply diff_loop_In in Hin. tauto.
Qed.

(** X16.  [generateDiff] lists exactly the keys of either object whose JSON
    texts differ, each once, with the old and the new value; it never
    lists passwordHash, tokenHash or secret, whatever happened to them; the
    diff of an object with itself is empty; and the diff in the other
    direction has the same keys with old and new exchanged. *)
Theorem generateDiff_sound_and_complete :
  forall (before after : Obj V),
    (forall k v,
        In (k, v) (generateDiff JSON_stringify before after) <->
        (In k (keys before) \/ In k (keys after))
        /\ ~ In k ["passwordHash"; "tokenHash"; "secret"]
        /\ v = (get before k, get after k)
        /\ stringify JSON_stringify (get before k)
           <> stringify JSON_stringify (get after k))
    /\ NoDup (List.map fst (generateDiff JSON_stringify before after))
    /\ generateDiff JSON_stringify before before = []
    /\ (forall k old new,
          In (k, (old, new)) (generateDiff JSON_stringify before after) <->
          In (k, (new, old)) (generateDiff JSON_stringify after before)).
Proof.
  intros before after.
  assert (Hin : forall a b k v,
             In (k, v) (generateDiff JSON_stringify a b) <->
             (In k (keys a) \/ In k (keys b))
             /\ ~ In k excludeFields
             /\ v = (get a k, get b k)
             /\ stringify JSON_stringify (get a k) <> stringify JSON_stringify (get b k)).
  { intros a b k v. unfold generateDiff. rewrite diff_loop_In, Set_of_In, in_app_iff.
    cbn [In]. tauto. }
  split; [exact (Hin before after)|]. split; [|split].
  - unfold generateDiff. apply diff_loop_keys, Set_of_NoDup.
  - destruct (generateDiff JSON_stringify before before) as [|[k v] l] eqn:Hd;
      [reflexivity|].
    assert (Hk : In (k, v) (generateDiff JSON_stringify before before))
      by (rewrite Hd; left; reflexivity).
    apply Hin in Hk as (_ & _ & _ & Hne). congruence.
  - intros k old new. rewrite !Hin. split.
    + intros (Hk & Hno & Hv & Hne). inversion Hv; subst.
      repeat split; [tauto|exact Hno|congruence].
    + intros (Hk & Hno & Hv & Hne). inversion Hv; subst.
      repeat split; [tauto|exact Hno|congruence].
Qed.

End DiffProperties.

(** ** After a deletion *)

Lemma delete_wallet_ok_inv E id userId ip ua s s' :
  delete_wallet E id userId ip ua s = (Ok tt, s') ->
  exists w,
    soft_delete_filter E (wallets (main s) !! id) = Some w
    /\ w_userId w = userId
    /\ main s'
       = if softDeleteMiddleware E
         then put_wallet id
                (mkWallet (w_id w) (w_name w) (w_currency w) (w_balance w) (w_version w)
                          (w_userId w) (w_createdAt w) (now E (tick s))
                          (Some (now E (tick s))))
                (main s)
         else mkTables (delete id (wallets (main s)))
                       (List.filter (fun r => negb (String.eqb (t_walletId r) id))
                                    (transactions (main s))).
Proof.
  intros H.
  unfold delete_wallet, findByIdOrFail, findById, prisma_wallet_findUnique, bind in H.
  destruct (soft_delete_filter E (wallets (main s) !! id)) as [w|] eqn:Hsf;
    [|inversion H].
  cbn in H. destruct (negb (w_userId w =? userId)%string) eqn:Hown; [inversion H|].
  apply negb_false_iff, String.eqb_eq in Hown.
  destruct (prisma_wallet_delete E id s) as [[w'|e] s1] eqn:Hdel; [|inversion H].
  destruct (AuditService_log E _ s1) as [[al|e] s2] eqn:Haudit; [|inversion H].
  apply AuditService_log_inv in Haudit as (Hm & _).
  inversion H; subst s2; clear H.
  exists w. split; [reflexivity|]. split; [exact Hown|]. rewrite Hm.
  unfold prisma_wallet_delete in Hdel.
  rewrite (soft_delete_filter_Some E _ w Hsf) in Hdel.
  destruct (softDeleteMiddleware E); inversion Hdel; subst; reflexivity.
Qed.

(** X17.  Once [delete] has returned, the wallet is out of reach with either
    PrismaService: the lookups of the service no longer see it, so
    [findByIdOrFail], [fund], [withdraw] and a second [delete] throw 'Wallet
    not found' and a [transfer] from it throws 'One or both wallets not
    found', all without changing the tables.  With the soft-delete
    middleware the marked row still holds its (owner, name, currency) in the
    unique index: creating a wallet of that name and currency again fails
    with P2002. *)
Theorem deleted_wallet_unreachable :
  forall (E : Env) (id userId : string) (ip ua : option string) (s s' : World),
    delete_wallet E id userId ip ua s = (Ok tt, s') ->
    findByIdOrFail E id s' = (Throw (NotFoundException "Wallet not found"), s')
    /\ (forall m u ip0 ua0,
          mutate E id m u ip0 ua0 s'
          = (Throw (NotFoundException "Wallet not found"), begin_state s'))
    /\ (forall userId0 ip0 ua0,
          delete_wallet E id userId0 ip0 ua0 s'
          = (Throw (NotFoundException "Wallet not found"), s'))
    /\ (forall to amount u d,
          exists s'',
            transfer E id to amount u d s'
            = (Throw (NotFoundException "One or both wallets not found"), s'')
            /\ main s'' = main s')
    /\ (softDeleteMiddleware E = true ->
        forall w dto ip0 ua0,
          wallets (main s) !! id = Some w ->
          c_name dto = w_name w ->
          toUpperCase (c_currency dto) = w_currency w ->
          (String.length (w_currency w) <=? 3)%nat = true ->
          create E userId dto ip0 ua0 s'
          = (Throw (PrismaClientKnownRequestError "P2002"), next_tick s')).
Proof.
  intros E id userId ip ua s s' H.
  apply delete_wallet_ok_inv in H as (w & Hrow & Hown & Hmain).
  pose proof (soft_delete_filter_Some E _ w Hrow) as Hw.
  assert (Hgone : soft_delete_filter E (wallets (main s') !! id) = None).
  { rewrite Hmain. unfold soft_delete_filter.
    destruct (softDeleteMiddleware E) eqn:Hmw; cbn [put_wallet wallets].
    - rewrite lookup_insert_eq. reflexivity.
    - rewrite lookup_delete_eq. reflexivity. }
  split; [|split; [|split; [|split]]].
  - unfold findByIdOrFail, findById, prisma_wallet_findUnique, bind. rewrite Hgone.
    reflexivity.
  - intros m u ip0 ua0.
    exact (mutate_not_found E id m u ip0 ua0 s' Hgone).
  - intros userId0 ip0 ua0.
    unfold delete_wallet, findByIdOrFail, findById, prisma_wallet_findUnique, bind.
    rewrite Hgone. reflexivity.
  - intros to amount u d. unfold transfer, prisma_transaction, transfer_unit, bind,
      tx_queryRaw_for_update, ret, tx_wallet_findUnique. cbn [txv main].
    rewrite Hgone. eexists. split; [destruct (soft_delete_filter E _); reflexivity|].
    reflexivity.
  - intros Hmw w0 dto ip0 ua0 Hw0 Hname Hcur Hfit.
    assert (w0 = w) by congruence. subst w0.
    unfold create, bind, prisma_wallet_create. rewrite Hcur, Hname, Hfit. cbn [negb].
    destruct (wallets (main s') !! uuid E (tick s')); [reflexivity|].
    assert (Htaken : triple_taken userId (w_name w) (w_currency w) (main s') = true).
    { unfold triple_taken. apply bool_decide_eq_true.
      rewrite Hmain, Hmw. cbn [put_wallet wallets].
      apply map_Exists_lookup. eexists id, _. split; [apply lookup_insert_eq|].
      cbn. auto. }
    rewrite Htaken. reflexivity.
Qed.

(** ** POST /wallets *)

Lemma upper_ascii_fixes_capitals c : is_upper_letter c = true -> upper_ascii c = c.
Proof.
  unfold is_upper_letter, upper_ascii. cbv zeta. intros H.
  apply andb_true_iff in H as [H1 H2]. apply Nat.leb_le in H1, H2.
  assert (Hlow : (97 <=? nat_of_ascii c)%nat = false) by (apply Nat.leb_gt; lia).
  rewrite Hlow. reflexivity.
Qed.

Lemma toUpperCase_fixes_codes c : matches_AZ3 c = true -> toUpperCase c = c.
Proof.
  destruct c as [|a [|b [|c [|x rest]]]]; cbn; try discriminate.
  intros H. apply andb_true_iff in H as [H Hc]. apply andb_true_iff in H as [Ha Hb].
  rewrite !upper_ascii_fixes_capitals by assumption. reflexivity.
Qed.

(** X18.  POST /wallets stores the currency code exactly as it was sent: a body
    whose currency is not three capital letters (a lower-case 'usd'
    included) is refused with 400 before the service runs, so the
    [toUpperCase] of the service never changes a code; the wallet returned
    is the stored row, owned by the caller, with the name sent, balance 0
    and version 0. *)
Theorem post_wallets_keeps_currency :
  forall (E : Env) (userId : string) (body : CreateWalletDto) (ip ua : option string)
         (s : World),
    (matches_AZ3 (c_currency body) = false ->
     post_wallets E userId body ip ua s
     = (Throw (BadRequestException "Validation failed"), s))
    /\ (forall w s',
          post_wallets E userId body ip ua s = (Ok w, s') ->
          w_currency w = c_currency body
          /\ matches_AZ3 (w_currency w) = true
          /\ w_name w = c_name body /\ w_userId w = userId
          /\ w_balance w = 0 /\ w_version w = 0 /\ w_deletedAt w = None
          /\ wallets (main s) !! w_id w = None
          /\ wallets (main s') = <[w_id w := w]> (wallets (main s))
          /\ transactions (main s') = transactions (main s)).
Proof.
  intros E userId body ip ua s. unfold post_wallets. split.
  - intros Hbad. unfold validate_CreateWalletDto. rewrite Hbad, andb_false_r. reflexivity.
  - intros w s' H.
    destruct (validate_CreateWalletDto body) eqn:Hvalid; [|unfold throw in H; discriminate].
    apply validate_CreateWalletDto_shape in Hvalid.
    unfold create in H.
    apply bind_ok_inv in H as (w0 & s1 & Hc & H).
    apply bind_ok_inv in H as (al & s2 & Haudit & H).
    apply AuditService_log_inv in Haudit as (Hm & _).
    inversion H; subst; clear H.
    unfold prisma_wallet_create in Hc.
    destruct (negb _); [discriminate|].
    destruct (wallets (main s) !! uuid E (tick s)) eqn:Hid; [discriminate|].
    destruct (triple_taken _ _ _ _); [discriminate|].
    inversion Hc; subst; clear Hc. rewrite Hm. cbn.
    rewrite (toUpperCase_fixes_codes _ Hvalid). repeat split; auto.
Qed.

(** ** The routes that move money *)

(** The attempt that returned, and what the others had committed before it
    started. *)
Lemma mutate_ok_attempt E id m u ip ua s v s' :
  mutate E id m u ip ua s = (Ok v, s') ->
  exists sa,
    env_steps E (main s) (main sa) /\ attempt E id m u ip ua sa = (Ok v, s').
Proof.
  intros H. rewrite mutate_unfold in H. unfold executeWithRetry in H.
  apply (retry_loop_outcome _ (fun s s' => env_steps E (main s) (main s'))) in H.
  - exact H.
  - intros s0. constructor.
  - intros s1 s2 s3. apply env_steps_trans.
  - intros retries attempt0 s0. constructor.
  - intros retries s0. constructor.
  - intros s0 e s0' H0. apply attempt_rollback in H0. tauto.
Qed.


(** ** The other writers are this service *)

(** X20.  The assumption made of the other writers is one the service itself
    meets: when every commit of another connection is a [fund], a
    [withdraw], a [transfer] or a [create] of this service, these writers
    keep the agreement of balances and ledger and never change a balance
    without moving the version. *)
Theorem service_calls_are_well_behaved :
  forall (E E0 : Env),
    well_behaved E0 ->
    (forall n x, monotone x (concurrent E0 n x)) ->
    writers_are_calls E E0 ->
    well_behaved E /\ (forall n x, monotone x (concurrent E n x)).
Proof.
  intros E E0 Hwb Hm Hcalls.
  assert (Hmono : forall n x, monotone x (concurrent E n x)).
  { intros n x. destruct (Hcalls n x) as (call & s & <- & ->).
    destruct call as [id m u ip ua|from to amount u d|userId dto ip ua]; cbn [run_call].
    - exact (mutate_monotone E0 id m u ip ua s _ _ Hm (surjective_pairing _)).
    - exact (transfer_monotone E0 from to amount u d s _ _ (surjective_pairing _)).
    - exact (create_monotone E0 userId dto ip ua s _ _ (surjective_pairing _)). }
  split; [|exact Hmono].
  intros n t Hc. split.
  - destruct (Hcalls n t) as (call & s & <- & ->).
    destruct call as [id m u ip ua|from to amount u d|userId dto ip ua]; cbn [run_call].
    + exact (mutate_consistent E0 id m u ip ua s _ _ Hwb Hc (surjective_pairing _)).
    + exact (transfer_consistent E0 from to amount u d s _ _ Hc (surjective_pairing _)).
    + exact (create_consistent E0 userId dto ip ua s _ _ Hc (surjective_pairing _)).
  - intros id w w' Hw Hw' Hv.
    destruct (Hmono n t id w Hw) as (w2 & Hw2 & _ & Hb).
    assert (w2 = w') by congruence. subst w2. exact (Hb Hv).
Qed.

(** ** The waits of executeWithRetry *)

Lemma backoff_delays_sum j :
  fold_right Z.add 0 (backoff_delays j) = 20 * (2 ^ Z.of_nat j - 1).
Proof.
  unfold backoff_delays.
  assert (H : forall a,
             fold_right Z.add 0
               (List.map (fun attempt => 2 ^ Z.of_nat attempt * 10) (seq a j))
             = 10 * 2 ^ Z.of_nat a * (2 ^ Z.of_nat j - 1)).
  { induction j as [|j IH]; intros a; cbn [seq List.map fold_right].
    - cbn. lia.
    - rewrite IH. rewrite !Nat2Z.inj_succ, !Z.pow_succ_r by lia. lia. }
  rewrite H. change (2 ^ Z.of_nat 1) with 2. lia.
Qed.

Lemma retry_loop_waits {T} (operation : M T) :
  (forall s r s', operation s = (r, s') -> timers s' = timers s) ->
  forall retries fuel attempt s r s',
    retry_loop operation retries attempt fuel s = (r, s') ->
    exists j,
      (j <= fuel)%nat
      /\ timers s'
         = (timers s
            ++ List.map (fun attempt => 2 ^ Z.of_nat attempt * 10) (seq attempt j))%list
      /\ match r with
         | Ok _ => (j < fuel)%nat
         | Throw e => (e = HighContention /\ j = fuel)
                      \/ ((j < fuel)%nat /\ is_concurrent_modification e = false)
         end.
Proof.
  intros Hop retries fuel. induction fuel as [|fuel IH]; intros attempt s r s' H.
  - rewrite retry_loop_exhausted in H. inversion H; subst. exists 0%nat.
    split; [lia|]. split; [cbn; rewrite app_nil_r; reflexivity|]. left. auto.
  - rewrite retry_loop_step in H.
    destruct (operation s) as [[v|e] s1] eqn:Hrun; apply Hop in Hrun.
    + inversion H; subst. exists 0%nat. split; [lia|].
      split; [cbn; rewrite app_nil_r; exact Hrun|lia].
    + destruct (is_concurrent_modification e) eqn:Hcm.
      * apply IH in H as (j & Hj & Ht & Hr). exists (S j). split; [lia|]. split.
        -- rewrite Ht. cbn [backoff_state timers seq List.map]. rewrite Hrun.
           rewrite <- app_assoc. reflexivity.
        -- destruct r as [v|e']; [lia|]. destruct Hr as [[-> ->]|[Hlt Hno]];
             [left; auto|right; split; [lia|exact Hno]].
      * inversion H; subst. exists 0%nat. split; [lia|].
        split; [cbn; rewrite app_nil_r; exact Hrun|]. right. split; [lia|exact Hcm].
Qed.

(** X21.  [executeWithRetry] for any number of retries: of an operation that
    sets no timer of its own, it awaits the delays 20, 40, 80, ... ms, one
    per conflict, at most [retries] of them and [20 * (2^retries - 1)] ms in
    all; it returns or passes another error on only before the last wait,
    and gives up with the high-contention error exactly after [retries]
    conflicts.  With [retries = 0] the operation is never run. *)
Theorem executeWithRetry_backoff :
  forall (T : Type) (operation : M T) (retries : nat) (s : World) (r : Result T)
         (s' : World),
    (forall s0 r0 s0', operation s0 = (r0, s0') -> timers s0' = timers s0) ->
    executeWithRetry operation retries s = (r, s') ->
    (exists j,
        (j <= retries)%nat
        /\ timers s' = (timers s ++ backoff_delays j)%list
        /\ fold_right Z.add 0 (backoff_delays j) <= 20 * (2 ^ Z.of_nat retries - 1)
        /\ match r with
           | Ok _ => (j < retries)%nat
           | Throw e => (e = HighContention /\ j = retries)
                        \/ ((j < retries)%nat /\ is_concurrent_modification e = false)
           end)
    /\ executeWithRetry operation 0 s = (Throw HighContention, give_up_state 0 s).
Proof.
  intros T operation retries s r s' Hop H. split; [|reflexivity].
  unfold executeWithRetry in H.
  apply (retry_loop_waits operation Hop) in H as (j & Hj & Ht & Hr).
  exists j. split; [exact Hj|]. split; [exact Ht|]. split; [|exact Hr].
  rewrite backoff_delays_sum.
  assert (2 ^ Z.of_nat j <= 2 ^ Z.of_nat retries) by (apply Z.pow_le_mono_r; lia).
  lia.
Qed.

(** ** No overdraft *)

Lemma solvent_rewrite t ws ts id w' :
  solvent t -> 0 <= w_balance w' -> ws = <[id := w']> (wallets t) ->
  solvent (mkTables ws ts).
Proof.
  intros Hs Hw' -> id0 w0. cbn [wallets].
  destruct (decide (id0 = id)) as [->|Hne].
  - rewrite lookup_insert_eq. intros H. inversion H; subst. exact Hw'.
  - rewrite lookup_insert_ne by congruence. apply Hs.
Qed.

Lemma solvent_env_steps E t t' :
  (forall n x, solvent x -> solvent (concurrent E n x)) ->
  env_steps E t t' -> solvent t -> solvent t'.
Proof.
  intros Hw Hsteps. induction Hsteps as [|t t' n _ IH]; intros Hs; [exact Hs|].
  apply Hw, IH, Hs.
Qed.

Lemma attempt_solvent E id m u ip ua s r s' :
  (forall n x, solvent x -> solvent (concurrent E n x)) ->
  credits_non_negative m ->
  solvent (main s) ->
  attempt E id m u ip ua s = (r, s') ->
  solvent (main s').
Proof.
  intros Hw Hm Hs H. destruct r as [v|e].
  - assert (Hcommit : exists type amount delta o w,
               committed_attempt E id type amount delta o w s s'
               /\ 0 <= w_balance w + delta).
    { destruct m as [dto|dto]; cbn in H, Hm.
      - apply fund_attempt_commit in H as (w & H). exists CREDIT, (f_amount dto),
          (f_amount dto), (f_reference dto), w. split; [exact H|].
        destruct H as (_ & _ & _ & Hrow & _). specialize (Hs id w Hrow). lia.
      - apply withdraw_attempt_commit in H as (w & H & Hfunds).
        exists DEBIT, (wd_amount dto), (- wd_amount dto), (wd_reference dto), w.
        split; [exact H|lia]. }
    destruct Hcommit as (type & amount & delta & o & w & (w1 & updatedAt & rec & _ & _
                         & _ & _ & Hws & _) & Hpos).
    destruct (main s') as [ws ts]. cbn in Hws.
    apply (solvent_rewrite (seen E s) ws ts id
             (written w1 (w_balance w + delta) updatedAt));
      [apply Hw; exact Hs|exact Hpos|exact Hws].
  - apply attempt_rollback in H as (_ & _ & Hsteps).
    exact (solvent_env_steps E _ _ Hw Hsteps Hs).
Qed.

(** X22.  No wallet is ever overdrawn: if all balances are non-negative, they
    still are after a [fund] of a non-negative amount, after a [withdraw]
    and after a [transfer] of a non-negative amount, whatever the outcome,
    the number of attempts and the other writers (as long as these do not
    overdraw either); [create] starts a wallet at 0. *)
Theorem balances_stay_non_negative :
  forall (E : Env) (s : World),
    solvent (main s) ->
    (forall id m u ip ua r s',
        (forall n x, solvent x -> solvent (concurrent E n x)) ->
        credits_non_negative m ->
        mutate E id m u ip ua s = (r, s') -> solvent (main s'))
    /\ (forall from to amount u d r s',
          0 <= amount ->
          transfer E from to amount u d s = (r, s') -> solvent (main s'))
    /\ (forall userId dto ip ua r s',
          create E userId dto ip ua s = (r, s') -> solvent (main s')).
Proof.
  intros E s Hs. split; [|split].
  - intros id m u ip ua r s' Hw Hm H. revert Hs.
    rewrite mutate_unfold in H. unfold executeWithRetry in H. revert H.
    apply (retry_loop_respects (attempt E id m u ip ua)
             (fun s s' => solvent (main s) -> solvent (main s'))).
    + auto.
    + auto.
    + intros retries attempt0 s0 H0. exact H0.
    + intros retries s0 H0. exact H0.
    + intros s0 r0 s0' H0 Hs0. exact (attempt_solvent E id m u ip ua s0 r0 s0' Hw Hm Hs0 H0).
  - intros from to amount u d r s' Hpos H. destruct r as [v|e].
    + apply transfer_commit in H
        as (fw & tw & tw0 & stem & out & inn & t1 & t2 & Hfw & Htw & _ & Hfunds & Htw0
            & Hws & _).
      assert (Hs1 : solvent (mkTables (<[from := moved fw (- amount) t1]>
                                         (wallets (main s)))
                                      (transactions (main s)))).
      { apply (solvent_rewrite (main s) _ _ from (moved fw (- amount) t1));
          [exact Hs|cbn; lia|reflexivity]. }
      destruct (main s') as [ws ts]. cbn in Hws.
      apply (solvent_rewrite _ ws ts to (moved tw0 amount t2) Hs1); [|exact Hws].
      specialize (Hs1 to tw0 Htw0). cbn. lia.
    + apply transfer_rollback in H as (-> & _). exact Hs.
  - intros userId dto ip ua r s' H. unfold create, bind in H.
    assert (Hnew : forall s1 r1,
               prisma_wallet_create E (c_name dto) (toUpperCase (c_currency dto))
                                    userId 0 0 s = (r1, s1) ->
               solvent (main s1)).
    { intros s1 r1 Hc.
      apply prisma_wallet_create_inv in Hc as [->|(w0 & Hnone & Hzero & ->)];
        [exact Hs|].
      apply (solvent_rewrite (main s) _ _ (uuid E (tick s)) w0);
        [exact Hs|lia|reflexivity]. }
    destruct (prisma_wallet_create E _ _ _ 0 0 s) as [[w|e] s1] eqn:Hcreate.
    + specialize (Hnew s1 _ eq_refl).
      destruct (AuditService_log E _ s1) as [[al|e] s2] eqn:Haudit;
        apply AuditService_log_inv in Haudit as (Hmain & _);
        inversion H; subst; rewrite Hmain; exact Hnew.
    + inversion H; subst. exact (Hnew s' _ eq_refl).
Qed.

Lemma solventb_sound t :
  bool_decide (map_Forall (fun _ w => 0 <= w_balance w) (wallets t)) = true -> solvent t.
Proof.
  intros H id w Hw. apply bool_decide_eq_true in H. exact (H id w Hw).
Qed.

Lemma balances_stay_non_negative_witness :
  solvent (main example_world)
  /\ solvent
       (main (snd (mutate (example_env false) "wallet-a"
                          (inr (mkWithdrawWalletDto 10005000 None None None))
                          "alice" None None example_world)))
  /\ solvent
       (main (snd (transfer (example_env false) "wallet-a" "wallet-b" 10005000 "alice"
                            None example_world))).
Proof.
  assert (Hs : solvent (main example_world))
    by (apply solventb_sound; vm_compute; reflexivity).
  destruct (balances_stay_non_negative (example_env false) example_world Hs)
    as (Hmut & Htr & _).
  split; [exact Hs|]. split.
  - apply (Hmut "wallet-a" (inr (mkWithdrawWalletDto 10005000 None None None)) "alice"
             None None
             (fst (mutate (example_env false) "wallet-a"
                          (inr (mkWithdrawWalletDto 10005000 None None None))
                          "alice" None None example_world))).
    + intros n x Hx. exact Hx.
    + exact I.
    + apply surjective_pairing.
  - apply (Htr "wallet-a" "wallet-b" 10005000 "alice" None
             (fst (transfer (example_env false) "wallet-a" "wallet-b" 10005000 "alice"
                            None example_world))).
    + lia.
    + apply surjective_pairing.
Defined.

(** ** What the entries say about the balances *)

(** X23.  The balances an entry records are the committed ones.  The entry of
    a [fund] or [withdraw] that returned is the last of the ledger; it was
    written by the attempt that returned, its [balanceBefore] is the
    balance of the row that attempt read and of the row its guarded write
    met, its [balanceAfter] the balance the row has now, and no other row
    was written (the other writers being well behaved).  The same holds of
    the two entries of a [transfer] between two different wallets.  A
    transfer of a wallet to itself leaves the balance as it was, but its
    CREDIT entry records the balance from before the debit and reports
    [amount] more than the row holds. *)
Theorem entries_report_committed_balances :
  forall (E : Env) (s : World),
    (forall id m u ip ua v s',
        well_behaved E ->
        consistent (main s) ->
        mutate E id m u ip ua s = (Ok v, s') ->
        exists sa r w w1 w',
          env_steps E (main s) (main sa)
          /\ attempt E id m u ip ua sa = (Ok v, s')
          /\ wallets (main sa) !! id = Some w
          /\ transactions (main s') = (transactions (seen E sa) ++ [r])%list
          /\ wallets (seen E sa) !! id = Some w1
          /\ wallets (main s') = <[id := w']> (wallets (seen E sa))
          /\ wallets (main s') !! id = Some w'
          /\ t_walletId r = id
          /\ t_balanceBefore r = w_balance w
          /\ t_balanceBefore r = w_balance w1
          /\ t_balanceAfter r = w_balance w'
          /\ (forall id', id' <> id ->
                          wallets (main s') !! id' = wallets (seen E sa) !! id'))
    /\ (forall from to amount u d v s',
          transfer E from to amount u d s = (Ok v, s') ->
          exists out inn fw tw fw' tw',
            transactions (main s') = (transactions (main s) ++ [out; inn])%list
            /\ wallets (main s) !! from = Some fw /\ wallets (main s) !! to = Some tw
            /\ wallets (main s') !! from = Some fw'
            /\ wallets (main s') !! to = Some tw'
            /\ t_balanceBefore out = w_balance fw
            /\ t_balanceBefore inn = w_balance tw
            /\ (from <> to ->
                t_balanceAfter out = w_balance fw' /\ t_balanceAfter inn = w_balance tw')
            /\ (from = to ->
                w_balance tw' = w_balance tw
                /\ t_balanceAfter inn = w_balance tw' + amount)).
Proof.
  intros E s. split.
  - intros id m u ip ua v s' Hwb Hc H.
    apply mutate_ok_attempt in H as (sa & Hsteps & Hrun).
    pose proof (consistent_env_steps E _ _ Hwb Hsteps Hc) as Hsa.
    pose proof Hrun as Hattempt.
    assert (Hcommit : exists type amount delta o w,
               committed_attempt E id type amount delta o w sa s').
    { destruct m as [dto|dto]; cbn in Hrun.
      - apply fund_attempt_commit in Hrun as (w & Hrun). eauto 6.
      - apply withdraw_attempt_commit in Hrun as (w & Hrun & _). eauto 6. }
    destruct Hcommit as (type & amount & delta & o & w & w1 & updatedAt & r & Hw & _
                         & Hw1 & Hver & Hws & Hts & _ & Hr1 & _ & _ & Hr4 & Hr5 & _).
    destruct (Hwb (S (tick sa)) (main sa) Hsa) as [_ Hkeep].
    fold (seen E sa) in Hkeep. specialize (Hkeep id w w1 Hw Hw1 Hver).
    exists sa, r, w, w1, (written w1 (w_balance w + delta) updatedAt).
    rewrite Hws, lookup_insert_eq.
    split; [exact Hsteps|]. split; [exact Hattempt|]. split; [exact Hw|].
    split; [exact Hts|]. split; [exact Hw1|]. split; [reflexivity|].
    split; [reflexivity|]. split; [exact Hr1|]. split; [exact Hr4|].
    split; [congruence|]. split; [exact Hr5|].
    intros id' Hne. rewrite lookup_insert_ne by congruence. reflexivity.
  - intros from to amount u d v s' H.
    apply transfer_commit in H
      as (fw & tw & tw0 & stem & out & inn & t1 & t2 & Hfw & Htw & _ & _ & Htw0 & Hws
          & Hts & _ & _ & _ & Ho4 & Ho5 & _ & _ & _ & _ & Hi4 & Hi5 & _).
    destruct (decide (from = to)) as [->|Hne].
    + rewrite lookup_insert_eq in Htw0. inversion Htw0; subst tw0.
      assert (tw = fw) by congruence. subst tw.
      exists out, inn, fw, fw, (moved (moved fw (- amount) t1) amount t2),
        (moved (moved fw (- amount) t1) amount t2).
      rewrite Hws, !lookup_insert_eq.
      repeat split; auto; try congruence; cbn; lia.
    + rewrite lookup_insert_ne in Htw0 by exact Hne.
      assert (tw0 = tw) by congruence. subst tw0.
      exists out, inn, fw, tw, (moved fw (- amount) t1), (moved tw amount t2).
      rewrite Hws.
      rewrite lookup_insert_eq, lookup_insert_ne, lookup_insert_eq by congruence.
      repeat split; auto; try congruence; cbn; lia.
Qed.

(** ** The status of a refused request *)

Lemma handler_of_owner {A} E id user (k : Handler A) s w :
  soft_delete_filter E (wallets (main s) !! id) = Some w ->
  w_userId w = u_id user ->
  hbind (await (findByIdOrFail E id))
        (fun wallet => if negb (String.eqb (w_userId wallet) (u_id user))
                       then throw_Error "Wallet not found"
                       else k) s
  = k s.
Proof.
  intros Hrow Hown.
  unfold hbind, await, findByIdOrFail, findById, prisma_wallet_findUnique, bind.
  rewrite Hrow. unfold ret. cbv beta iota.
  apply String.eqb_eq in Hown. rewrite Hown. reflexivity.
Qed.

(** X25.  The status codes of the refusals, as [AllExceptionsFilter] answers
    them.  A caller who does not own the wallet gets 500 from GET
    /wallets/:id, the summary, fund and withdraw (their plain error is no
    HttpException) but 404 from DELETE; a wallet that is not there is 404
    everywhere; the owner gets 400 for a withdrawal above the balance and
    for a wallet that bears the deletion marker, and 409 for a reference
    that is already in the ledger; 'Access denied' of GET
    /users/:userId/wallets is a 500. *)
Theorem refusals_as_http_status :
  forall (E : Env) (JSNumber : Type) (Number : Z -> JSNumber) (id : string) (user : User)
         (fdto : FundWalletDto) (wdto : WithdrawWalletDto) (ip : string)
         (userAgent : option string) (s : World),
    validate_FundWalletDto fdto = true ->
    validate_WithdrawWalletDto wdto = true ->
    (forall w,
        soft_delete_filter E (wallets (main s) !! id) = Some w ->
        w_userId w <> u_id user ->
        failure_status (WalletsController_findOne E id user s) = Some 500
        /\ failure_status (WalletsController_getSummary E Number id user s) = Some 500
        /\ failure_status (WalletsController_fund E id fdto user ip userAgent s) = Some 500
        /\ failure_status (WalletsController_withdraw E id wdto user ip userAgent s)
           = Some 500
        /\ failure_status (WalletsController_remove E id user ip userAgent s) = Some 404)
    /\ (soft_delete_filter E (wallets (main s) !! id) = None ->
        failure_status (WalletsController_findOne E id user s) = Some 404
        /\ failure_status (WalletsController_getSummary E Number id user s) = Some 404
        /\ failure_status (WalletsController_fund E id fdto user ip userAgent s) = Some 404
        /\ failure_status (WalletsController_withdraw E id wdto user ip userAgent s)
           = Some 404
        /\ failure_status (WalletsController_remove E id user ip userAgent s) = Some 404)
    /\ (forall w,
          soft_delete_filter E (wallets (main s) !! id) = Some w ->
          w_userId w = u_id user ->
          (w_deletedAt w = None -> w_balance w < wd_amount wdto ->
           failure_status (WalletsController_withdraw E id wdto user ip userAgent s)
           = Some 400)
          /\ (w_deletedAt w <> None ->
              failure_status (WalletsController_fund E id fdto user ip userAgent s)
              = Some 400
              /\ failure_status (WalletsController_withdraw E id wdto user ip userAgent s)
                 = Some 400)
          /\ (forall ref,
                w_deletedAt w = None ->
                (forall n t, concurrent E n t = t) ->
                truthy (f_reference fdto) = Some ref ->
                reference_taken ref (main s) = true ->
                failure_status (WalletsController_fund E id fdto user ip userAgent s)
                = Some 409))
    /\ (forall userId,
          userId <> u_id user -> ~ In ADMIN (u_roles user) ->
          failure_status (UsersWalletsController_getUserWallets E userId user s)
          = Some 500).
Proof.
  intros E JSNumber Number id user fdto wdto ip userAgent s Hf Hw.
  split; [|split; [|split]].
  - intros w Hrow Hne.
    unfold WalletsController_findOne, WalletsController_getSummary,
      WalletsController_fund, WalletsController_withdraw, WalletsController_remove,
      delete_wallet, hbind, await, findByIdOrFail, findById, prisma_wallet_findUnique, bind.
    rewrite Hf, Hw, Hrow. unfold ret. cbv beta iota.
    apply String.eqb_neq in Hne. rewrite Hne. cbn [negb]. repeat split.
  - intros Hrow.
    unfold WalletsController_findOne, WalletsController_getSummary,
      WalletsController_fund, WalletsController_withdraw, WalletsController_remove,
      delete_wallet, hbind, await, findByIdOrFail, findById, prisma_wallet_findUnique, bind.
    rewrite Hf, Hw, Hrow. repeat split.
  - intros w Hrow Hown.
    pose proof (soft_delete_filter_Some E _ w Hrow) as Hrow'.
    unfold WalletsController_fund, WalletsController_withdraw. rewrite Hf, Hw.
    rewrite !(handler_of_owner E id user _ s w Hrow Hown).
    split; [|split].
    + intros Hactive Hfunds. unfold await, withdraw, executeWithRetry, MAX_RETRIES.
      rewrite retry_loop_step.
      rewrite (withdraw_attempt_insufficient E id wdto (u_id user) (Some ip) userAgent s w
                 Hrow' Hactive Hfunds).
      reflexivity.
    + intros Hdeleted. destruct (w_deletedAt w) as [t|] eqn:Hdel; [|congruence].
      unfold await.
      change (fund E id fdto (u_id user) (Some ip) userAgent)
        with (mutate E id (inl fdto) (u_id user) (Some ip) userAgent).
      change (withdraw E id wdto (u_id user) (Some ip) userAgent)
        with (mutate E id (inr wdto) (u_id user) (Some ip) userAgent).
      rewrite !(mutate_deleted E id _ (u_id user) (Some ip) userAgent s w t Hrow Hdel).
      split; reflexivity.
    + intros ref Hactive Hquiet Href Htaken. unfold await.
      change (fund E id fdto (u_id user) (Some ip) userAgent)
        with (mutate E id (inl fdto) (u_id user) (Some ip) userAgent).
      destruct (mutate_duplicate_reference_calm E id (inl fdto) (u_id user) (Some ip)
                  userAgent s ref w Hquiet Href Htaken Hrow' Hactive I)
        as (s' & -> & _).
      reflexivity.
  - intros userId Hne Hno. unfold UsersWalletsController_getUserWallets.
    apply String.eqb_neq in Hne. rewrite Hne.
    destruct (existsb (Role_eqb ADMIN) (u_roles user)) eqn:Hex; [|reflexivity].
    exfalso. apply Hno. apply existsb_exists in Hex as (x & Hin & Hx).
    destruct x; cbn in Hx; congruence.
Qed.

Lemma refusals_as_http_status_witness :
  failure_status
    (WalletsController_fund (example_env false) "wallet-a"
       (mkFundWalletDto 25000 None None None) (mkUser "bob" [USER]) "10.0.0.7" None
       example_world) = Some 500
  /\ failure_status
       (WalletsController_remove (example_env false) "wallet-a" (mkUser "bob" [USER])
          "10.0.0.7" None example_world) = Some 404
  /\ failure_status
       (WalletsController_withdraw (example_env false) "wallet-a"
          (mkWithdrawWalletDto 20000000 None None None) (mkUser "alice" [USER])
          "10.0.0.7" None example_world) = Some 400
  /\ failure_status
       (WalletsController_fund (example_env false) "wallet-a"
          (mkFundWalletDto 25000 (Some "FUND-001") None None) (mkUser "alice" [USER])
          "10.0.0.7" None example_world) = Some 409.
Proof.
  destruct (refusals_as_http_status (example_env false) Z (fun z : Z => z) "wallet-a"
              (mkUser "bob" [USER]) (mkFundWalletDto 25000 None None None)
              (mkWithdrawWalletDto 20000000 None None None) "10.0.0.7" None example_world
              eq_refl eq_refl) as (Hstranger & _).
  destruct (Hstranger alice_wallet eq_refl) as (_ & _ & Hfund & _ & Hremove);
    [cbn; discriminate|].
  destruct (refusals_as_http_status (example_env false) Z (fun z : Z => z) "wallet-a"
              (mkUser "alice" [USER]) (mkFundWalletDto 25000 (Some "FUND-001") None None)
              (mkWithdrawWalletDto 20000000 None None None) "10.0.0.7" None example_world
              eq_refl eq_refl) as (_ & _ & Howner & _).
  destruct (Howner alice_wallet eq_refl eq_refl) as (Hwithdraw & _ & Hduplicate).
  split; [exact Hfund|]. split; [exact Hremove|]. split.
  - apply Hwithdraw; reflexivity.
  - apply (Hduplicate "FUND-001"); reflexivity.
Defined.

(** ** Runs of the properties on concrete states *)

Lemma findByReference_round_trip_witness :
  exists r s',
    snd (mutate (example_env false) "wallet-a"
                (inl (mkFundWalletDto 25000 (Some "PAY-7") None None))
                "alice" None None settled_world) = s'
    /\ TransactionsService_findByReference "PAY-7" s' = (Ok (Some r), s')
    /\ t_walletId r = "wallet-a" /\ t_type r = CREDIT /\ t_amount r = 25000.
Proof.
  destruct (mutate (example_env false) "wallet-a"
                   (inl (mkFundWalletDto 25000 (Some "PAY-7") None None))
                   "alice" None None settled_world) as [res s'] eqn:Hrun.
  assert (Hok : exists v, res = Ok v).
  { assert (H : fst (mutate (example_env false) "wallet-a"
                            (inl (mkFundWalletDto 25000 (Some "PAY-7") None None))
                            "alice" None None settled_world) = res)
      by (rewrite Hrun; reflexivity).
    vm_compute in H. rewrite <- H. eexists. reflexivity. }
  destruct Hok as (v & ->).
  destruct (findByReference_round_trip (example_env false) "wallet-a"
              (inl (mkFundWalletDto 25000 (Some "PAY-7") None None))
              "alice" None None settled_world v s' "PAY-7" eq_refl Hrun)
    as (r & w' & Hfind & _ & Hid & Hty & Hamt & _).
  exists r, s'. cbn [snd]. auto.
Defined.

Lemma findByReference_lookup_witness :
  TransactionsService_findByReference "FUND-001" settled_world
  = (Ok (Some alice_funding), settled_world)
  /\ TransactionsService_findByReference "FUND-002" settled_world
     = (Ok None, settled_world).
Proof.
  destruct (findByReference_lookup settled_world) as (Hentry & _ & Hfree).
  - apply NoDup_singleton.
  - split.
    + apply (Hentry alice_funding). left. reflexivity.
    + apply (Hfree "FUND-002"). reflexivity.
Defined.

Lemma controller_rejects_strangers_witness :
  WalletsController_fund (example_env false) "wallet-a"
    (mkFundWalletDto 25000 None None None) (mkUser "bob" [USER]) "10.0.0.7" None
    example_world
  = (Failed (PlainError "Wallet not found"), example_world)
  /\ WalletsController_remove (example_env false) "wallet-a" (mkUser "bob" [USER])
       "10.0.0.7" None example_world
     = (Failed (Raised (NotFoundException "Wallet not found")), example_world)
  /\ WalletsController_withdraw (example_env false) "wallet-x"
       (mkWithdrawWalletDto 25000 None None None) (mkUser "bob" [USER]) "10.0.0.7" None
       example_world
     = (Failed (Raised (NotFoundException "Wallet not found")), example_world).
Proof.
  destruct (controller_rejects_strangers (example_env false) Z (fun z : Z => z)
              "wallet-a" (mkUser "bob" [USER]) (mkFundWalletDto 25000 None None None)
              (mkWithdrawWalletDto 25000 None None None) "10.0.0.7" None example_world
              eq_refl eq_refl) as (Hother & _).
  destruct (Hother alice_wallet eq_refl) as (_ & _ & Hfund & _ & Hremove).
  { cbn. discriminate. }
  destruct (controller_rejects_strangers (example_env false) Z (fun z : Z => z)
              "wallet-x" (mkUser "bob" [USER]) (mkFundWalletDto 25000 None None None)
              (mkWithdrawWalletDto 25000 None None None) "10.0.0.7" None example_world
              eq_refl eq_refl) as (_ & Hmissing).
  destruct (Hmissing eq_refl) as (_ & _ & _ & Hwithdraw & _).
  split; [exact Hfund|]. split; [exact Hremove|exact Hwithdraw].
Defined.

Lemma fund_calm_witness :
  exists s',
    fund (example_env false) "wallet-a" (mkFundWalletDto 25000 None None None)
         "alice" None None example_world
    = (Ok (Some (mkWallet "wallet-a" "Main" "USD" 10030000 2 "alice" 100
                          1700000000000 None)), s')
    /\ List.length (transactions (main s')) = 2%nat
    /\ List.length (auditLogs s') = 1%nat.
Proof.
  destruct (fund_calm (example_env false) "wallet-a"
              (mkFundWalletDto 25000 None None None) "alice" None None example_world
              alice_wallet)
    as (s' & r & row & Hrun & _ & Hts & _ & _ & _ & _ & _ & _ & _ & Hlogs & _).
  - split; intros; reflexivity.
  - intros n. reflexivity.
  - reflexivity.
  - reflexivity.
  - exists s'. split; [exact Hrun|]. rewrite Hts, Hlogs. split; reflexivity.
Defined.

Lemma transfer_conserves_money_witness :
  exists fw' tw' s',
    transfer (example_env false) "wallet-a" "wallet-d" 2500000 "alice" None settled_world
    = (Ok (Some fw', Some tw'), s')
    /\ w_balance fw' = 7505000 /\ w_balance tw' = 2500000
    /\ auditLogs s' = [].
Proof.
  destruct (transfer (example_env false) "wallet-a" "wallet-d" 2500000 "alice" None
                     settled_world) as [res s'] eqn:Hrun.
  destruct (transfer_conserves_money (example_env false) "wallet-a" "wallet-d" 2500000
              "alice" None settled_world res s' Hrun) as (Hlogs & Hok).
  assert (Hres : exists v, res = Ok v).
  { assert (H : fst (transfer (example_env false) "wallet-a" "wallet-d" 2500000 "alice"
                              None settled_world) = res) by (rewrite Hrun; reflexivity).
    vm_compute in H. rewrite <- H. eexists. reflexivity. }
  destruct Hres as (v & Hv).
  destruct (Hok v Hv)
    as ((fw & tw & fw' & tw' & Hfw & Htw & Hfw' & Htw' & Hret & Hmove & _) & _).
  destruct Hmove as (Hb1 & Hb2 & _); [discriminate|].
  vm_compute in Hfw, Htw. injection Hfw as <-. injection Htw as <-.
  cbn [w_balance] in Hb1, Hb2.
  exists fw', tw', s'. rewrite Hv, Hret.
  assert (Hd1 : w_deletedAt fw' = None).
  { destruct (w_deletedAt fw') eqn:Hx; [|reflexivity]. exfalso.
    assert (H : fmap w_deletedAt
                  (wallets (main (snd (transfer (example_env false) "wallet-a" "wallet-d"
                                                2500000 "alice" None settled_world)))
                   !! "wallet-a") = Some (Some z)).
    { rewrite Hrun. cbn [snd]. rewrite Hfw'. cbn. rewrite Hx. reflexivity. }
    vm_compute in H. discriminate. }
  assert (Hd2 : w_deletedAt tw' = None).
  { destruct (w_deletedAt tw') eqn:Hx; [|reflexivity]. exfalso.
    assert (H : fmap w_deletedAt
                  (wallets (main (snd (transfer (example_env false) "wallet-a" "wallet-d"
                                                2500000 "alice" None settled_world)))
                   !! "wallet-d") = Some (Some z)).
    { rewrite Hrun. cbn [snd]. rewrite Htw'. cbn. rewrite Hx. reflexivity. }
    vm_compute in H. discriminate. }
  rewrite !soft_delete_filter_active by assumption.
  split; [reflexivity|]. split; [exact Hb1|]. split; [exact Hb2|exact Hlogs].
Defined.

Lemma deleted_wallet_unreachable_witness :
  exists s',
    delete_wallet (example_env true) "wallet-a" "alice" None None settled_world
    = (Ok tt, s')
    /\ findByIdOrFail (example_env true) "wallet-a" s'
       = (Throw (NotFoundException "Wallet not found"), s')
    /\ create (example_env true) "alice" (mkCreateWalletDto "Main" "USD") None None s'
       = (Throw (PrismaClientKnownRequestError "P2002"), next_tick s').
Proof.
  destruct (delete_wallet (example_env true) "wallet-a" "alice" None None settled_world)
    as [res s'] eqn:Hrun.
  assert (Hres : res = Ok tt).
  { assert (H : fst (delete_wallet (example_env true) "wallet-a" "alice" None None
                                   settled_world) = res) by (rewrite Hrun; reflexivity).
    vm_compute in H. rewrite <- H. reflexivity. }
  subst res.
  destruct (deleted_wallet_unreachable (example_env true) "wallet-a" "alice" None None
              settled_world s' Hrun) as (Hfind & _ & _ & _ & Hcreate).
  exists s'. split; [reflexivity|]. split; [exact Hfind|].
  apply (Hcreate eq_refl alice_wallet (mkCreateWalletDto "Main" "USD") None None);
    reflexivity.
Defined.

Lemma service_calls_are_well_behaved_witness :
  well_behaved crowded_env
  /\ concurrent crowded_env 1 settled_tables
     = main (snd (fund (example_env false) "wallet-d"
                       (mkFundWalletDto 50000 None None None) "dave" None None
                       (mkWorld settled_tables settled_tables [] [] [] 0 2000))).
Proof.
  split; [|reflexivity].
  apply (service_calls_are_well_behaved crowded_env (example_env false)).
  - intros n t Hc. split; [exact Hc|]. intros id w w' Hw Hw' _. cbn in Hw'. congruence.
  - intros n x. apply monotone_refl.
  - intros n t. eexists. exists (mkWorld t t [] [] [] 0 (1000 * S n)).
    split; reflexivity.
Defined.

Lemma executeWithRetry_backoff_witness :
  exists j s',
    executeWithRetry (@throw unit ConcurrentModification) 3 example_world
    = (Throw HighContention, s')
    /\ (j <= 3)%nat /\ timers s' = backoff_delays j
    /\ fold_right Z.add 0 (backoff_delays j) <= 140.
Proof.
  destruct (executeWithRetry (@throw unit ConcurrentModification) 3 example_world)
    as [res s'] eqn:Hrun.
  destruct (executeWithRetry_backoff unit (throw ConcurrentModification) 3 example_world
              res s') as ((j & Hj & Ht & Hsum & _) & _).
  - intros s0 r0 s0' H. inversion H. reflexivity.
  - exact Hrun.
  - assert (Hres : res = Throw HighContention).
    { assert (H : fst (executeWithRetry (@throw unit ConcurrentModification) 3
                                        example_world) = res)
        by (rewrite Hrun; reflexivity).
      vm_compute in H. rewrite <- H. reflexivity. }
    subst res. exists j, s'. split; [reflexivity|]. split; [exact Hj|].
    split; [exact Ht|exact Hsum].
Defined.

Lemma findByWalletId_page_witness :
  rearranges reversing_engine
  /\ 0 <= or_default (Some (Int 2)) 50
  /\ 0 <= or_default None 0
  /\ exists page,
       TransactionsService_findByWalletId reversing_engine "wallet-a"
         (mkFindOptions (Some CREDIT) (Some (Int 2)) None None None)
         (snd (mutate busy_env "wallet-a" (inl (mkFundWalletDto 25000 None None None))
                      "alice" None None settled_world))
       = (Ok page,
          snd (mutate busy_env "wallet-a" (inl (mkFundWalletDto 25000 None None None))
                      "alice" None None settled_world))
       /\ List.map t_amount page = [25000; 10000]
       /\ newest_first t_createdAt page
       /\ forall r, In r page -> t_walletId r = "wallet-a" /\ t_type r = CREDIT.
Proof.
  assert (Hrev : rearranges reversing_engine).
  { intros l. cbn. apply Permutation_sym, Permutation_rev. }
  assert (Hl : 0 <= or_default (Some (Int 2)) 50) by (vm_compute; discriminate).
  assert (Ho : 0 <= or_default None 0) by (vm_compute; discriminate).
  split; [exact Hrev|]. split; [exact Hl|]. split; [exact Ho|].
  destruct (findByWalletId_page reversing_engine "wallet-a"
              (mkFindOptions (Some CREDIT) (Some (Int 2)) None None None)
              (snd (mutate busy_env "wallet-a"
                           (inl (mkFundWalletDto 25000 None None None))
                           "alice" None None settled_world)) Hrev Hl Ho)
    as (page & Hrun & _ & Hin & Hsorted & _).
  exists page. split; [exact Hrun|]. split.
  - assert (H : fst (TransactionsService_findByWalletId reversing_engine "wallet-a"
                       (mkFindOptions (Some CREDIT) (Some (Int 2)) None None None)
                       (snd (mutate busy_env "wallet-a"
                                    (inl (mkFundWalletDto 25000 None None None))
                                    "alice" None None settled_world))) = Ok page)
      by (rewrite Hrun; reflexivity).
    vm_compute in H. injection H as <-. reflexivity.
  - split; [exact Hsorted|]. intros r Hr.
    destruct (Hin r Hr) as (_ & Hid & Hty & _). split; [exact Hid|].
    apply Hty. reflexivity.
Defined.

Lemma getUserWallets_access_witness :
  UsersWalletsController_getUserWallets (example_env false) "alice"
    (mkUser "root" [USER; SUPER_ADMIN]) settled_world
  = (Failed (PlainError "Access denied"), settled_world)
  /\ (exists ws,
        UsersWalletsController_getUserWallets (example_env false) "alice"
          (mkUser "boss" [ADMIN]) settled_world = (Replied ws, settled_world)
        /\ forall w, In w ws -> w_userId w = "alice").
Proof.
  destruct (getUserWallets_access (example_env false) "alice"
              (mkUser "root" [USER; SUPER_ADMIN]) settled_world) as (_ & Hdenied & _).
  destruct (getUserWallets_access (example_env false) "alice"
              (mkUser "boss" [ADMIN]) settled_world) as (Hallowed & _).
  split.
  - apply Hdenied; [discriminate|]. intros [H|[H|[]]]; discriminate.
  - destruct Hallowed as (ws & Hrun & _ & Hin); [right; left; reflexivity|].
    exists ws. split; [exact Hrun|]. intros w Hw. apply Hin in Hw. tauto.
Defined.

Lemma mutate_unavailable_wallet_witness :
  mutate (example_env false) "wallet-x" (inr (mkWithdrawWalletDto 25000 None None None))
         "alice" None None example_world
  = (Throw (NotFoundException "Wallet not found"), begin_state example_world).
Proof.
  apply (proj1 (mutate_unavailable_wallet (example_env false) "wallet-x"
                  (inr (mkWithdrawWalletDto 25000 None None None)) "alice" None None
                  example_world)).
  reflexivity.
Defined.

Lemma busy_env_monotone n x : monotone x (concurrent busy_env n x).
Proof.
  cbn [concurrent busy_env]. destruct (n =? 1)%nat; [|apply monotone_refl].
  unfold deposit_of_another.
  destruct (wallets x !! "wallet-a") as [w|] eqn:Hw; [|apply monotone_refl].
  destruct (reference_taken ("EXT-" +:+ pretty n) x); [apply monotone_refl|].
  apply (monotone_rewrite x _ _ "wallet-a" w (written w (w_balance w + 10000) 300) Hw);
    [cbn; lia|reflexivity].
Qed.

Lemma versions_guard_balances_witness :
  monotone (main settled_world)
    (main (snd (mutate busy_env "wallet-a" (inl (mkFundWalletDto 25000 None None None))
                       "alice" None None settled_world)))
  /\ monotone (main settled_world)
       (main (snd (transfer busy_env "wallet-a" "wallet-d" 2500000 "alice" None
                            settled_world))).
Proof.
  destruct (versions_guard_balances busy_env settled_world) as (Hmut & Htr & _).
  split.
  - exact (Hmut "wallet-a" (inl (mkFundWalletDto 25000 None None None)) "alice" None None
                _ _ busy_env_monotone (surjective_pairing _)).
  - exact (Htr "wallet-a" "wallet-d" 2500000 "alice" None _ _ (surjective_pairing _)).
Defined.

Lemma post_wallets_keeps_currency_witness :
  post_wallets (example_env false) "alice" (mkCreateWalletDto "Holiday" "usd") None None
               settled_world
  = (Throw (BadRequestException "Validation failed"), settled_world)
  /\ (forall w s',
        post_wallets (example_env false) "alice" (mkCreateWalletDto "Holiday" "EUR")
                     None None settled_world = (Ok w, s') ->
        w_currency w = "EUR" /\ w_balance w = 0).
Proof.
  destruct (post_wallets_keeps_currency (example_env false) "alice"
              (mkCreateWalletDto "Holiday" "usd") None None settled_world)
    as (Hrejected & _).
  destruct (post_wallets_keeps_currency (example_env false) "alice"
              (mkCreateWalletDto "Holiday" "EUR") None None settled_world)
    as (_ & Hstored).
  split; [apply Hrejected; reflexivity|].
  intros w s' Hrun. destruct (Hstored w s' Hrun) as (Hc & _ & _ & _ & Hb & _). auto.
Defined.


Lemma entries_report_committed_balances_witness :
  exists out inn tw' s',
    snd (transfer (example_env false) "wallet-a" "wallet-a" 2500000 "alice" None
                  settled_world) = s'
    /\ transactions (main s') = [alice_funding; out; inn]
    /\ wallets (main s') !! "wallet-a" = Some tw'
    /\ w_balance tw' = 10005000
    /\ t_balanceAfter inn = 12505000.
Proof.
  destruct (transfer (example_env false) "wallet-a" "wallet-a" 2500000 "alice" None
                     settled_world) as [res s'] eqn:Hrun.
  assert (Hres : exists v, res = Ok v).
  { assert (H : fst (transfer (example_env false) "wallet-a" "wallet-a" 2500000 "alice"
                              None settled_world) = res) by (rewrite Hrun; reflexivity).
    vm_compute in H. rewrite <- H. eexists. reflexivity. }
  destruct Hres as (v & ->).
  destruct (entries_report_committed_balances (example_env false) settled_world)
    as (_ & Htransfer).
  destruct (Htransfer "wallet-a" "wallet-a" 2500000 "alice" None v s' Hrun)
    as (out & inn & fw & tw & fw' & tw' & Hts & Hfw & Htw & Hfw' & Htw' & _ & _ & _ & Hself).
  destruct (Hself eq_refl) as (Hsame & Hreported).
  vm_compute in Htw. injection Htw as <-. cbn [w_balance] in Hsame.
  exists out, inn, tw', s'. cbn [snd].
  split; [reflexivity|]. split; [exact Hts|]. split; [exact Htw'|].
  split; [exact Hsame|]. rewrite Hreported, Hsame. reflexivity.
Defined.

(** ** C4: which error a taken reference gives *)

Lemma reference_taken_put_wallet ref id w t :
  reference_taken ref (put_wallet id w t) = reference_taken ref t.
Proof. reflexivity. Qed.

(** An attempt with a reference that is taken in the ledger its write works
    on throws the error of the check that stopped it, the conflict of the
    guarded write, or the unique-constraint error of the insert: it never
    gets as far as the audit call. *)
Lemma attempt_duplicate_reference_error E id m u ip ua s ref e s' :
  truthy (reference_of m) = Some ref ->
  reference_taken ref (seen E s) = true ->
  attempt E id m u ip ua s = (Throw e, s') ->
  e = DuplicateReference \/ e = ConcurrentModification
  \/ e = NotFoundException "Wallet not found"
  \/ e = BadRequestException "Wallet has been deleted"
  \/ exists balance currency,
       e = BadRequestException ("Insufficient funds. Available balance: "
                                +:+ balance +:+ " " +:+ currency).
Proof.
  intros Href Htaken H. unfold seen in Htaken.
  destruct m as [dto|dto]; cbn [attempt reference_of] in *.
  - apply (prisma_transaction_rollback E) in H as (Hu & _); [|apply respects_fund_unit].
    unfold fund_unit in Hu.
    apply bind_throw_inv in Hu as [Hu | (ow & sa & Hfind & Hu)]; [discriminate|].
    unfold tx_wallet_findUnique in Hfind; inversion Hfind; subst; clear Hfind.
    cbn [txv begin_state] in Hu.
    destruct (soft_delete_filter E (wallets (main s) !! id)) as [w|];
      [|inversion Hu; auto].
    destruct (w_deletedAt w); [inversion Hu; auto|]. cbv zeta in Hu.
    apply bind_throw_inv in Hu as [Hu | (t & sb & Hdate & Hu)]; [discriminate|].
    unfold new_Date in Hdate; inversion Hdate; subst; clear Hdate.
    apply bind_throw_inv in Hu as [Hu | (count & sc & Hupd & Hu)].
    { unfold tx_wallet_updateMany in Hu.
      apply bind_throw_inv in Hu as [Hu | (x & sx & _ & Hu)]; [discriminate|].
      destruct (wallets (txv sx) !! id) as [w1|];
        [destruct (w_version w1 =? w_version w)|]; discriminate. }
    apply tx_wallet_updateMany_inv in Hupd; cbn in Hupd.
    destruct Hupd as (_ & _ & _ & [(-> & _) | (-> & w1 & _ & _ & Htxv)]);
      cbn [Nat.eqb] in Hu; [inversion Hu; auto|].
    apply bind_throw_inv in Hu as [Hu | (reference & sd & Hchoose & Hu)].
    { destruct (truthy (f_reference dto)); discriminate. }
    apply choose_reference_inv in Hchoose as (_ & Ht1 & _ & Hchosen).
    rewrite (reference_for_truthy E _ ref _ Href) in Hchosen. subst reference.
    apply bind_throw_inv in Hu as [Hu | (rec & se & Hcreate & Hu)].
    { apply tx_transaction_create_throws in Hu as (-> & _). left. reflexivity. }
    exfalso. apply tx_transaction_create_inv in Hcreate as (Hfresh & _).
    cbn [ct_reference] in Hfresh.
    rewrite Ht1, Htxv, reference_taken_put_wallet in Hfresh. congruence.
  - apply (prisma_transaction_rollback E) in H as (Hu & _); [|apply respects_withdraw_unit].
    unfold withdraw_unit in Hu.
    apply bind_throw_inv in Hu as [Hu | (ow & sa & Hfind & Hu)]; [discriminate|].
    unfold tx_wallet_findUnique in Hfind; inversion Hfind; subst; clear Hfind.
    cbn [txv begin_state] in Hu.
    destruct (soft_delete_filter E (wallets (main s) !! id)) as [w|];
      [|inversion Hu; auto].
    destruct (w_deletedAt w); [inversion Hu; auto|]. cbv zeta in Hu.
    destruct (w_balance w - wd_amount dto <? 0);
      [inversion Hu; do 4 right; eauto|].
    apply bind_throw_inv in Hu as [Hu | (t & sb & Hdate & Hu)]; [discriminate|].
    unfold new_Date in Hdate; inversion Hdate; subst; clear Hdate.
    apply bind_throw_inv in Hu as [Hu | (count & sc & Hupd & Hu)].
    { unfold tx_wallet_updateMany in Hu.
      apply bind_throw_inv in Hu as [Hu | (x & sx & _ & Hu)]; [discriminate|].
      destruct (wallets (txv sx) !! id) as [w1|];
        [destruct (w_version w1 =? w_version w)|]; discriminate. }
    apply tx_wallet_updateMany_inv in Hupd; cbn in Hupd.
    destruct Hupd as (_ & _ & _ & [(-> & _) | (-> & w1 & _ & _ & Htxv)]);
      cbn [Nat.eqb] in Hu; [inversion Hu; auto|].
    apply bind_throw_inv in Hu as [Hu | (reference & sd & Hchoose & Hu)].
    { destruct (truthy (wd_reference dto)); discriminate. }
    apply choose_reference_inv in Hchoose as (_ & Ht1 & _ & Hchosen).
    rewrite (reference_for_truthy E _ ref _ Href) in Hchosen. subst reference.
    apply bind_throw_inv in Hu as [Hu | (rec & se & Hcreate & Hu)].
    { apply tx_transaction_create_throws in Hu as (-> & _). left. reflexivity. }
    exfalso. apply tx_transaction_create_inv in Hcreate as (Hfresh & _).
    cbn [ct_reference] in Hfresh.
    rewrite Ht1, Htxv, reference_taken_put_wallet in Hfresh. congruence.
Qed.

(** What the wrapper hands on when every attempt throws an error of a given
    kind or the conflict it retries. *)
Lemma retry_loop_error {T} (operation : M T) (P : World -> Prop)
  (C : Exception -> Prop) :
  (forall s r s', P s -> operation s = (r, s') ->
                  (exists e, r = Throw e /\ (C e \/ e = ConcurrentModification)) /\ P s') ->
  (forall retries attempt s, P s -> P (backoff_state retries attempt s)) ->
  forall retries fuel attempt s r s',
    P s -> retry_loop operation retries attempt fuel s = (r, s') ->
    exists e, r = Throw e /\ (C e \/ e = HighContention).
Proof.
  intros Hop Hback retries fuel. induction fuel as [|fuel IH]; intros attempt s r s' HP H.
  - rewrite retry_loop_exhausted in H. inversion H; subst. eauto.
  - rewrite retry_loop_step in H.
    destruct (operation s) as [[v|e] s1] eqn:Hrun;
      destruct (Hop s _ s1 HP Hrun) as ((e0 & He0 & Hclass) & HP1); [discriminate|].
    inversion He0; subst e0.
    destruct (is_concurrent_modification e) eqn:Hcm.
    + eapply IH; [|exact H]. apply Hback. exact HP1.
    + inversion H; subst. exists e. split; [reflexivity|].
      destruct Hclass as [Hc| ->]; [left; exact Hc|].
      rewrite ConcurrentModification_retried in Hcm. discriminate.
Qed.

Lemma mutate_throws_no_audit_row E id m u ip ua s e s' :
  mutate E id m u ip ua s = (Throw e, s') -> auditLogs s' = auditLogs s.
Proof.
  intros H.
  assert (Hattempt : audits_once (fun _ => True) (attempt E id m u ip ua)).
  { destruct m as [dto|dto]; cbn [attempt]; apply audits_once_prisma_transaction.
    - intros s0 r0 s0' H0. apply (audits_once_fund_unit E id dto u ip ua) in H0.
      destruct r0; [destruct H0 as (row & Hrow & _); eauto|exact H0].
    - intros s0 r0 s0' H0. apply (audits_once_withdraw_unit E id dto u ip ua) in H0.
      destruct r0; [destruct H0 as (row & Hrow & _); eauto|exact H0]. }
  rewrite mutate_unfold in H. unfold executeWithRetry in H.
  apply (retry_loop_outcome _ (fun s s' => auditLogs s' = auditLogs s)) in H.
  - exact H.
  - reflexivity.
  - intros s1 s2 s3 H1 H2. congruence.
  - reflexivity.
  - reflexivity.
  - intros s0 e0 s0' Hrun. exact (Hattempt s0 _ s0' Hrun).
Qed.

Lemma mutate_duplicate_reference_error E id m u ip ua s ref :
  truthy (reference_of m) = Some ref ->
  append_only E ref ->
  reference_taken ref (main s) = true ->
  exists e s',
    mutate E id m u ip ua s = (Throw e, s')
    /\ env_steps E (main s) (main s')
    /\ auditLogs s' = auditLogs s
    /\ (e = DuplicateReference \/ refused_before_insert e).
Proof.
  intros Href Happ Htaken.
  destruct (mutate E id m u ip ua s) as [r s'] eqn:H.
  assert (Hclass : exists e, r = Throw e
                             /\ ((e = DuplicateReference
                                  \/ e = NotFoundException "Wallet not found"
                                  \/ e = BadRequestException "Wallet has been deleted"
                                  \/ exists balance currency,
                                       e = BadRequestException
                                             ("Insufficient funds. Available balance: "
                                              +:+ balance +:+ " " +:+ currency))
                                 \/ e = HighContention)).
  { rewrite mutate_unfold in H. unfold executeWithRetry in H.
    eapply (retry_loop_error _ (fun x => reference_taken ref (main x) = true));
      [| |exact Htaken|exact H].
    - intros s0 r0 s0' HP H0.
      assert (Hseen : reference_taken ref (seen E s0) = true)
        by (unfold seen; apply Happ; exact HP).
      destruct r0 as [v|e0].
      + exfalso. exact (attempt_duplicate_reference E id m u ip ua s0 ref Href Hseen _ _ H0).
      + split.
        * exists e0. split; [reflexivity|].
          destruct (attempt_duplicate_reference_error E id m u ip ua s0 ref e0 s0'
                      Href Hseen H0) as [He|[He|[He|[He|He]]]]; auto.
        * apply attempt_rollback in H0 as (_ & _ & He).
          eapply env_steps_append_only; eassumption.
    - intros retries attempt0 s0 HP. exact HP. }
  destruct Hclass as (e & -> & Hclass). exists e, s'.
  split; [reflexivity|]. split; [exact (mutate_rollback E id m u ip ua s e s' H)|].
  split; [exact (mutate_throws_no_audit_row E id m u ip ua s e s' H)|].
  unfold refused_before_insert. tauto.
Qed.

(** C4 (amended).  A fund or withdraw whose caller-supplied reference is
    already in the ledger never credits or debits a second time and never
    returns the earlier result: as long as other connections only append
    to the ledger it throws, nothing of the call is committed and no audit
    row is written, and the error is the unique-constraint error of the
    insert or the error of what stopped the call before the insert (wallet
    not found, wallet deleted, insufficient funds, or the high-contention
    conflict of the retry wrapper).  Which one: a wallet that is not there
    gives NotFound, a marked wallet 'Wallet has been deleted', a withdraw
    above the balance 'Insufficient funds', all at the first attempt and
    without a write; on an active wallet (with enough funds for a withdraw)
    and without concurrent writers the insert violates the unique index on
    the reference, the atomic unit is rolled back at the first attempt, the
    committed wallets and ledger and the audit log are as before, and the
    caller receives the unique-constraint error. *)
Theorem duplicate_reference_rejected :
  forall (E : Env) (id : string) (m : Mutation) (u : string) (ip ua : option string)
         (s : World) (ref : string),
    truthy (reference_of m) = Some ref ->
    reference_taken ref (main s) = true ->
    (append_only E ref ->
     exists e s', mutate E id m u ip ua s = (Throw e, s')
                  /\ env_steps E (main s) (main s')
                  /\ auditLogs s' = auditLogs s
                  /\ (e = DuplicateReference \/ refused_before_insert e))
    /\ ((forall n t, concurrent E n t = t) ->
        forall w, wallets (main s) !! id = Some w -> w_deletedAt w = None ->
                  sufficient m w ->
        exists s',
          mutate E id m u ip ua s = (Throw DuplicateReference, s')
          /\ main s' = main s /\ auditLogs s' = auditLogs s
          /\ timers s' = timers s)
    /\ (soft_delete_filter E (wallets (main s) !! id) = None ->
        mutate E id m u ip ua s
        = (Throw (NotFoundException "Wallet not found"), begin_state s))
    /\ (forall w t,
          soft_delete_filter E (wallets (main s) !! id) = Some w ->
          w_deletedAt w = Some t ->
          mutate E id m u ip ua s
          = (Throw (BadRequestException "Wallet has been deleted"), begin_state s))
    /\ (forall w,
          wallets (main s) !! id = Some w -> w_deletedAt w = None ->
          ~ sufficient m w ->
          mutate E id m u ip ua s
          = (Throw (BadRequestException
                      ("Insufficient funds. Available balance: "
                       +:+ Decimal_toString (w_balance w) +:+ " " +:+ w_currency w)),
             begin_state s))
    /\ main (begin_state s) = main s /\ auditLogs (begin_state s) = auditLogs s
    /\ timers (begin_state s) = timers s.
Proof.
  intros E id m u ip ua s ref Href Htaken.
  split; [|split; [|split; [|split; [|split; [|repeat split]]]]].
  - intros Happ. eapply mutate_duplicate_reference_error; eassumption.
  - intros Hq w Hw Hdel Hsuff.
    destruct (mutate_duplicate_reference_calm E id m u ip ua s ref w
                Hq Href Htaken Hw Hdel Hsuff) as (s' & H & Hm & Ha & Ht & _).
    exists s'. auto.
  - apply mutate_not_found.
  - intros w t. apply mutate_deleted.
  - intros w Hw Hdel Hshort. destruct m as [dto|dto]; cbn [sufficient] in Hshort;
      [exfalso; apply Hshort; exact I|].
    cbn [mutate]. unfold withdraw, executeWithRetry, MAX_RETRIES.
    rewrite retry_loop_step.
    rewrite (withdraw_attempt_insufficient E id dto u ip ua s w Hw Hdel) by lia.
    reflexivity.
Qed.

Lemma duplicate_reference_rejected_witness :
  truthy (reference_of (inl (mkFundWalletDto 10005000 (Some "FUND-001") None None)))
  = Some "FUND-001"
  /\ reference_taken "FUND-001" (main example_world) = true
  /\ (exists s',
        mutate (example_env false) "wallet-a"
               (inl (mkFundWalletDto 10005000 (Some "FUND-001") None None))
               "alice" None None example_world
        = (Throw DuplicateReference, s')
        /\ main s' = main example_world
        /\ auditLogs s' = auditLogs example_world
        /\ timers s' = timers example_world)
  /\ (exists e s',
        mutate racing_env "wallet-a"
               (inl (mkFundWalletDto 10005000 (Some "FUND-001") None None))
               "alice" None None example_world
        = (Throw e, s')
        /\ env_steps racing_env (main example_world) (main s')
        /\ (e = DuplicateReference \/ refused_before_insert e))
  /\ mutate (example_env false) "wallet-a"
            (inr (mkWithdrawWalletDto 20000000 (Some "FUND-001") None None))
            "alice" None None example_world
     = (Throw (BadRequestException "Insufficient funds. Available balance: 1000.5 USD"),
        begin_state example_world).
Proof.
  split; [reflexivity|]. split; [reflexivity|]. split; [|split].
  - destruct (duplicate_reference_rejected (example_env false) "wallet-a"
                (inl (mkFundWalletDto 10005000 (Some "FUND-001") None None))
                "alice" None None example_world "FUND-001" eq_refl eq_refl)
      as (_ & Hcalm & _).
    apply (Hcalm (fun n t => eq_refl) alice_wallet eq_refl eq_refl I).
  - destruct (duplicate_reference_rejected racing_env "wallet-a"
                (inl (mkFundWalletDto 10005000 (Some "FUND-001") None None))
                "alice" None None example_world "FUND-001" eq_refl eq_refl)
      as (Hany & _).
    destruct Hany as (e & s' & Hrun & Hsteps & _ & Hclass).
    + intros n t Ht. exact Ht.
    + exists e, s'. auto.
  - destruct (duplicate_reference_rejected (example_env false) "wallet-a"
                (inr (mkWithdrawWalletDto 20000000 (Some "FUND-001") None None))
                "alice" None None example_world "FUND-001" eq_refl eq_refl)
      as (_ & _ & _ & _ & Hshort & _).
    apply (Hshort alice_wallet eq_refl eq_refl). cbn. lia.
Defined.

(** ** C6: the entries of the ledger, by caller *)





